(** * Bitcore wallet service: coin selection, proposal state machine, verifier

    A shallow embedding of
    - [packages/bitcore-wallet-service/src/lib/chain/btc/index.ts] ([BtcChain]),
    - the [TxProposal] model class and the [Defaults] table of the wallet
      service, and the client's [Utils],
    - the client's [Verifier].

    JavaScript numbers are modelled exactly: satoshi amounts, sizes after
    [Math.ceil] and rounded fees are integers ([Z]); fee rates, unrounded
    fees and ratios are rationals ([Q]).  The three values a division can
    produce besides a rational ([Infinity], [-Infinity], [NaN]) are kept
    apart in [JS.num].  Exceptions are modelled with [option] ([None] is a
    throw) and the node-style callback result with a sum type.

    The values are the exact ones.  Where the code rounds a sum of doubles
    ([Math.round], [toFixed]) the model rounds the exact sum, so at a tie
    that the doubles miss by their last bit the two can differ by one;
    statements that depend on the side of such a tie say so.  Amounts are
    taken below 2^53 and fees below 1e21, where the integers of the code
    are exact and [toFixed] prints no exponent. *)

From Stdlib Require Import ZArith QArith Qround Lia Lqa Ascii String.
From stdpp Require Import base option list gmap strings pretty.

Open Scope Z_scope.

(** ** JavaScript arithmetic used by the sources *)

Module JS.

(** Result of a JavaScript division. *)
Inductive num : Type :=
| Fin (q : Q)
| PInf
| NInf
| NaN.

Definition Qltb (a b : Q) : bool := negb (Qle_bool b a).

(** [a / b] *)
Definition div (a b : Q) : num :=
  if Qeq_bool b 0 then
    if Qltb 0 a then PInf else if Qltb a 0 then NInf else NaN
  else Fin (a / b).

(** [x < c] for a finite [c]; every comparison with [NaN] is false. *)
Definition lt (x : num) (c : Q) : bool :=
  match x with
  | Fin q => Qltb q c
  | NInf => true
  | PInf | NaN => false
  end.

(** [x > c] for a finite [c]. *)
Definition gt (x : num) (c : Q) : bool :=
  match x with
  | Fin q => Qltb c q
  | PInf => true
  | NInf | NaN => false
  end.

(** [Math.round]: nearest integer, ties towards plus infinity. *)
Definition round (x : Q) : Z := Qfloor (x + (1 # 2)).

(** [Math.ceil] *)
Definition ceil (x : Q) : Z := Qceiling x.

(** [parseInt(x.toFixed(0))]: nearest integer, ties away from zero. *)
Definition toFixed0 (x : Q) : Z :=
  if Qltb x 0 then - Qfloor (- x + (1 # 2)) else Qfloor (x + (1 # 2)).

Definition max (a b : Q) : Q := if Qltb a b then b else a.

(** Truthiness of a string-valued property that may be absent. *)
Definition truthy_str (o : option string) : bool :=
  match o with
  | Some s => negb (String.eqb s "")
  | None => false
  end.

(** [_.countBy(l, key)]: how many elements carry each key. *)
Definition countBy {A} (key : A -> string) (l : list A) : gmap string nat :=
  foldl (fun m a => <[key a := S (default 0%nat (m !! key a))]> m) ∅ l.

(** [count >= bound] where [count] may be [undefined]. *)
Definition ge_undef (count : option nat) (bound : Z) : bool :=
  match count with
  | Some c => bound <=? Z.of_nat c
  | None => false
  end.

End JS.

(** ** Data model *)

(** Modelled from the spec: the table [Constants.SCRIPT_TYPES] is not among
    the sources; the spec names the script kinds: pay-to-script-hash
    multisig, pay-to-key-hash, native-segwit key-hash, native-segwit
    script-hash multisig and taproot.  Any other value of [addressType] is
    [UnknownType]. *)
Inductive AddressType : Type :=
| P2SH | P2PKH | P2WPKH | P2WSH | P2TR | UnknownType.

Module Utxo.
Record t : Type := mk {
  txid : string;
  vout : N;
  address : string;
  path : string;
  satoshis : Z;
  amount : Q;               (* the value in coin units *)
  confirmations : Z;
  locked : bool
}.
End Utxo.

Module Output.
Record t : Type := mk {
  amount : Z;
  toAddress : option string;
  script : option string;
  message : option string
}.
End Output.

Inductive ActionType : Type := Accept | Reject.

Definition ActionType_str (t : ActionType) : string :=
  match t with Accept => "accept" | Reject => "reject" end.

(** Modelled from the spec: the class [TxProposalAction] is not among the
    sources; a vote action holds a copayer id, a kind (accept or reject), an
    optional list of signatures, an optional comment and a timestamp.
    [TxProposal.addAction] also passes the voter's extended public key. *)
Module Action.
Record t : Type := mk {
  createdOn : Z;
  copayerId : string;
  type : ActionType;
  signatures : option (list string);
  xpub : option string;
  comment : option string
}.
End Action.

Inductive TxProposalStatus : Type :=
| temporary | pending | accepted | rejected | broadcasted.

Definition TxProposalStatus_eqb (a b : TxProposalStatus) : bool :=
  match a, b with
  | temporary, temporary | pending, pending | accepted, accepted
  | rejected, rejected | broadcasted, broadcasted => true
  | _, _ => false
  end.

(** The fields of a proposal that [TxProposal.create] fixes. *)
Module Header.
Record t : Type := mk {
  version : Z;
  createdOn : Z;
  id : string;
  creatorId : string;
  coin : string;
  chain : string;
  network : string;
  outputs : list Output.t;
  amount : Z;
  changeAddress : option string;      (* [changeAddress.address] *)
  escrowAddress : option string;      (* [escrowAddress.address] *)
  instantAcceptanceEscrow : option Z;
  outputOrder : list nat;
  walletM : Z;
  walletN : Z;
  requiredSignatures : Z;
  requiredRejections : Z;
  feePerKb : option Q;                (* [None]: not a number *)
  excludeUnconfirmedUtxos : bool;
  addressType : AddressType;
  signingMethod : option string;
  multiTx : bool;
  enableRBF : bool;
  replaceTxByFee : bool
}.
End Header.

(** A proposal: the header and the fields the methods assign to. *)
Module Txp.
Record t : Type := mk {
  header : Header.t;
  inputs : list Utxo.t;
  inputPaths : list string;
  fee : option Z;
  status : TxProposalStatus;
  actions : list Action.t;
  raw : option string;
  txid : option string;
  txids : option (list string);
  broadcastedOn : option Z
}.

Definition set_inputs (v : list Utxo.t) (ps : list string) (p : t) : t :=
  mk (header p) v ps (fee p) (status p) (actions p) (raw p) (txid p)
     (txids p) (broadcastedOn p).
Definition set_fee (v : option Z) (p : t) : t :=
  mk (header p) (inputs p) (inputPaths p) v (status p) (actions p) (raw p)
     (txid p) (txids p) (broadcastedOn p).
Definition set_status (v : TxProposalStatus) (p : t) : t :=
  mk (header p) (inputs p) (inputPaths p) (fee p) v (actions p) (raw p)
     (txid p) (txids p) (broadcastedOn p).
Definition set_actions (v : list Action.t) (p : t) : t :=
  mk (header p) (inputs p) (inputPaths p) (fee p) (status p) v (raw p)
     (txid p) (txids p) (broadcastedOn p).
Definition set_raw (v : option string) (p : t) : t :=
  mk (header p) (inputs p) (inputPaths p) (fee p) (status p) (actions p) v
     (txid p) (txids p) (broadcastedOn p).
Definition set_txid (v : option string) (p : t) : t :=
  mk (header p) (inputs p) (inputPaths p) (fee p) (status p) (actions p)
     (raw p) v (txids p) (broadcastedOn p).
Definition set_txids (v : option (list string)) (p : t) : t :=
  mk (header p) (inputs p) (inputPaths p) (fee p) (status p) (actions p)
     (raw p) (txid p) v (broadcastedOn p).
Definition set_broadcastedOn (v : option Z) (p : t) : t :=
  mk (header p) (inputs p) (inputPaths p) (fee p) (status p) (actions p)
     (raw p) (txid p) (txids p) v.
End Txp.

(** ** [Defaults] *)

Module Defaults.
Definition UTXO_SELECTION_MAX_SINGLE_UTXO_FACTOR : Q := 2.
Definition UTXO_SELECTION_MIN_TX_AMOUNT_VS_UTXO_FACTOR : Q := 1 # 10.
Definition UTXO_SELECTION_MAX_FEE_VS_TX_AMOUNT_FACTOR : Q := 5 # 100.
Definition UTXO_SELECTION_MAX_FEE_VS_SINGLE_UTXO_FEE_FACTOR : Q := 5.
Definition MIN_OUTPUT_AMOUNT : Z := 546.
Definition MAX_TX_SIZE_IN_KB_BTC : Q := 100.
End Defaults.

(** ** The bitcore library

    [BtcChain] receives the library as a constructor argument; the classes
    and functions it calls are gathered in one interface.  A partial
    operation returns [None] where the library throws. *)

Inductive SerializationError : Type :=
| FeeError | DustOutputs | OtherSerializationError.

Class BitcoreLib : Type := {
  Transaction : Type;
  Signature : Type;
  HDPublicKey : Type;
  PublicKey : Type;
  (** [Transaction.DUST_AMOUNT] *)
  DUST_AMOUNT : Z;
  (** [Address(address).type], for the addresses of a proposal (they were
      validated when the proposal was made) *)
  Address_type : string -> string;
  (** [new HDPublicKey(xpub)] *)
  HDPublicKey_new : string -> option HDPublicKey;
  (** [x.deriveChild(path).publicKey] *)
  deriveChild : HDPublicKey -> string -> option PublicKey;
  (** [crypto.Signature.fromString(hex)] *)
  Signature_fromString : string -> option Signature;
  (** The transaction [getBitcoreTx] assembles from a proposal before any
      signature is applied: version, [from], [to]/[addOutput], [fee],
      [escrow], [enableRBF], [change], [sortOutputs] and the state checks on
      the output order and on the totals. *)
  assemble : Txp.t -> option Transaction;
  (** [tx.inputs.length] *)
  inputs_length : Transaction -> nat;
  (** [tx.inputs[i].addSignature(tx, {inputIndex, signature, sigtype,
      publicKey}, signingMethod)] *)
  addSignature :
    Transaction -> nat -> Signature -> PublicKey -> string -> option Transaction;
  (** [tx.uncheckedSerialize()] *)
  uncheckedSerialize : Transaction -> string;
  (** [tx.id] *)
  Transaction_id : Transaction -> string;
  (** [tx.getSerializationError(opts)]; the flag is [disableDustOutputs] *)
  getSerializationError : Transaction -> bool -> option SerializationError;
  (** [tx.getFee()] *)
  getFee : Transaction -> Z
}.

(** What the embedding relies on: a transaction has one input per proposal
    input, and signing an input does not add or remove inputs. *)
Class BitcoreLibLaws (L : BitcoreLib) : Prop := {
  assemble_inputs :
    forall p t, assemble p = Some t -> inputs_length t = length (Txp.inputs p);
  addSignature_inputs :
    forall t i s pk m t',
      addSignature t i s pk m = Some t' -> inputs_length t' = inputs_length t
}.

(** ** [TxProposal] *)

Module TxProposal.

Definition toLowerCase_ascii (c : Ascii.ascii) : Ascii.ascii :=
  let n := Ascii.nat_of_ascii c in
  if andb (65 <=? n)%nat (n <=? 90)%nat then Ascii.ascii_of_nat (n + 32) else c.

Fixpoint toLowerCase (s : string) : string :=
  match s with
  | EmptyString => EmptyString
  | String c r => String (toLowerCase_ascii c) (toLowerCase r)
  end.

(** [getTotalAmount]: the sum of the output amounts. *)
Definition totalAmount (outs : list Output.t) : Z :=
  foldl (fun total o => total + Output.amount o) 0 outs.

Definition getTotalAmount (p : Txp.t) : Z :=
  totalAmount (Header.outputs (Txp.header p)).

(** [setInputs] *)
Definition setInputs (ins : list Utxo.t) (p : Txp.t) : Txp.t :=
  Txp.set_inputs ins (map Utxo.path ins) p.

Record CreateOpts : Type := mkCreateOpts {
  o_version : option Z;
  o_id : option string;
  o_creatorId : string;
  o_coin : string;
  o_chain : option string;
  o_network : string;
  o_signingMethod : option string;
  o_outputs : list Output.t;
  o_changeAddress : option string;
  o_escrowAddress : option string;
  o_instantAcceptanceEscrow : option Z;
  o_multiTx : bool;
  o_noShuffleOutputs : bool;
  o_walletM : Z;
  o_walletN : Z;
  o_feePerKb : option Q;
  o_excludeUnconfirmedUtxos : bool;
  o_addressType : option AddressType;
  o_amount : option Z;
  o_inputs : list Utxo.t;
  o_fee : option Z;
  o_enableRBF : bool;
  o_replaceTxByFee : bool
}.

Section Create.
(** [Date.now()], [Uuid.v4()] and [_.shuffle] as they answered, and the
    two tables [create] consults. *)
Variable now : Z.
Variable uuid : string.
Variable shuffle : list nat -> list nat.
Variable getChain : string -> string.
Variable NETWORKS : string -> list string.

Definition truthyZ (o : option Z) : bool :=
  match o with Some z => negb (z =? 0) | None => false end.

Definition create (opts : CreateOpts) : option Txp.t :=
  let chain :=
    match o_chain opts with
    | Some c => if String.eqb (toLowerCase c) "" then getChain (o_coin opts)
                else toLowerCase c
    | None => getChain (o_coin opts)
    end in
  if negb (existsb (String.eqb (o_network opts)) (NETWORKS chain)) then None
  else if andb (truthyZ (o_version opts))
               (negb (3 <=? default 0 (o_version opts))) then None
  else
    let version := if truthyZ (o_version opts) then default 0 (o_version opts)
                   else 3 in
    if negb (version <=? 3) then None
    else
      let outputs := o_outputs opts in
      let numOutputs :=
        (length outputs
         + (if o_multiTx opts then 0 else 1)
         + (if truthyZ (o_instantAcceptanceEscrow opts) then 1 else 0))%nat in
      let outputOrder :=
        if o_noShuffleOutputs opts then seq 0 numOutputs
        else shuffle (seq 0 numOutputs) in
      let walletM := o_walletM opts in
      let walletN := o_walletN opts in
      let addressType :=
        match o_addressType opts with
        | Some a => a
        | None => if 1 <? walletN then P2SH else P2PKH
        end in
      match addressType with
      | UnknownType => None
      | _ =>
        let amount :=
          if truthyZ (o_amount opts) then default 0 (o_amount opts)
          else totalAmount outputs in
        let h := {|
          Header.version := version;
          Header.createdOn := now `div` 1000;
          Header.id := if JS.truthy_str (o_id opts) then default uuid (o_id opts)
                     else uuid;
          Header.creatorId := o_creatorId opts;
          Header.coin := o_coin opts;
          Header.chain := chain;
          Header.network := o_network opts;
          Header.outputs := outputs;
          Header.amount := amount;
          Header.changeAddress := o_changeAddress opts;
          Header.escrowAddress := o_escrowAddress opts;
          Header.instantAcceptanceEscrow := o_instantAcceptanceEscrow opts;
          Header.outputOrder := outputOrder;
          Header.walletM := walletM;
          Header.walletN := walletN;
          Header.requiredSignatures := walletM;
          Header.requiredRejections := Z.min walletM (walletN - walletM + 1);
          Header.feePerKb := o_feePerKb opts;
          Header.excludeUnconfirmedUtxos := o_excludeUnconfirmedUtxos opts;
          Header.addressType := addressType;
          Header.signingMethod := o_signingMethod opts;
          Header.multiTx := o_multiTx opts;
          Header.enableRBF := o_enableRBF opts;
          Header.replaceTxByFee := o_replaceTxByFee opts
        |} in
        Some {|
          Txp.header := h;
          Txp.inputs := o_inputs opts;
          Txp.inputPaths := map Utxo.path (o_inputs opts);
          Txp.fee := o_fee opts;
          Txp.status := temporary;
          Txp.actions := [];
          Txp.raw := None;
          Txp.txid := None;
          Txp.txids := None;
          Txp.broadcastedOn := None
        |}
      end.
End Create.

(** [isPending] *)
Definition isPending (p : Txp.t) : bool :=
  negb (existsb (TxProposalStatus_eqb (Txp.status p))
                [temporary; broadcasted; rejected]).

(** [toObject]: a deep copy of the proposal with one more property. *)
Record TxProposalObject : Type := mkObject {
  obj_proposal : Txp.t;
  obj_isPending : bool
}.

Definition toObject (p : Txp.t) : TxProposalObject :=
  {| obj_proposal := p; obj_isPending := isPending p |}.

Definition votes (p : Txp.t) : gmap string nat :=
  JS.countBy (fun a => ActionType_str (Action.type a)) (Txp.actions p).

(** [isAccepted] *)
Definition isAccepted (p : Txp.t) : bool :=
  JS.ge_undef (votes p !! "accept") (Header.requiredSignatures (Txp.header p)).

(** [isRejected] *)
Definition isRejected (p : Txp.t) : bool :=
  JS.ge_undef (votes p !! "reject") (Header.requiredRejections (Txp.header p)).

(** [_updateStatus] *)
Definition _updateStatus (p : Txp.t) : Txp.t :=
  match Txp.status p with
  | pending =>
      if isRejected p then Txp.set_status rejected p
      else if isAccepted p then Txp.set_status accepted p
      else p
  | _ => p
  end.

(** [getCurrentSignatures] *)
Definition getCurrentSignatures (p : Txp.t)
  : list (option (list string) * option string) :=
  map (fun x => (Action.signatures x, Action.xpub x))
      (List.filter (fun a => match Action.type a with Accept => true | Reject => false end)
                   (Txp.actions p)).

(** [addAction]; [now] is the creation time [TxProposalAction.create]
    stamps on the action. *)
Definition addAction (now : Z) (copayerId : string) (type : ActionType)
    (comment : option string) (signatures : option (list string))
    (xpub : option string) (p : Txp.t) : Txp.t :=
  let action := {|
    Action.createdOn := now;
    Action.copayerId := copayerId;
    Action.type := type;
    Action.signatures := signatures;
    Action.xpub := xpub;
    Action.comment := comment
  |} in
  _updateStatus (Txp.set_actions (Txp.actions p ++ [action]) p).

(** [reject] *)
Definition reject (now : Z) (copayerId : string) (reason : option string)
    (p : Txp.t) : Txp.t :=
  addAction now copayerId Reject reason None None p.

(** [setBroadcasted]; [None] when the state check on [txid] throws.
    [now] is [Date.now()]. *)
Definition setBroadcasted (now : Z) (p : Txp.t) : option Txp.t :=
  if JS.truthy_str (Txp.txid p) then
    Some (Txp.set_broadcastedOn (Some (now `div` 1000))
            (Txp.set_status broadcasted p))
  else None.

(** [getActors] *)
Definition getActors (p : Txp.t) : list string :=
  map Action.copayerId (Txp.actions p).

(** [getApprovers] *)
Definition getApprovers (p : Txp.t) : list string :=
  map Action.copayerId
      (List.filter (fun a => match Action.type a with Accept => true | Reject => false end)
                   (Txp.actions p)).

(** [getActionBy] *)
Definition getActionBy (copayerId : string) (p : Txp.t) : option Action.t :=
  List.find (fun a => String.eqb (Action.copayerId a) copayerId) (Txp.actions p).

(** [isTemporary] and [isBroadcasted] *)
Definition isTemporary (p : Txp.t) : bool := TxProposalStatus_eqb (Txp.status p) temporary.

Definition isBroadcasted (p : Txp.t) : bool :=
  TxProposalStatus_eqb (Txp.status p) broadcasted.

(** [fromObj] for a stored object that has the properties of a proposal.
    [getChain] is [ChainService.getChain] and [actionFromObj] is
    [TxProposalAction.fromObj]; an object of a version below 3 goes to the
    legacy class, which is [None] here. *)
Definition fromObj (getChain : string -> string)
    (actionFromObj : Action.t -> Action.t) (obj : Txp.t) : option Txp.t :=
  let h := Txp.header obj in
  if negb (3 <=? Header.version h) then None
  else
    let coin := if String.eqb (Header.coin h) "" then "btc" else Header.coin h in
    let chain :=
      if String.eqb (toLowerCase (Header.chain h)) "" then getChain coin
      else toLowerCase (Header.chain h) in
    Some {|
      Txp.header := {|
        Header.version := Header.version h;
        Header.createdOn := Header.createdOn h;
        Header.id := Header.id h;
        Header.creatorId := Header.creatorId h;
        Header.coin := coin;
        Header.chain := chain;
        Header.network := Header.network h;
        Header.outputs := Header.outputs h;
        Header.amount := Header.amount h;
        Header.changeAddress := Header.changeAddress h;
        Header.escrowAddress := Header.escrowAddress h;
        Header.instantAcceptanceEscrow := Header.instantAcceptanceEscrow h;
        Header.outputOrder := Header.outputOrder h;
        Header.walletM := Header.walletM h;
        Header.walletN := Header.walletN h;
        Header.requiredSignatures := Header.requiredSignatures h;
        Header.requiredRejections := Header.requiredRejections h;
        Header.feePerKb := Header.feePerKb h;
        Header.excludeUnconfirmedUtxos := Header.excludeUnconfirmedUtxos h;
        Header.addressType := Header.addressType h;
        Header.signingMethod := Header.signingMethod h;
        Header.multiTx := Header.multiTx h;
        Header.enableRBF := Header.enableRBF h;
        Header.replaceTxByFee := Header.replaceTxByFee h
      |};
      Txp.inputs := Txp.inputs obj;
      Txp.inputPaths := Txp.inputPaths obj;
      Txp.fee := Txp.fee obj;
      Txp.status := Txp.status obj;
      Txp.actions := map actionFromObj (Txp.actions obj);
      Txp.raw := match Txp.status obj with
                 | broadcasted => Txp.raw obj
                 | _ => None
                 end;
      Txp.txid := Txp.txid obj;
      Txp.txids := Txp.txids obj;
      Txp.broadcastedOn := Txp.broadcastedOn obj
    |}.

End TxProposal.

(** ** [Errors] and callback results

    Modelled from the spec: the table [Errors] is not among the sources; the
    constructors are the errors [BtcChain] names, with the required fee the
    client error for insufficient funds carries. *)

Inductive Error : Type :=
| INSUFFICIENT_FUNDS
| LOCKED_FUNDS
| INSUFFICIENT_FUNDS_FOR_FEE (requiredFee : option Q)
| TX_MAX_SIZE_EXCEEDED
| NO_INPUT_PATHS
| DUST_AMOUNT_error
| MULTI_TX_UNSUPPORTED
| COULD_NOT_SELECT            (* [new Error('Could not select tx inputs')] *)
| BitcoreError (e : SerializationError)
| Thrown.                     (* an exception caught and handed to the callback *)

(** ** [BtcChain] *)

Module BtcChain.

(** The instance fields the constructor reads from [config.btc]. *)
Record t : Type := mk {
  sizeEstimationMargin : Q;
  inputSizeEstimationMargin : Q
}.

(** The values used when the configuration gives none. *)
Definition defaultConfig : t :=
  {| sizeEstimationMargin := 1 # 100; inputSizeEstimationMargin := 2 |}.

Record FeeOpts : Type := mkFeeOpts {
  conservativeEstimation : bool;
  fo_instantAcceptanceEscrow : option Z
}.

Definition sumSat (l : list Utxo.t) : Z := foldr Z.add 0 (map Utxo.satoshis l).

Definition truthyZ (o : option Z) : bool :=
  match o with Some z => negb (z =? 0) | None => false end.

(** A stable sort: [le a b] says that [a] may stay in front of [b].  Both
    [_.sortBy] and [Array.prototype.sort] keep the order of elements that
    compare equal. *)
Section Sort.
Context {A : Type} (le : A -> A -> bool).

Fixpoint insert (x : A) (l : list A) : list A :=
  match l with
  | [] => [x]
  | y :: ys => if le x y then x :: y :: ys else y :: insert x ys
  end.

Definition sort (l : list A) : list A := foldr insert [] l.
End Sort.

(** [_.uniqBy(l, 'address')]: the first element of each address. *)
Fixpoint uniqBy_address (seen : list string) (l : list Utxo.t) : list Utxo.t :=
  match l with
  | [] => []
  | u :: r =>
      if existsb (String.eqb (Utxo.address u)) seen then uniqBy_address seen r
      else u :: uniqBy_address (Utxo.address u :: seen) r
  end.

(** [array.indexOf(x)] *)
Fixpoint indexOf (x : string) (l : list string) : Z :=
  match l with
  | [] => -1
  | y :: r => if String.eqb y x then 0
              else let i := indexOf x r in if i <? 0 then -1 else i + 1
  end.

Section Instance.
Context {L : BitcoreLib}.
Variable this : t.

Definition getSizeSafetyMargin (conservative : bool) : Q :=
  if conservative then sizeEstimationMargin this else 0.

Definition getInputSizeSafetyMargin (conservative : bool) : Q :=
  if conservative then inputSizeEstimationMargin this else 0.

Definition getDustAmountValue : Z := DUST_AMOUNT.

Definition dustThreshold : Z := Z.max Defaults.MIN_OUTPUT_AMOUNT DUST_AMOUNT.

(** [checkDust]: the error, if any. *)
Definition checkDust (output : Output.t) : option Error :=
  if Output.amount output <? dustThreshold then Some DUST_AMOUNT_error else None.

Definition getEstimatedSizeForSingleInput (txp : Txp.t) (conservative : bool) : Q :=
  let SIGNATURE_SIZE := 72 + 1 in
  let PUBKEY_SIZE := 33 + 1 in
  let inputSafetyMargin := getInputSizeSafetyMargin conservative in
  let requiredSignatures := Header.requiredSignatures (Txp.header txp) in
  let walletN := Header.walletN (Txp.header txp) in
  match Header.addressType (Txp.header txp) with
  | P2PKH => 148 + inputSafetyMargin
  | P2WPKH => 69 + inputSafetyMargin
  | P2TR => 58 + inputSafetyMargin
  | P2WSH =>
      inject_Z (JS.ceil (32 + 4 + 1
                         + inject_Z (5 + requiredSignatures * 74 + walletN * 34) / 4
                         + 4))
      + inputSafetyMargin
  | P2SH | UnknownType =>
      inject_Z (46 + requiredSignatures * SIGNATURE_SIZE + walletN * PUBKEY_SIZE)
      + inputSafetyMargin
  end%Q.

Definition getEstimatedSizeForAddressType (addressType : string) : Z :=
  let scriptSize :=
    if String.eqb addressType "pubkeyhash" then 25
    else if String.eqb addressType "scripthash" then 23
    else if String.eqb addressType "witnesspubkeyhash" then 22
    else if String.eqb addressType "witnessscripthash" then 34
    else 34 in
  scriptSize + 8 + 1.

Definition getEstimatedSizeForSingleOutput (address : option string) : Z :=
  let addressType :=
    if JS.truthy_str address then Address_type (default "" address) else "" in
  getEstimatedSizeForAddressType addressType.

Definition getEstimatedSize (txp : Txp.t) (opts : FeeOpts) : Z :=
  let overhead := 4 + 4 + 1 + 1 in
  let inputSize := getEstimatedSizeForSingleInput txp (conservativeEstimation opts) in
  let nbInputs := Z.of_nat (length (Txp.inputs txp)) in
  let addresses :=
    map Output.toAddress (Header.outputs (Txp.header txp))
    ++ match Header.changeAddress (Txp.header txp) with
       | Some a => [Some a]
       | None => []
       end in
  let outputsSize :=
    foldl (fun acc x => acc + getEstimatedSizeForSingleOutput x) 0 addresses in
  let outputsSize :=
    if truthyZ (fo_instantAcceptanceEscrow opts)
    then outputsSize + getEstimatedSizeForAddressType "scripthash"
    else outputsSize in
  let outputsSize :=
    if outputsSize =? 0 then getEstimatedSizeForSingleOutput None else outputsSize in
  let size := (inject_Z overhead + inputSize * inject_Z nbInputs
               + inject_Z outputsSize)%Q in
  JS.ceil (size * 1 + getSizeSafetyMargin (conservativeEstimation opts))%Q.

(** The fee of a proposal that is already complete, when both totals
    are non-zero: the first block of [getEstimatedFee]. *)
Definition readyFee (txp : Txp.t) : option Z :=
  let outputs := Header.outputs (Txp.header txp) in
  if andb (negb (Nat.eqb (length (Txp.inputs txp)) 0))
       (andb (negb (bool_decide (is_Some (Header.changeAddress (Txp.header txp)))))
             (negb (Nat.eqb (length outputs) 0)))
  then
    let totalInputs := sumSat (Txp.inputs txp) in
    let totalOutputs := foldr Z.add 0 (map Output.amount outputs) in
    if andb (negb (totalInputs =? 0)) (negb (totalOutputs =? 0))
    then Some (totalInputs - totalOutputs)
    else None
  else None.

(** [getEstimatedFee]; [None] when the state check on [feePerKb] throws. *)
Definition getEstimatedFee (txp : Txp.t) (opts : FeeOpts) : option Z :=
  match Header.feePerKb (Txp.header txp) with
  | None => None
  | Some feePerKb =>
      let fee : Q :=
        match readyFee txp with
        | Some f => if f =? 0 then
                      JS.max (feePerKb * inject_Z (getEstimatedSize txp opts) / 1000)
                             (inject_Z DUST_AMOUNT)
                    else inject_Z f
        | None => JS.max (feePerKb * inject_Z (getEstimatedSize txp opts) / 1000)
                         (inject_Z DUST_AMOUNT)
        end in
      Some (JS.toFixed0 fee)
  end.

(** [addSignaturesToBitcoreTx]: the body of the [try] block for the
    signature at position [i]. *)
Definition trySignature (x : HDPublicKey) (inputPaths : list string)
    (signingMethod : string) (tx : Transaction) (i : nat)
    (signatureHex : string) : option Transaction :=
  signature ← Signature_fromString signatureHex;
  path ← inputPaths !! i;
  pub ← deriveChild x path;
  addSignature tx i signature pub signingMethod.

Definition signLoop (x : HDPublicKey) (inputPaths : list string)
    (signingMethod : string) (tx : Transaction) (signatures : list string)
  : nat * Transaction :=
  foldl (fun '(i, tx) signatureHex =>
           match trySignature x inputPaths signingMethod tx i signatureHex with
           | Some tx' => (S i, tx')
           | None => (i, tx)
           end)
        (0%nat, tx) signatures.

(** [addSignaturesToBitcoreTx]; [None] when it throws. *)
Definition addSignaturesToBitcoreTx (tx : Transaction) (inputs : list Utxo.t)
    (inputPaths : list string) (signatures : list string) (xpub : string)
    (signingMethod : option string) : option Transaction :=
  let signingMethod :=
    if JS.truthy_str signingMethod then default "" signingMethod else "ecdsa" in
  if negb (Nat.eqb (length signatures) (length inputs)) then None
  else
    x ← HDPublicKey_new xpub;
    let '(i, tx') := signLoop x inputPaths signingMethod tx signatures in
    if negb (Nat.eqb i (inputs_length tx')) then None else Some tx'.

(** [getBitcoreTx].  An accept action always carries its signatures and
    its extended public key; without them the call on [undefined]
    throws. *)
Definition getBitcoreTx (txp : Txp.t) (signed : bool) : option Transaction :=
  if Header.multiTx (Txp.header txp) then None
  else
    t ← assemble txp;
    if signed then
      foldl (fun acc x =>
               t ← acc;
               signatures ← fst x;
               xpub ← snd x;
               addSignaturesToBitcoreTx t (Txp.inputs txp) (Txp.inputPaths txp)
                 signatures xpub (Header.signingMethod (Txp.header txp)))
            (Some t) (TxProposal.getCurrentSignatures txp)
    else Some t.

(** [checkTx]: the proposal as it leaves the call and the error
    returned, if any.  What [getBitcoreTx] throws is returned as it was
    thrown: [MULTI_TX_UNSUPPORTED] for a proposal of several transactions,
    and [Thrown] for a failed state check or an exception of the library. *)
Definition checkTx (txp : Txp.t) : Txp.t * option Error :=
  let MAX_TX_SIZE_IN_KB := Defaults.MAX_TX_SIZE_IN_KB_BTC in
  if JS.Qltb MAX_TX_SIZE_IN_KB
       (inject_Z (getEstimatedSize txp (mkFeeOpts true None)) / 1000)
  then (txp, Some TX_MAX_SIZE_EXCEEDED)
  else
    let disableDustOutputs :=
      existsb (fun output =>
                 match Output.script output with
                 | Some sc => andb (negb (String.eqb sc "")) (String.prefix "6a" sc)
                 | None => false
                 end)
              (Header.outputs (Txp.header txp)) in
    if Nat.eqb (length (Txp.inputPaths txp)) 0 then (txp, Some NO_INPUT_PATHS)
    else
      match getBitcoreTx txp true with
      | None =>
          (txp, Some (if Header.multiTx (Txp.header txp)
                      then MULTI_TX_UNSUPPORTED else Thrown))
      | Some bitcoreTx =>
          match getSerializationError bitcoreTx disableDustOutputs with
          | None => (Txp.set_fee (Some (getFee bitcoreTx)) txp, None)
          | Some FeeError =>
              (txp, Some (INSUFFICIENT_FUNDS_FOR_FEE (inject_Z <$> Txp.fee txp)))
          | Some DustOutputs => (txp, Some DUST_AMOUNT_error)
          | Some e => (txp, Some (BitcoreError e))
          end
      end.

(** [totalizeUtxos] *)
Record Balance : Type := mkBalance {
  totalAmount : Z;
  lockedAmount : Z;
  totalConfirmedAmount : Z;
  lockedConfirmedAmount : Z;
  availableAmount : Z;
  availableConfirmedAmount : Z
}.

Definition confirmed (u : Utxo.t) : bool := negb (Utxo.confirmations u =? 0).

Definition totalizeUtxos (utxos : list Utxo.t) : Balance :=
  let totalAmount := sumSat utxos in
  let lockedAmount := sumSat (List.filter Utxo.locked utxos) in
  let totalConfirmedAmount := sumSat (List.filter confirmed utxos) in
  let lockedConfirmedAmount :=
    sumSat (List.filter confirmed (List.filter Utxo.locked utxos)) in
  {| totalAmount := totalAmount;
     lockedAmount := lockedAmount;
     totalConfirmedAmount := totalConfirmedAmount;
     lockedConfirmedAmount := lockedConfirmedAmount;
     availableAmount := totalAmount - lockedAmount;
     availableConfirmedAmount := totalConfirmedAmount - lockedConfirmedAmount |}.

Record SelectOpts : Type := mkSelectOpts {
  payProUrl : option string;
  instantAcceptanceEscrow : option Z;
  utxosToExclude : list string;
  so_inputs : list Utxo.t          (* [opts.inputs] *)
}.

(** The state of the loop over the small inputs in [select]. *)
Record Accum : Type := mkAccum {
  total : Z;
  netTotal : Q;
  selected : list Utxo.t;
  fullTxpAmount : Z;
  fee : option Z;                  (* [None]: not assigned yet *)
  error : option Error
}.

(** Which [return false] ended the loop. *)
Inductive Exit : Type :=
| SizeExceeded | UtxoTooSmall | FeeTooHigh | TargetReached.

(** The constants [selectTxInputs] computes before it selects, and the
    closures [sanitizeUtxos] and [select] that use them.  [feePerKb] is
    [txp.feePerKb], a number. *)
Section Select.
Variable txp : Txp.t.
Variable opts : SelectOpts.
Variable feePerKb : Q.

Definition MAX_TX_SIZE_IN_KB : Q := Defaults.MAX_TX_SIZE_IN_KB_BTC.

Definition feeOpts : FeeOpts :=
  {| conservativeEstimation := JS.truthy_str (payProUrl opts);
     fo_instantAcceptanceEscrow := instantAcceptanceEscrow opts |}.

Definition escrowAmount : Z :=
  if truthyZ (instantAcceptanceEscrow opts)
  then default 0 (instantAcceptanceEscrow opts) else 0.

Definition txpAmount : Z := TxProposal.getTotalAmount txp + escrowAmount.

Definition baseTxpSize : Z := getEstimatedSize txp feeOpts.

Definition baseTxpFee : Q := (inject_Z baseTxpSize * feePerKb / 1000)%Q.

Definition sizePerInput : Q :=
  getEstimatedSizeForSingleInput txp (conservativeEstimation feeOpts).

Definition feePerInput : Q := (sizePerInput * feePerKb / 1000)%Q.

Definition replaceTxByFee : bool := Header.replaceTxByFee (Txp.header txp).

Definition excludeUnconfirmedUtxos : bool :=
  Header.excludeUnconfirmedUtxos (Txp.header txp).

Definition utxoKey (u : Utxo.t) : string :=
  Utxo.txid u +:+ ":" +:+ pretty (Utxo.vout u).

Definition sanitizeUtxos (utxos : list Utxo.t) : list Utxo.t :=
  let excludeIndex : gmap string string :=
    foldl (fun res val => <[val := val]> res) ∅ (utxosToExclude opts) in
  List.filter
    (fun utxo =>
       if Utxo.locked utxo then false
       else if andb excludeUnconfirmedUtxos
                 (andb (negb replaceTxByFee) (negb (confirmed utxo)))
       then false
       else if JS.truthy_str (excludeIndex !! utxoKey utxo) then false
       else true)
    utxos.

Definition includes (l : list string) (x : string) : bool :=
  existsb (String.eqb x) l.

(** The body of [_.each(smallInputs, ...)]: the state after the
    iteration and, when it returned [false], the exit taken. *)
Definition step (bigInputs : list Utxo.t) (st : Accum) (input : Utxo.t)
  : Accum * option Exit :=
  let netInputAmount := (inject_Z (Utxo.satoshis input) - feePerInput)%Q in
  let selected := selected st ++ [input] in
  let total := total st + Utxo.satoshis input in
  let netTotal := (netTotal st + netInputAmount)%Q in
  let txpSize :=
    (inject_Z baseTxpSize + inject_Z (Z.of_nat (length selected)) * sizePerInput)%Q in
  let fee :=
    JS.round (baseTxpFee + inject_Z (Z.of_nat (length selected)) * feePerInput)%Q in
  let fullTxpAmount :=
    if negb (escrowAmount =? 0) then txpAmount + fee else txpAmount in
  let feeVsAmountRatio := JS.div (inject_Z fee) (inject_Z fullTxpAmount) in
  let amountVsUtxoRatio := JS.div netInputAmount (inject_Z fullTxpAmount) in
  let st' := mkAccum total netTotal selected fullTxpAmount (Some fee) (error st) in
  if JS.Qltb MAX_TX_SIZE_IN_KB (txpSize / 1000)%Q then
    (mkAccum total netTotal selected fullTxpAmount (Some fee)
             (Some TX_MAX_SIZE_EXCEEDED),
     Some SizeExceeded)
  else if andb (negb (Nat.eqb (length bigInputs) 0))
            (JS.lt amountVsUtxoRatio
               Defaults.UTXO_SELECTION_MIN_TX_AMOUNT_VS_UTXO_FACTOR)
  then (st', Some UtxoTooSmall)
  else if andb (negb (Nat.eqb (length bigInputs) 0))
            (andb (JS.gt feeVsAmountRatio
                     Defaults.UTXO_SELECTION_MAX_FEE_VS_TX_AMOUNT_FACTOR)
                  (JS.gt (JS.div (inject_Z fee) (baseTxpFee + feePerInput)%Q)
                     Defaults.UTXO_SELECTION_MAX_FEE_VS_SINGLE_UTXO_FEE_FACTOR))
  then (st', Some FeeTooHigh)
  else if Qle_bool (inject_Z fullTxpAmount) netTotal then
    let changeAmount :=
      JS.round (inject_Z total - inject_Z fullTxpAmount - inject_Z fee)%Q in
    let fee :=
      if andb (0 <? changeAmount) (changeAmount <=? dustThreshold)
      then fee + changeAmount else fee in
    (mkAccum total netTotal selected fullTxpAmount (Some fee) (error st),
     Some TargetReached)
  else (st', None).

(** [_.each] with early exit. *)
Fixpoint each (bigInputs : list Utxo.t) (st : Accum) (l : list Utxo.t)
  : Accum * option Exit :=
  match l with
  | [] => (st, None)
  | input :: rest =>
      match step bigInputs st input with
      | (st', Some e) => (st', Some e)
      | (st', None) => each bigInputs st' rest
      end
  end.

Definition requiredTxids (requiredInputs : list Utxo.t) : list string :=
  if andb (negb (Nat.eqb (length requiredInputs) 0)) replaceTxByFee
  then map Utxo.txid requiredInputs else [].

Definition bigInputThreshold : Q :=
  (inject_Z txpAmount * Defaults.UTXO_SELECTION_MAX_SINGLE_UTXO_FACTOR
   + (baseTxpFee + feePerInput))%Q.

(** The utxos [select] keeps as worth sending. *)
Definition worthSending (required : list string) (utxos : list Utxo.t)
  : list Utxo.t :=
  List.filter
    (fun utxo =>
       if includes required (Utxo.txid utxo) then true
       else if Qle_bool (inject_Z (Utxo.satoshis utxo)) feePerInput then false
       else true)
    utxos.

Definition isBig (utxo : Utxo.t) : bool :=
  JS.Qltb bigInputThreshold (inject_Z (Utxo.satoshis utxo)).

(** [_.sortBy(l, [utxo => !required, 'satoshis'])] *)
Definition bigInputs_of (required : list string) (utxos : list Utxo.t)
  : list Utxo.t :=
  sort (fun a b =>
          let ka := negb (includes required (Utxo.txid a)) in
          let kb := negb (includes required (Utxo.txid b)) in
          if Bool.eqb ka kb then Utxo.satoshis a <=? Utxo.satoshis b
          else negb ka)
       (List.filter isBig utxos).

(** [_.sortBy(l, [utxo => !required, utxo => -utxo.satoshis])] *)
Definition smallInputs_of (required : list string) (utxos : list Utxo.t)
  : list Utxo.t :=
  sort (fun a b =>
          let ka := negb (includes required (Utxo.txid a)) in
          let kb := negb (includes required (Utxo.txid b)) in
          if Bool.eqb ka kb then Utxo.satoshis b <=? Utxo.satoshis a
          else negb ka)
       (List.filter (fun u => negb (isBig u)) utxos).

Definition accum0 : Accum :=
  mkAccum 0 (- baseTxpFee)%Q [] txpAmount None None.

(** What follows the loop: the fall back to one big input. *)
Definition fallback (bigInputs : list Utxo.t) (st : Accum) : Accum :=
  if JS.Qltb (netTotal st) (inject_Z (fullTxpAmount st)) then
    match bigInputs with
    | input :: _ =>
        let total := Utxo.satoshis input in
        let fee := JS.round (baseTxpFee + feePerInput)%Q in
        mkAccum total (inject_Z total - inject_Z fee)%Q [input]
                (fullTxpAmount st) (Some fee) (error st)
    | [] =>
        mkAccum (total st) (netTotal st) [] (fullTxpAmount st) (fee st) (error st)
    end
  else st.

(** [select]: an error, or the selected inputs and the fee. *)
Definition select (utxos requiredInputs : list Utxo.t)
  : Error + (list Utxo.t * option Z) :=
  let required := requiredTxids requiredInputs in
  let totalValueInUtxos := sumSat utxos in
  if totalValueInUtxos <? txpAmount then inl INSUFFICIENT_FUNDS
  else
    let utxos := worthSending required utxos in
    let totalValueInUtxos := sumSat utxos in
    let netValueInUtxos :=
      (inject_Z totalValueInUtxos
       - (baseTxpFee - inject_Z (Z.of_nat (length utxos)) * feePerInput))%Q in
    if JS.Qltb netValueInUtxos (inject_Z txpAmount)
    then inl (INSUFFICIENT_FUNDS_FOR_FEE (Some baseTxpFee))
    else
      let bigInputs := bigInputs_of required utxos in
      let smallInputs := smallInputs_of required utxos in
      let st := fallback bigInputs (fst (each bigInputs accum0 smallInputs)) in
      match selected st with
      | [] =>
          inl (match error st with
               | Some e => e
               | None => INSUFFICIENT_FUNDS_FOR_FEE (inject_Z <$> fee st)
               end)
      | _ => inr (selected st, fee st)
      end.

(** The candidates of one confirmation group. *)
Definition candidates (isZceCompatible : bool) (utxos : list Utxo.t) (group : Z)
  : list Utxo.t :=
  let candidateUtxos :=
    List.filter (fun utxo => group <=? Utxo.confirmations utxo) utxos in
  let candidateUtxos :=
    if andb (truthyZ (instantAcceptanceEscrow opts)) isZceCompatible
    then uniqBy_address []
           (sort (fun a b => Qle_bool (Utxo.amount b - Utxo.amount a) 0)
                 candidateUtxos)
    else candidateUtxos in
  if replaceTxByFee then
    let txIdArray := map Utxo.txid (so_inputs opts) in
    sort (fun a b =>
            indexOf (Utxo.txid b) txIdArray - indexOf (Utxo.txid a) txIdArray <=? 0)
         candidateUtxos
  else candidateUtxos.

(** The variables of the [async.whilst] loop. *)
Record Ladder : Type := mkLadder {
  lad_inputs : list Utxo.t;
  lad_fee : option Z;
  selectionError : option Error;
  lastGroupLength : option nat
}.

Definition groups : list Z :=
  [6; 1] ++ (if excludeUnconfirmedUtxos then [] else [0]).

(** One turn of the loop, taken while [inputs] is empty. *)
Definition tryGroup (isZceCompatible : bool) (utxos : list Utxo.t)
    (s : Ladder) (group : Z) : Ladder :=
  match lad_inputs s with
  | _ :: _ => s
  | [] =>
      let candidateUtxos := candidates isZceCompatible utxos group in
      if bool_decide (lastGroupLength s = Some (length candidateUtxos)) then s
      else
        match select candidateUtxos (Txp.inputs txp) with
        | inl err =>
            mkLadder (lad_inputs s) (lad_fee s) (Some err)
                     (Some (length candidateUtxos))
        | inr (selectedInputs, selectedFee) =>
            mkLadder selectedInputs selectedFee None
                     (Some (length candidateUtxos))
        end
  end.

(** Everything [selectTxInputs] does with the wallet's utxos up to the
    point where it stores the inputs and the fee in the proposal. *)
Definition selection (isZceCompatible : bool) (utxos : list Utxo.t)
  : Error + (list Utxo.t * option Z) :=
  let balance := totalizeUtxos utxos in
  let '(totalAmount, availableAmount) :=
    if andb excludeUnconfirmedUtxos (negb replaceTxByFee)
    then (totalConfirmedAmount balance, availableConfirmedAmount balance)
    else (totalAmount balance, availableAmount balance) in
  if totalAmount <? TxProposal.getTotalAmount txp then inl INSUFFICIENT_FUNDS
  else if availableAmount <? TxProposal.getTotalAmount txp then inl LOCKED_FUNDS
  else
    let utxos := sanitizeUtxos utxos in
    let s := foldl (tryGroup isZceCompatible utxos)
                   (mkLadder [] None None None) groups in
    match selectionError s, lad_inputs s with
    | Some e, _ => inl e
    | None, [] => inl COULD_NOT_SELECT
    | None, inputs => inr (inputs, lad_fee s)
    end.
(** *** What the selection establishes

    The predicates below state what the loops maintain and what a
    result is worth; nothing above depends on them. *)

(** The fee [select] estimates for [n] inputs. *)
Definition feeFor (n : nat) : Z :=
  JS.round (baseTxpFee + inject_Z (Z.of_nat n) * feePerInput)%Q.

(** The amount [n] inputs must cover besides their fee. *)
Definition amountFor (n : nat) : Z :=
  if negb (escrowAmount =? 0) then txpAmount + feeFor n else txpAmount.

(** Every state of the loop over the small inputs. *)
Definition AccumInv (st : Accum) : Prop :=
  total st = sumSat (selected st)
  /\ (netTotal st ==
      inject_Z (total st) - baseTxpFee
      - inject_Z (Z.of_nat (length (selected st))) * feePerInput)%Q
  /\ (error st = None \/ error st = Some TX_MAX_SIZE_EXCEEDED)
  /\ (selected st = [] -> fullTxpAmount st = txpAmount /\ fee st = None)
  /\ (selected st <> [] ->
      let n := length (selected st) in
      fullTxpAmount st = amountFor n
      /\ exists fe, fee st = Some fe
                    /\ (fe = feeFor n
                        \/ fe = total st - fullTxpAmount st /\ feeFor n <= fe)).

(** A selection that covers the amount and its fee. *)
Definition Covers (r : list Utxo.t * option Z) : Prop :=
  fst r <> []
  /\ exists fee, snd r = Some fee /\ txpAmount + fee <= sumSat (fst r).

(** The errors that say why the funds do not suffice. *)
Definition FundsError (e : Error) : Prop :=
  e = INSUFFICIENT_FUNDS \/ e = LOCKED_FUNDS
  \/ (exists requiredFee, e = INSUFFICIENT_FUNDS_FOR_FEE requiredFee)
  \/ e = TX_MAX_SIZE_EXCEEDED.

(** Every state of the loop over the confirmation groups. *)
Definition LadderInv (s : Ladder) : Prop :=
  (lad_inputs s <> [] ->
   selectionError s = None /\ Covers (lad_inputs s, lad_fee s))
  /\ (forall e, selectionError s = Some e -> FundsError e)
  /\ (lad_inputs s = [] -> selectionError s = None -> lastGroupLength s = None).
End Select.

(** [selectTxInputs].  [fetched] is what [getUtxosForCurrentWallet]
    hands to its callback and [shuffle] is [_.shuffle] as it answered.
    The result is the proposal as the call leaves it and the error passed
    to [cb]; it is [None] when [feePerKb] is not a number: the state check
    of [getEstimatedFee] throws on the first path, and the arithmetic on
    [NaN] of the second path is outside this model. *)
Definition selectTxInputs (shuffle : list Utxo.t -> list Utxo.t)
    (fetched : Error + list Utxo.t) (txp : Txp.t) (isZceCompatible : bool)
    (opts : SelectOpts) : option (Txp.t * option Error) :=
  if andb (negb (Nat.eqb (length (Txp.inputs txp)) 0))
          (negb (Header.replaceTxByFee (Txp.header txp)))
  then
    match Txp.fee txp with
    | Some _ => Some (checkTx txp)
    | None =>
        f ← getEstimatedFee txp (mkFeeOpts true None);
        Some (checkTx (Txp.set_fee (Some f) txp))
    end
  else
    feePerKb ← Header.feePerKb (Txp.header txp);
    match fetched with
    | inl err => Some (txp, Some err)
    | inr utxos =>
        match selection txp opts feePerKb isZceCompatible utxos with
        | inl err => Some (txp, Some err)
        | inr (inputs, fee) =>
            Some (checkTx (Txp.set_fee fee (TxProposal.setInputs (shuffle inputs) txp)))
        end
    end.

(** *** The other checks and the wallet queries *)

(** [checkScriptOutput]: the error, if any.  The script of an output is a
    string here, so the test of its type always passes. *)
Inductive ScriptError : Type := SCRIPT_OP_RETURN | SCRIPT_OP_RETURN_AMOUNT.

Definition checkScriptOutput (output : Output.t) : option ScriptError :=
  if JS.truthy_str (Output.script output) then
    let script := default "" (Output.script output) in
    if negb (String.prefix "6a" script) then Some SCRIPT_OP_RETURN
    else if andb (String.prefix "6a" script) (negb (Output.amount output =? 0))
    then Some SCRIPT_OP_RETURN_AMOUNT
    else None
  else None.

(** [checkValidTxAmount] for an amount that is a number. *)
Definition checkValidTxAmount (output : Output.t) : bool :=
  if Output.amount output <=? 0 then false else true.

(** The key [checkTxUTXOs] gives a utxo. *)
Definition utxoKeyBar (u : Utxo.t) : string :=
  Utxo.txid u +:+ "|" +:+ pretty (Utxo.vout u).

(** [_.keyBy(l, key)]: the last element of each key. *)
Definition keyBy (key : Utxo.t -> string) (l : list Utxo.t) : gmap string Utxo.t :=
  foldl (fun m u => <[key u := u]> m) ∅ l.

(** What [checkTxUTXOs] hands to its callback. *)
Inductive UtxoCheck : Type :=
| UtxosAvailable
| UNAVAILABLE_UTXOS
| FetchFailed (e : Error).

(** [checkTxUTXOs]; [fetched] is what [getUtxosForCurrentWallet] answers. *)
Definition checkTxUTXOs (fetched : Error + list Utxo.t) (txp : Txp.t) : UtxoCheck :=
  if Header.replaceTxByFee (Txp.header txp) then UtxosAvailable
  else
    match fetched with
    | inl err => FetchFailed err
    | inr utxos =>
        let txpInputs := map utxoKeyBar (Txp.inputs txp) in
        let utxosIndex := keyBy utxoKeyBar utxos in
        let unavailable :=
          existsb (fun i => match utxosIndex !! i with
                            | Some utxo => Utxo.locked utxo
                            | None => true
                            end) txpInputs in
        if unavailable then UNAVAILABLE_UTXOS else UtxosAvailable
    end.

(** The wallet as [getWalletSendMaxInfo] reads it. *)
Record Wallet : Type := mkWallet {
  w_coin : string;
  w_addressType : option AddressType;
  w_network : string;
  w_m : Z;
  w_n : Z
}.

Record SendMaxOpts : Type := mkSendMaxOpts {
  sm_excludeUnconfirmedUtxos : bool;
  sm_returnInputs : bool
}.

Record SendMaxInfo : Type := mkSendMaxInfo {
  info_size : Z;
  info_amount : Z;
  info_fee : Z;
  info_feePerKb : Q;
  info_inputs : list Utxo.t;
  utxosBelowFee : nat;
  amountBelowFee : Z;
  utxosAboveMaxSize : nat;
  amountAboveMaxSize : Z
}.

(** The utxos [getWalletSendMaxInfo] considers, largest first. *)
Definition sendMaxInputs (opts : SendMaxOpts) (utxos : list Utxo.t) : list Utxo.t :=
  let inputs := List.filter (fun u => negb (Utxo.locked u)) utxos in
  let inputs :=
    if sm_excludeUnconfirmedUtxos opts then List.filter confirmed inputs else inputs in
  sort (fun a b => Utxo.satoshis b <=? Utxo.satoshis a) inputs.

(** The loop that fills the proposal up to the size limit: the inputs taken
    and the two counters, which stay zero when every input fits.  [i] is the
    index of the head of [l] in [all]. *)
Fixpoint sendMaxFill (baseTxpSize : Z) (sizePerInput : Q) (all : list Utxo.t)
    (i : nat) (l taken : list Utxo.t) : list Utxo.t * nat * Z :=
  match l with
  | [] => (taken, 0%nat, 0)
  | input :: rest =>
      let sizeInKb :=
        ((inject_Z baseTxpSize + inject_Z (Z.of_nat i + 1) * sizePerInput) / 1000)%Q in
      if JS.Qltb Defaults.MAX_TX_SIZE_IN_KB_BTC sizeInKb
      then (taken, (length all - i)%nat, sumSat (drop i all))
      else sendMaxFill baseTxpSize sizePerInput all (S i) rest (taken ++ [input])
  end.

Definition emptyInfo : SendMaxInfo :=
  mkSendMaxInfo 0 0 0 0 [] 0 0 0 0.

(** [getWalletSendMaxInfo].  [fetched] and [feeRate] are the answers of
    [getUtxosForCurrentWallet] and of [_getFeePerKb]; the next five
    arguments are those of [TxProposal.create] and [shuffleInputs] is
    [_.shuffle] as it answered.  The result is [None] when [create] throws. *)
Definition getWalletSendMaxInfo (now : Z) (uuid : string)
    (shuffle : list nat -> list nat) (getChain : string -> string)
    (NETWORKS : string -> list string)
    (shuffleInputs : list Utxo.t -> list Utxo.t)
    (fetched : Error + list Utxo.t) (feeRate : Error + Q)
    (wallet : Wallet) (opts : SendMaxOpts) : option (Error + SendMaxInfo) :=
  match fetched with
  | inl err => Some (inl err)
  | inr utxos =>
      let inputs := sendMaxInputs opts utxos in
      if Nat.eqb (length inputs) 0 then Some (inr emptyInfo)
      else
        match feeRate with
        | inl err => Some (inl err)
        | inr feePerKb =>
            txp ← TxProposal.create now uuid shuffle getChain NETWORKS
                    {| TxProposal.o_version := None;
                       TxProposal.o_id := None;
                       TxProposal.o_creatorId := "";
                       TxProposal.o_coin := w_coin wallet;
                       TxProposal.o_chain := None;
                       TxProposal.o_network := w_network wallet;
                       TxProposal.o_signingMethod := None;
                       TxProposal.o_outputs := [];
                       TxProposal.o_changeAddress := None;
                       TxProposal.o_escrowAddress := None;
                       TxProposal.o_instantAcceptanceEscrow := None;
                       TxProposal.o_multiTx := false;
                       TxProposal.o_noShuffleOutputs := false;
                       TxProposal.o_walletM := w_m wallet;
                       TxProposal.o_walletN := w_n wallet;
                       TxProposal.o_feePerKb := Some feePerKb;
                       TxProposal.o_excludeUnconfirmedUtxos := false;
                       TxProposal.o_addressType := w_addressType wallet;
                       TxProposal.o_amount := None;
                       TxProposal.o_inputs := [];
                       TxProposal.o_fee := None;
                       TxProposal.o_enableRBF := false;
                       TxProposal.o_replaceTxByFee := false |};
            let baseTxpSize := getEstimatedSize txp (mkFeeOpts true None) in
            let sizePerInput := getEstimatedSizeForSingleInput txp true in
            let feePerInput := (sizePerInput * feePerKb / 1000)%Q in
            let above :=
              List.filter (fun input => JS.Qltb feePerInput (inject_Z (Utxo.satoshis input)))
                          inputs in
            let below :=
              List.filter (fun input =>
                             negb (JS.Qltb feePerInput (inject_Z (Utxo.satoshis input))))
                          inputs in
            let '(taken, nAbove, amountAbove) :=
              sendMaxFill baseTxpSize sizePerInput above 0 above [] in
            let info :=
              mkSendMaxInfo 0 0 0 feePerKb [] (length below) (sumSat below)
                            nAbove amountAbove in
            if Nat.eqb (length taken) 0 then Some (inr info)
            else
              let txp := Txp.set_inputs taken (Txp.inputPaths txp) txp in
              fee ← getEstimatedFee txp (mkFeeOpts true None);
              let amount := sumSat taken - fee in
              if amount <? Defaults.MIN_OUTPUT_AMOUNT then Some (inr info)
              else
                Some (inr (mkSendMaxInfo
                             (getEstimatedSize txp (mkFeeOpts true None))
                             amount fee feePerKb
                             (if sm_returnInputs opts then shuffleInputs taken else [])
                             (length below) (sumSat below) nAbove amountAbove))
        end
  end.

End Instance.
End BtcChain.

(** ** [TxProposal]: votes

    [sign] goes through [ChainService] to the chain's [getBitcoreTx] and
    [addSignaturesToBitcoreTx]; the chain here is [BtcChain]. *)

Module TxProposalVote.
Section Sign.
Context {L : BitcoreLib}.

(** [sign]: the value returned and the proposal as the call leaves it.
    [now] is the time stamped on the new action. *)
Definition sign (now : Z) (copayerId : string) (signatures : list string)
    (xpub : string) (p : Txp.t) : bool * Txp.t :=
  match BtcChain.getBitcoreTx p true with
  | None => (false, p)
  | Some tx =>
      match BtcChain.addSignaturesToBitcoreTx tx (Txp.inputs p) (Txp.inputPaths p)
              signatures xpub (Header.signingMethod (Txp.header p)) with
      | None => (false, p)
      | Some tx =>
          let p := TxProposal.addAction now copayerId Accept None
                     (Some signatures) (Some xpub) p in
          match Txp.status p with
          | accepted =>
              let p := Txp.set_raw (Some (uncheckedSerialize tx)) p in
              let p := Txp.set_txid (Some (Transaction_id tx)) p in
              let p := if Header.multiTx (Txp.header p)
                       then Txp.set_txids (Some [Transaction_id tx]) p
                       else p in
              (true, p)
          | _ => (true, p)
          end
      end
  end.

(** The transactions reached from [tx] by adding signatures. *)
Inductive Reached (tx : Transaction) : Transaction -> Prop :=
| Reached_here : Reached tx tx
| Reached_add (t : Transaction) (i : nat) (s : Signature) (pub : PublicKey)
    (method : string) (t' : Transaction) :
    Reached tx t -> addSignature t i s pub method = Some t' -> Reached tx t'.

(** The library accepts the signatures of a list in turn: the signature at
    position [i] parses, the key at the path of input [i] derives, and the
    signature is accepted for input [i] of the transaction that carries the
    signatures before it. *)
Fixpoint AcceptedInTurn (x : HDPublicKey) (inputPaths : list string)
    (method : string) (tx : Transaction) (i : nat) (signatures : list string)
  : Prop :=
  match signatures with
  | [] => True
  | signatureHex :: rest =>
      exists s path pub tx',
        Signature_fromString signatureHex = Some s
        /\ inputPaths !! i = Some path
        /\ deriveChild x path = Some pub
        /\ addSignature tx i s pub method = Some tx'
        /\ AcceptedInTurn x inputPaths method tx' (S i) rest
  end.

(** The signing method [addSignaturesToBitcoreTx] uses for a proposal. *)
Definition methodOf (p : Txp.t) : string :=
  if JS.truthy_str (Header.signingMethod (Txp.header p))
  then default "" (Header.signingMethod (Txp.header p)) else "ecdsa".

(** A vote as a copayer casts it. *)
Inductive Vote : Type :=
| VoteAccept (now : Z) (copayerId : string) (signatures : list string)
             (xpub : string)
| VoteReject (now : Z) (copayerId : string) (reason : option string).

Definition vote (p : Txp.t) (v : Vote) : Txp.t :=
  match v with
  | VoteAccept now c sigs xpub => snd (sign now c sigs xpub p)
  | VoteReject now c reason => TxProposal.reject now c reason p
  end.

Definition votes (p : Txp.t) (vs : list Vote) : Txp.t := foldl vote p vs.

Definition countRejects (p : Txp.t) : nat :=
  length (List.filter (fun a => match Action.type a with
                                | Reject => true | Accept => false end)
                      (Txp.actions p)).
Definition countAccepts (p : Txp.t) : nat :=
  length (List.filter (fun a => match Action.type a with
                                | Accept => true | Reject => false end)
                      (Txp.actions p)).

(** The action [sign] records. *)
Definition acceptAction (now : Z) (copayerId : string) (signatures : list string)
    (xpub : string) : Action.t :=
  {| Action.createdOn := now;
     Action.copayerId := copayerId;
     Action.type := Accept;
     Action.signatures := Some signatures;
     Action.xpub := Some xpub;
     Action.comment := None |}.

(** What the status of a proposal says about its actions, once it was
    published without votes and only voted on since. *)
Definition Tallied (p : Txp.t) : Prop :=
  match Txp.status p with
  | pending => TxProposal.isAccepted p = false /\ TxProposal.isRejected p = false
  | accepted =>
      TxProposal.isAccepted p = true /\ Txp.txid p <> None /\ Txp.raw p <> None
  | rejected => TxProposal.isRejected p = true
  | temporary | broadcasted => False
  end.

(** What a vote leaves alone. *)
Definition SameBody (p q : Txp.t) : Prop :=
  Txp.header q = Txp.header p /\ Txp.inputs q = Txp.inputs p
  /\ Txp.inputPaths q = Txp.inputPaths p /\ Txp.fee q = Txp.fee p
  /\ Txp.broadcastedOn q = Txp.broadcastedOn p.

End Sign.
End TxProposalVote.

(** ** The client: [Utils] and [Verifier] *)

(** The classes of [crypto-wallet-core] the client calls. *)
Class WalletCore : Type := {
  (** One of the libraries in the table [Bitcore_]. *)
  Lib : Type;
  Bitcore_ : string -> option Lib;
  Key : Type;
  Addr : Type;
  (** [new bitcore.HDPublicKey(xPubKey).deriveChild(path).publicKey] *)
  derivePublicKey : Lib -> string -> string -> option Key;
  (** [bitcore.Address.createMultisig(publicKeys, m, network, nestedWitness, type)] *)
  createMultisig :
    Lib -> list Key -> Z -> string -> option bool -> option string -> option Addr;
  (** [bitcore.Address.createEscrow(inputPublicKeys, reclaimPublicKey, network)] *)
  createEscrow : Lib -> list Key -> Key -> string -> option Addr;
  (** [bitcore.Address.fromPublicKey(publicKey, network, type)] *)
  fromPublicKey : Lib -> Key -> string -> option string -> option Addr;
  (** [address.toString(true)] *)
  Addr_toString : Addr -> string;
  (** [publicKey.toString()] *)
  Key_toString : Key -> string;
  (** [Deriver.getAddress(chain, network, publicKey, scriptType).toString()] *)
  Deriver_getAddress : string -> string -> string -> AddressType -> option string;
  (** [Deriver.deriveAddress(chain, network, xPubKey, addressIndex, isChange)] *)
  Deriver_deriveAddress : string -> string -> string -> string -> bool -> option Addr;
  (** [Constants.UTXO_CHAINS] *)
  UTXO_CHAINS : list string;
  (** [PrivateKey.fromString(key).toPublicKey().toString()] *)
  toPublicKeyString : string -> option string;
  (** [new PublicKey(pubKey)] succeeds *)
  isPublicKey : string -> bool;
  (** [crypto.ECDSA.verify] on the hash of the message, with the signature
      parsed from its string; [false] when the parse throws. *)
  ecdsaVerify : string -> string -> string -> bool
}.

(** The other library functions the client calls: [sjcl], the
    cash-address class and the request key derivation. *)
Class ClientCrypto : Type := {
  (** [sjcl.decrypt(sjcl.codec.base64.toBits(key), cyphertext)] *)
  sjcl_decrypt : string -> string -> option string;
  (** [sjcl.codec.hex.fromBits(sjcl.hash.sha256.hash(str))] *)
  sha256hex : string -> string;
  (** [new BCHAddress(address).toString()] *)
  BCHAddress_toString : option string -> option string;
  (** [new HDPublicKey(xPubKey).deriveChild(Constants.PATHS.REQUEST_KEY_AUTH)
      .publicKey.toString()] *)
  requestKeyAuth : string -> option string
}.

Module Utils.
Section Utils.
Context {W : WalletCore}.

Definition isDigit (c : Ascii.ascii) : bool :=
  let n := Ascii.nat_of_ascii c in andb (48 <=? n)%nat (n <=? 57)%nat.

(** The longest run of digits at the head of [s] and what follows it. *)
Fixpoint digits (s : string) : string * string :=
  match s with
  | String c r =>
      if isDigit c then let '(d, rest) := digits r in (String c d, rest)
      else (EmptyString, s)
  | EmptyString => (EmptyString, EmptyString)
  end.

(** [Number.parseInt(s) > 0] for a run of digits. *)
Fixpoint positive (s : string) : bool :=
  match s with
  | String c r => orb (negb (Ascii.eqb c "0"%char)) (positive r)
  | EmptyString => false
  end.

(** The match of the path pattern (the letter m, a slash, digits, a slash,
    digits; either run of digits may be empty) that starts at the head of
    [s]: the two runs of digits. *)
Definition matchHere (s : string) : option (string * string) :=
  match s with
  | String "m"%char (String "/"%char r) =>
      let '(changeIndex, r1) := digits r in
      match r1 with
      | String "/"%char r2 => Some (changeIndex, fst (digits r2))
      | _ => None
      end
  | _ => None
  end.

(** [parseDerivationPath]: [addressIndex] and [isChange]; [None] when the
    path does not match and the destructuring throws. *)
Fixpoint parseDerivationPath (path : string) : option (string * bool) :=
  match matchHere path with
  | Some (changeIndex, addressIndex) => Some (addressIndex, positive changeIndex)
  | None =>
      match path with
      | String _ r => parseDerivationPath r
      | EmptyString => None
      end
  end.

Definition toUpperCase_ascii (c : Ascii.ascii) : Ascii.ascii :=
  let n := Ascii.nat_of_ascii c in
  if andb (97 <=? n)%nat (n <=? 122)%nat then Ascii.ascii_of_nat (n - 32) else c.

Fixpoint toUpperCase (s : string) : string :=
  match s with
  | EmptyString => EmptyString
  | String c r => String (toUpperCase_ascii c) (toUpperCase r)
  end.

Record RingEntry : Type := mkRingEntry {
  r_xPubKey : string;
  r_requestPubKey : string
}.

(** The object [deriveAddress] returns. *)
Record Derived : Type := mkDerived {
  d_address : string;
  d_path : string;
  d_publicKeys : list string
}.

(** [a || b] on strings that may be absent. *)
Definition or_str (a b : option string) : option string :=
  if JS.truthy_str a then a else b.

(** [Object.values(Constants.SCRIPT_TYPES).includes(scriptType)] *)
Definition isScriptType (scriptType : AddressType) : bool :=
  match scriptType with UnknownType => false | _ => true end.

(** The [switch] of [deriveAddress]: the address object and the public
    keys the result reports. *)
Definition addressFor (bitcore : Lib) (scriptType : AddressType)
    (publicKeyRing : list RingEntry) (publicKeys : list Key) (path : string)
    (m : Z) (network chain : string) (escrowInputs : option (list string))
  : option (Addr * list Key) :=
  match scriptType with
  | P2WSH =>
      a ← createMultisig bitcore publicKeys m network (Some false)
            (Some "witnessscripthash");
      Some (a, publicKeys)
  | P2SH =>
      match escrowInputs with
      | Some paths =>
          first ← publicKeyRing !! 0%nat;
          inputPublicKeys ←
            mapM (fun p => derivePublicKey bitcore (r_xPubKey first) p) paths;
          pk0 ← publicKeys !! 0%nat;
          a ← createEscrow bitcore inputPublicKeys pk0 network;
          Some (a, pk0 :: inputPublicKeys)
      | None =>
          a ← createMultisig bitcore publicKeys m network None None;
          Some (a, publicKeys)
      end
  | P2WPKH =>
      pk0 ← publicKeys !! 0%nat;
      a ← fromPublicKey bitcore pk0 network (Some "witnesspubkeyhash");
      Some (a, publicKeys)
  | P2PKH =>
      if negb (Nat.eqb (length publicKeys) 1) then None
      else if existsb (String.eqb chain) UTXO_CHAINS then
        pk0 ← publicKeys !! 0%nat;
        a ← fromPublicKey bitcore pk0 network None;
        Some (a, publicKeys)
      else
        '(addressIndex, isChange) ← parseDerivationPath path;
        first ← publicKeyRing !! 0%nat;
        a ← Deriver_deriveAddress (toUpperCase chain) network
              (r_xPubKey first) addressIndex isChange;
        Some (a, publicKeys)
  | P2TR =>
      pk0 ← publicKeys !! 0%nat;
      a ← fromPublicKey bitcore pk0 network (Some "taproot");
      Some (a, publicKeys)
  | UnknownType => None
  end.

(** [deriveAddress]; [None] when it throws.  [escrowInputs] holds the
    paths of the escrow inputs. *)
Definition deriveAddress (scriptType : AddressType)
    (publicKeyRing : list RingEntry) (path : string) (m : Z)
    (network : string) (chain : option string)
    (escrowInputs : option (list string))
    (hardwareSourcePublicKey clientDerivedPublicKey : option string)
  : option Derived :=
  if negb (isScriptType scriptType) then None
  else
    let externSourcePublicKey :=
      or_str hardwareSourcePublicKey clientDerivedPublicKey in
    if JS.truthy_str externSourcePublicKey then
      let pk := default "" externSourcePublicKey in
      c ← chain;
      a ← Deriver_getAddress (toUpperCase c) network pk scriptType;
      Some (mkDerived a path [pk])
    else
      let chain := if JS.truthy_str chain then default "" chain else "btc" in
      bitcore ← Bitcore_ chain;
      publicKeys ← mapM (fun item => derivePublicKey bitcore (r_xPubKey item) path)
                        publicKeyRing;
      r ← addressFor bitcore scriptType publicKeyRing publicKeys path m
             network chain escrowInputs;
      Some (mkDerived (Addr_toString (fst r)) path (map Key_toString (snd r))).

(** [getCopayerHash] *)
Definition getCopayerHash (name xPubKey requestPubKey : string) : string :=
  name +:+ "|" +:+ xPubKey +:+ "|" +:+ requestPubKey.

(** [verifyMessage] for a message given as one string; [None] when an
    argument check or the public key constructor throws. *)
Definition verifyMessage (message : string) (signature : option string)
    (pubKey : string) : option bool :=
  if String.eqb message "" then None
  else if String.eqb pubKey "" then None
  else if negb (JS.truthy_str signature) then Some false
  else if negb (isPublicKey pubKey) then None
  else Some (ecdsaVerify message (default "" signature) pubKey).
(** A string without the separator [getCopayerHash] joins with. *)
Fixpoint noBar (s : string) : bool :=
  match s with
  | EmptyString => true
  | String c r => andb (negb (Ascii.eqb c "|"%char)) (noBar r)
  end.

Context {C : ClientCrypto}.

(** [decryptMessage]: [Some None] is [undefined] and [None] a throw. *)
Definition decryptMessage (cyphertextJson encryptingKey : option string)
  : option (option string) :=
  if negb (JS.truthy_str cyphertextJson) then Some None
  else if negb (JS.truthy_str encryptingKey) then None
  else Some <$> sjcl_decrypt (default "" encryptingKey) (default "" cyphertextJson).

(** [getOldHash] for an amount already printed. *)
Definition getOldHash (toAddress amount : string) (message payProUrl : option string)
  : string :=
  toAddress +:+ "|" +:+ amount +:+ "|"
  +:+ (if JS.truthy_str message then default "" message else "") +:+ "|"
  +:+ (if JS.truthy_str payProUrl then default "" payProUrl else "").

(** [xPubToCopayerId] *)
Definition xPubToCopayerId (_chain xpub : string) : string :=
  let chain := TxProposal.toLowerCase _chain in
  let str := if String.eqb chain "btc" then xpub else chain +:+ xpub in
  sha256hex str.

(** [verifyRequestPubKey] *)
Definition verifyRequestPubKey (requestPubKey : string) (signature : option string)
    (xPubKey : string) : option bool :=
  pub ← requestKeyAuth xPubKey;
  verifyMessage requestPubKey signature pub.

(** [isNativeSegwit] *)
Definition isNativeSegwit (addressType : AddressType) : bool :=
  match addressType with
  | P2WPKH | P2WSH | P2TR => true
  | _ => false
  end.

(** [getSegwitVersion]; [None] is [undefined]. *)
Definition getSegwitVersion (addressType : AddressType) : option Z :=
  match addressType with
  | P2WPKH | P2WSH => Some 0
  | P2TR => Some 1
  | _ => None
  end.

End Utils.
End Utils.

Module Verifier.
Section Verifier.
Context {W : WalletCore}.

(** Modelled from the spec: the class [Credentials] is not among the
    sources; these are the properties the checks read: the wallet's network,
    chain, script type, ordered public key ring, [m] and [n], the copayer's
    own extended public key and the wallet's shared private key.
    [isComplete] is the answer of [credentials.isComplete()]. *)
Record Credentials : Type := mkCredentials {
  isComplete : bool;
  network : string;
  chain : option string;
  addressType : AddressType;
  publicKeyRing : list Utils.RingEntry;
  m : Z;
  n : Z;
  xPubKey : option string;
  walletPrivKey : option string;
  hardwareSourcePublicKey : option string;
  clientDerivedPublicKey : option string
}.

(** An address as the server reports it. *)
Record AddressReport : Type := mkAddressReport {
  a_type : option AddressType;
  a_address : string;
  a_path : string;
  a_publicKeys : list string
}.

(** [_.difference(a, b)] *)
Definition difference (a b : list string) : list string :=
  List.filter (fun x => negb (existsb (String.eqb x) b)) a.

(** The network [checkAddress] derives on; [useRegtest] is the static
    flag [_useRegtest]. *)
Definition networkFor (useRegtest : bool) (credentials : Credentials) : string :=
  if andb (String.eqb (network credentials) "testnet") useRegtest
  then "regtest" else network credentials.

(** [checkAddress]; [None] is a throw. *)
Definition checkAddress (useRegtest : bool) (credentials : Credentials)
    (address : AddressReport) (escrowInputs : option (list string))
  : option bool :=
  if negb (isComplete credentials) then None
  else
    let network := networkFor useRegtest credentials in
    let scriptType :=
      match a_type address with
      | Some t => t
      | None => addressType credentials
      end in
    local ← Utils.deriveAddress scriptType (publicKeyRing credentials)
              (a_path address) (m credentials) network (chain credentials)
              escrowInputs (hardwareSourcePublicKey credentials)
              (clientDerivedPublicKey credentials);
    Some (andb (String.eqb (Utils.d_address local) (a_address address))
               (Nat.eqb (length (difference (Utils.d_publicKeys local)
                                            (a_publicKeys address))) 0)).

(** A copayer as the server reports it. *)
Record Copayer : Type := mkCopayer {
  c_name : option string;
  c_encryptedName : option string;
  c_xPubKey : option string;
  c_requestPubKey : option string;
  c_signature : option string
}.

(** What a call returns: [true], [false], or nothing ([return;]). *)
Inductive Answer : Type := AnsTrue | AnsFalse | AnsUndefined.

(** A JavaScript number as [uniq] stores it: an integer or [NaN]. *)
Abbreviation Counter := (option Z).

(** [ToNumber] of a property of [uniq] that may be absent. *)
Definition toNumber (v : option Counter) : Counter :=
  match v with
  | Some c => c
  | None => None          (* ToNumber(undefined) is NaN *)
  end.

(** [uniq[key]++]: the old value, as a number, and the updated object. *)
Definition postIncrement (uniq : gmap string Counter) (key : string)
  : Counter * gmap string Counter :=
  let old := toNumber (uniq !! key) in
  (old, <[key := Z.succ <$> old]> uniq).

Definition truthyCounter (c : Counter) : bool :=
  match c with
  | Some z => negb (z =? 0)
  | None => false
  end.

(** The property [xPubKey] of the array [copayers] itself: an array
    parsed from the server's answer has indices and a length only. *)
Definition array_xPubKey (copayers : list Copayer) : option string := None.

(** The property key a value is converted to. *)
Definition toPropertyKey (v : option string) : string :=
  match v with
  | Some s => s
  | None => "undefined"
  end.

(** The state of the [for ... of] loop of [checkCopayers]. *)
Record Scan : Type := mkScan {
  uniq : gmap string Counter;
  error : bool;
  returned : bool          (* the loop left the function with [return;] *)
}.

(** One iteration; [None] when [verifyMessage] throws. *)
Definition scanCopayer (copayers : list Copayer) (walletPubKey : string)
    (s : Scan) (copayer : Copayer) : option Scan :=
  if returned s then Some s
  else if error s then Some (mkScan (uniq s) (error s) true)
  else
    let '(old, uniq') := postIncrement (uniq s) (toPropertyKey (array_xPubKey copayers)) in
    let error := if truthyCounter old then true else error s in
    let name := Utils.or_str (c_encryptedName copayer) (c_name copayer) in
    if orb (negb (JS.truthy_str name))
         (orb (negb (JS.truthy_str (c_xPubKey copayer)))
              (orb (negb (JS.truthy_str (c_requestPubKey copayer)))
                   (negb (JS.truthy_str (c_signature copayer)))))
    then Some (mkScan uniq' true false)
    else
      let hash := Utils.getCopayerHash (default "" name)
                    (default "" (c_xPubKey copayer))
                    (default "" (c_requestPubKey copayer)) in
      ok ← Utils.verifyMessage hash (c_signature copayer) walletPubKey;
      Some (mkScan uniq' (if (ok : bool) then error else true) false).

(** [checkCopayers]; [None] is a throw. *)
Definition checkCopayers (credentials : Credentials) (copayers : list Copayer)
  : option Answer :=
  if negb (JS.truthy_str (walletPrivKey credentials)) then None
  else
    walletPubKey ← toPublicKeyString (default "" (walletPrivKey credentials));
    if negb (Z.of_nat (length copayers) =? n credentials) then Some AnsFalse
    else
      s ← foldl (fun acc copayer => s ← acc; scanCopayer copayers walletPubKey s copayer)
                (Some (mkScan ∅ false false)) copayers;
      if returned s then Some AnsUndefined
      else if error s then Some AnsFalse
      else if negb (existsb (fun c => bool_decide (c_xPubKey c = xPubKey credentials))
                            copayers)
      then Some AnsFalse
      else Some AnsTrue.
(** A copayer entry with all its fields whose signature by the wallet key
    verifies: what the loop of [checkCopayers] asks of each entry. *)
Definition signedBy (walletPubKey : string) (copayer : Copayer) : Prop :=
  let name := Utils.or_str (c_encryptedName copayer) (c_name copayer) in
  JS.truthy_str name = true
  /\ JS.truthy_str (c_xPubKey copayer) = true
  /\ JS.truthy_str (c_requestPubKey copayer) = true
  /\ JS.truthy_str (c_signature copayer) = true
  /\ Utils.verifyMessage
       (Utils.getCopayerHash (default "" name) (default "" (c_xPubKey copayer))
          (default "" (c_requestPubKey copayer)))
       (c_signature copayer) walletPubKey = Some true.

Context {C : ClientCrypto}.

(** An output of a proposal as the client holds it. *)
Record POutput : Type := mkPOutput {
  po_toAddress : option string;
  po_script : option string;
  po_amount : Z;
  po_message : option string
}.

(** The properties of a proposal the checks read.  [p_inputPaths] holds the
    paths of [txp.inputs]. *)
Record Proposal : Type := mkProposal {
  p_version : option Z;
  p_creatorId : option string;
  p_chain : option string;
  p_coin : option string;
  p_outputs : list POutput;
  p_toAddress : option string;
  p_amount : Z;
  p_changeAddress : option AddressReport;
  p_escrowAddress : option AddressReport;
  p_inputPaths : list string;
  p_feePerKb : option Q;
  p_payProUrl : option string;
  p_message : option string;
  p_customData : option string;
  p_proposalSignature : option string;
  p_proposalSignaturePubKey : option string;
  p_proposalSignaturePubKeySig : option string;
  p_prePublishRaw : option string
}.

(** The arguments a proposal was asked with. *)
Record CreationArgs : Type := mkCreationArgs {
  ca_outputs : list POutput;
  ca_changeAddress : option string;
  ca_feePerKb : option Q;
  ca_payProUrl : option string;
  ca_message : option string;
  ca_customData : option string
}.

(** [strEqual] of [checkProposalCreation] *)
Definition strEqual (str1 str2 : option string) : bool :=
  orb (andb (negb (JS.truthy_str str1)) (negb (JS.truthy_str str2)))
      (bool_decide (str1 = str2)).

(** The body of the loop over the outputs, for the output of the proposal
    and the output asked at the same index. *)
Definition outputMatches (encryptingKey : option string) (o1 o2 : POutput) : bool :=
  if negb (strEqual (po_toAddress o1) (po_toAddress o2)) then false
  else if negb (strEqual (po_script o1) (po_script o2)) then false
  else if negb (po_amount o1 =? po_amount o2) then false
  else
    match Utils.decryptMessage (po_message o2) encryptingKey with
    | None => false
    | Some decryptedMessage => strEqual (po_message o1) decryptedMessage
    end.

Fixpoint outputsMatch (encryptingKey : option string) (l1 l2 : list POutput) : bool :=
  match l1, l2 with
  | o1 :: r1, o2 :: r2 =>
      if outputMatches encryptingKey o1 o2 then outputsMatch encryptingKey r1 r2
      else false
  | _, _ => true
  end.

(** [checkProposalCreation] *)
Definition checkProposalCreation (args : CreationArgs) (txp : Proposal)
    (encryptingKey : option string) : bool :=
  if negb (Nat.eqb (length (p_outputs txp)) (length (ca_outputs args))) then false
  else if negb (outputsMatch encryptingKey (p_outputs txp) (ca_outputs args)) then false
  else
    let changeAddress := a_address <$> p_changeAddress txp in
    if andb (JS.truthy_str (ca_changeAddress args))
            (negb (strEqual changeAddress (ca_changeAddress args))) then false
    else if match ca_feePerKb args with
            | Some asked => match p_feePerKb txp with
                            | Some got => negb (Qeq_bool got asked)
                            | None => true
                            end
            | None => false
            end then false
    else if negb (strEqual (p_payProUrl txp) (ca_payProUrl args)) then false
    else
      match Utils.decryptMessage (ca_message args) encryptingKey with
      | None => false
      | Some decryptedMessage =>
          if negb (strEqual (p_message txp) decryptedMessage) then false
          else if andb (orb (JS.truthy_str (ca_customData args))
                            (JS.truthy_str (p_customData txp)))
                       (negb (bool_decide (p_customData txp = ca_customData args)))
          then false
          else true
      end.

(** A payment instruction of an invoice. *)
Record Instruction : Type := mkInstruction {
  i_toAddress : option string;
  i_amount : Z
}.

(** [checkPaypro]; [instructions] is [payproOpts.instructions] and [None] as
    a result is a throw. *)
Definition checkPaypro (txp : Proposal) (instructions : option (list Instruction))
  : option bool :=
  toAddress ←
    (if 3 <=? default 0 (p_version txp)
     then po_toAddress <$> (p_outputs txp !! 0%nat)
     else Some (p_toAddress txp));
  let amount := p_amount txp in
  if negb (amount =? foldl (fun sum i => sum + i_amount i) 0 (default [] instructions))
  then Some false
  else
    first ← (if bool_decide (p_coin txp = Some "btc")
             then match instructions ≫= (fun l => l !! 0%nat) with
                  | Some i => Some (Some i)
                  | None => None
                  end
             else Some None);
    if match first with
       | Some i => negb (bool_decide (toAddress = i_toAddress i))
       | None => false
       end then Some false
    else if bool_decide (p_coin txp = Some "bch") then
      i ← instructions ≫= (fun l => l !! 0%nat);
      a ← BCHAddress_toString toAddress;
      b ← BCHAddress_toString (i_toAddress i);
      if negb (String.eqb a b) then Some false else Some true
    else Some true.

(** [Utils.getChain] and the serialization of [Utils.buildTx(txp)], joined
    with commas when the chain gives several transactions; [None] when
    [buildTx] throws. *)
Variable getChain : option string -> string.
Variable buildTxHash : Proposal -> option string.

(** [checkTxProposalSignature]; [None] is a throw. *)
Definition checkTxProposalSignature (useRegtest : bool) (credentials : Credentials)
    (txp : Proposal) : option bool :=
  if negb (JS.truthy_str (p_creatorId txp)) then None
  else if negb (isComplete credentials) then None
  else
    let chain :=
      if JS.truthy_str (TxProposal.toLowerCase <$> p_chain txp)
      then TxProposal.toLowerCase (default "" (p_chain txp))
      else getChain (p_coin txp) in
    match List.find (fun item =>
                       bool_decide (Some (Utils.xPubToCopayerId chain (Utils.r_xPubKey item))
                                    = p_creatorId txp))
                    (publicKeyRing credentials) with
    | None => Some false
    | Some creatorKeys =>
        delegated ←
          (if JS.truthy_str (p_proposalSignaturePubKey txp) then
             Utils.verifyRequestPubKey (default "" (p_proposalSignaturePubKey txp))
               (p_proposalSignaturePubKeySig txp) (Utils.r_xPubKey creatorKeys)
           else Some true);
        if negb delegated then Some false
        else
          let creatorSigningPubKey :=
            if JS.truthy_str (p_proposalSignaturePubKey txp)
            then default "" (p_proposalSignaturePubKey txp)
            else Utils.r_requestPubKey creatorKeys in
          if String.eqb creatorSigningPubKey "" then Some false
          else if negb (3 <=? default 0 (p_version txp)) then None
          else
            hash ← buildTxHash txp;
            verified ← Utils.verifyMessage hash (p_proposalSignature txp)
                         creatorSigningPubKey;
            if andb (negb verified) (negb (JS.truthy_str (p_prePublishRaw txp)))
            then Some false
            else
              fallback ←
                (if andb (negb verified) (JS.truthy_str (p_prePublishRaw txp))
                 then Utils.verifyMessage (default "" (p_prePublishRaw txp))
                        (p_proposalSignature txp) creatorSigningPubKey
                 else Some true);
              if negb fallback then Some false
              else if existsb (String.eqb chain) UTXO_CHAINS then
                report ← p_changeAddress txp;
                change ← checkAddress useRegtest credentials report None;
                if negb change then Some false
                else
                  match p_escrowAddress txp with
                  | Some escrow =>
                      ok ← checkAddress useRegtest credentials escrow
                             (Some (p_inputPaths txp));
                      if negb ok then Some false else Some true
                  | None => Some true
                  end
              else Some true
    end.

(** [checkTxProposal]; [paypro] is [opts.paypro], an invoice with its
    instructions. *)
Definition checkTxProposal (useRegtest : bool) (credentials : Credentials)
    (txp : Proposal) (paypro : option (option (list Instruction))) : option bool :=
  signed ← checkTxProposalSignature useRegtest credentials txp;
  if negb signed then Some false
  else
    match paypro with
    | Some instructions =>
        ok ← checkPaypro txp instructions;
        if negb ok then Some false else Some true
    | None => Some true
    end.

End Verifier.
End Verifier.

(** ** A concrete library

    A small instance of the two library interfaces, on which the definitions
    run: keys and addresses are strings and a signature is valid for a key
    when it is the string [sig:] followed by the key.  Modelled from the spec:
    the dust amount of the library is the 546 satoshis of Scenario D. *)

Module Fixture.

(** A transaction of the example library: the signatures each input
    carries, the fee, what the inputs hold above the outputs (the change
    output included), whether an output is below the dust amount, and the
    digest a signature of the transaction signs. *)
Record Tx : Type := mkTx {
  tx_signatures : list (list string);
  tx_fee : Z;
  tx_unspent : Z;
  tx_dust : bool;
  tx_digest : string
}.

Definition addressKind (a : string) : string :=
  if String.prefix "bc1q" a then "witnesspubkeyhash"
  else if String.prefix "3" a then "scripthash"
  else "pubkeyhash".

Definition nonEmpty (s : string) : option string :=
  if String.eqb s "" then None else Some s.

(** What is signed: the total of the inputs, the total of the outputs and
    the fee. *)
Definition digest (p : Txp.t) : string :=
  "tx(" +:+ pretty (BtcChain.sumSat (Txp.inputs p)) +:+ ">"
  +:+ pretty (TxProposal.getTotalAmount p) +:+ "+"
  +:+ pretty (default 0 (Txp.fee p)) +:+ ")".

(** The unsigned transaction of a proposal.  As in bitcore, a proposal
    without a fee does not build, and what is left after the outputs and the
    fee goes to the change address when it is at least the dust amount. *)
Definition build (p : Txp.t) : option Tx :=
  match Txp.inputs p, Txp.fee p with
  | [], _ | _, None => None
  | ins, Some fee =>
      let totalIn := BtcChain.sumSat ins in
      let totalOut := TxProposal.getTotalAmount p in
      let rest := totalIn - totalOut - fee in
      let change :=
        if andb (bool_decide (is_Some (Header.changeAddress (Txp.header p))))
                (546 <=? rest)
        then rest else 0 in
      if andb (0 <? totalOut) (totalOut + change <=? totalIn) then
        Some (mkTx (map (fun _ => []) ins) fee (totalIn - totalOut - change)
                (existsb (fun o => Output.amount o <? 546)
                         (Header.outputs (Txp.header p)))
                (digest p))
      else None
  end.

(** A signature is valid for an input when it is the signature of the key
    on the digest of the transaction. *)
Definition lib : BitcoreLib := {|
  Transaction := Tx;
  Signature := string;
  HDPublicKey := string;
  PublicKey := string;
  DUST_AMOUNT := 546;
  Address_type := addressKind;
  HDPublicKey_new := nonEmpty;
  deriveChild := fun x path => Some (x +:+ "/" +:+ path);
  Signature_fromString := nonEmpty;
  assemble := build;
  inputs_length := fun t => length (tx_signatures t);
  addSignature := fun t i s pk _ =>
    match tx_signatures t !! i with
    | Some sigs =>
        if String.eqb s ("sig:" +:+ pk +:+ "@" +:+ tx_digest t)
        then Some (mkTx (<[i := s :: sigs]> (tx_signatures t)) (tx_fee t)
                     (tx_unspent t) (tx_dust t) (tx_digest t))
        else None
    | None => None
    end;
  uncheckedSerialize := fun t =>
    String.concat "," (map (String.concat "+") (tx_signatures t));
  Transaction_id := fun t => "txid-" +:+ pretty (length (tx_signatures t));
  getSerializationError := fun t disableDustOutputs =>
    if tx_unspent t <? 0 then Some OtherSerializationError
    else if negb (tx_fee t =? tx_unspent t) then Some FeeError
    else if andb (negb disableDustOutputs) (tx_dust t) then Some DustOutputs
    else None;
  getFee := tx_fee
|}.

Lemma lib_laws : BitcoreLibLaws lib.
Proof.
  split.
  - intros p t. cbn. unfold build.
    destruct (Txp.inputs p) as [|u ins] eqn:E; [discriminate|].
    destruct (Txp.fee p) as [fee|]; [|discriminate].
    cbv zeta. destruct (andb _ _); [|discriminate].
    intros [= <-]. cbn. now rewrite length_map.
  - intros t i s pk m t'. cbn.
    destruct (tx_signatures t !! i) as [sigs|]; [|discriminate].
    destruct (String.eqb s _); [|discriminate].
    intros [= <-]. cbn. apply length_insert.
Qed.

Definition core : WalletCore := {|
  Lib := unit;
  Bitcore_ := fun chain =>
    if existsb (String.eqb chain) ["btc"; "bch"; "eth"; "doge"; "ltc"]
    then Some tt else None;
  Key := string;
  Addr := string;
  derivePublicKey := fun _ x path => Some (x +:+ "/" +:+ path);
  createMultisig := fun _ pks m network _ type =>
    Some ("multisig(" +:+ String.concat "," pks +:+ ";" +:+ pretty m +:+ ";"
          +:+ network +:+ ";" +:+ default "scripthash" type +:+ ")");
  createEscrow := fun _ pks pk network =>
    Some ("escrow(" +:+ String.concat "," pks +:+ ";" +:+ pk +:+ ";" +:+ network +:+ ")");
  fromPublicKey := fun _ pk network type =>
    Some ("addr(" +:+ pk +:+ ";" +:+ network +:+ ";"
          +:+ default "pubkeyhash" type +:+ ")");
  Addr_toString := fun a => a;
  Key_toString := fun k => k;
  Deriver_getAddress := fun chain network pk _ =>
    Some ("addr(" +:+ pk +:+ ";" +:+ network +:+ ";" +:+ chain +:+ ")");
  Deriver_deriveAddress := fun chain network x index isChange =>
    Some ("addr(" +:+ x +:+ "/" +:+ (if isChange then "1" else "0") +:+ "/"
          +:+ index +:+ ";" +:+ network +:+ ";" +:+ chain +:+ ")");
  UTXO_CHAINS := ["btc"; "bch"; "doge"; "ltc"];
  toPublicKeyString := fun priv => Some ("pub:" +:+ priv);
  isPublicKey := fun s => negb (String.eqb s "");
  ecdsaVerify := fun message signature pubKey =>
    String.eqb signature ("signed(" +:+ message +:+ ")by(" +:+ pubKey +:+ ")")
|}.

(** A confirmed, unlocked utxo of [v] satoshis. *)
Definition utxo (txid : string) (v : Z) : Utxo.t :=
  {| Utxo.txid := txid; Utxo.vout := 0; Utxo.address := "1" +:+ txid;
     Utxo.path := "m/0/0"; Utxo.satoshis := v;
     Utxo.amount := inject_Z v / 100000000;
     Utxo.confirmations := 10; Utxo.locked := false |}.

Definition payTo (address : string) (v : Z) : Output.t :=
  {| Output.amount := v; Output.toAddress := Some address;
     Output.script := None; Output.message := None |}.

(** A pending proposal of an [m]-of-[n] wallet with a change address. *)
Definition proposal (addressType : AddressType) (m n : Z)
    (outputs : list Output.t) (feePerKb : Q) (rbf : bool)
    (inputs : list Utxo.t) : Txp.t :=
  {| Txp.header := {|
       Header.version := 3;
       Header.createdOn := 0;
       Header.id := "txp";
       Header.creatorId := "copayer1";
       Header.coin := "btc";
       Header.chain := "btc";
       Header.network := "livenet";
       Header.outputs := outputs;
       Header.amount := TxProposal.totalAmount outputs;
       Header.changeAddress := Some "1change";
       Header.escrowAddress := None;
       Header.instantAcceptanceEscrow := None;
       Header.outputOrder := seq 0 (S (length outputs));
       Header.walletM := m;
       Header.walletN := n;
       Header.requiredSignatures := m;
       Header.requiredRejections := Z.min m (n - m + 1);
       Header.feePerKb := Some feePerKb;
       Header.excludeUnconfirmedUtxos := false;
       Header.addressType := addressType;
       Header.signingMethod := None;
       Header.multiTx := false;
       Header.enableRBF := rbf;
       Header.replaceTxByFee := rbf |};
     Txp.inputs := inputs;
     Txp.inputPaths := map Utxo.path inputs;
     Txp.fee := None;
     Txp.status := pending;
     Txp.actions := [];
     Txp.raw := None;
     Txp.txid := None;
     Txp.txids := None;
     Txp.broadcastedOn := None |}.

Definition noOpts : BtcChain.SelectOpts :=
  {| BtcChain.payProUrl := None; BtcChain.instantAcceptanceEscrow := None;
     BtcChain.utxosToExclude := []; BtcChain.so_inputs := [] |}.

(** An accepted proposal with its transaction id, and the same proposal
    after it was marked as broadcast at 1700000000 seconds. *)
Definition acceptedProposal : Txp.t :=
  Txp.set_txid (Some "9f2c")
    (Txp.set_status accepted
       (proposal P2PKH 1 1 [payTo "1dest" 10000] 1000 false [utxo "a" 20000])).

Definition broadcastedProposal : Txp.t :=
  Txp.set_broadcastedOn (Some 1700000000)
    (Txp.set_status broadcasted acceptedProposal).

(** A proposal of a 2-of-3 wallet that spends three inputs, with a fee of
    1000 satoshis. *)
Definition threeInputs : Txp.t :=
  Txp.set_fee (Some 1000)
    (proposal P2SH 2 3 [payTo "3dest" 40000] 1000 false
       [utxo "a" 20000; utxo "b" 20000; utxo "c" 20000]).

(** The signature of the copayer with key [xpub] for an input at [m/0/0] of
    the transaction of a proposal, and the one for [threeInputs]. *)
Definition signatureFor (xpub : string) (p : Txp.t) : string :=
  "sig:" +:+ xpub +:+ "/m/0/0@" +:+ digest p.

Definition signatureOf (xpub : string) : string := signatureFor xpub threeInputs.

(** A second proposal of the same wallet, which pays 30000 satoshis. *)
Definition otherPayment : Txp.t :=
  Txp.set_fee (Some 1000)
    (proposal P2SH 2 3 [payTo "3dest" 30000] 1000 false
       [utxo "a" 20000; utxo "b" 20000; utxo "c" 20000]).

(** The options [threeInputs] is created from. *)
Definition paymentOpts : TxProposal.CreateOpts :=
  {| TxProposal.o_version := None;
     TxProposal.o_id := None;
     TxProposal.o_creatorId := "copayer1";
     TxProposal.o_coin := "btc";
     TxProposal.o_chain := None;
     TxProposal.o_network := "livenet";
     TxProposal.o_signingMethod := None;
     TxProposal.o_outputs := [payTo "3dest" 40000];
     TxProposal.o_changeAddress := Some "1change";
     TxProposal.o_escrowAddress := None;
     TxProposal.o_instantAcceptanceEscrow := None;
     TxProposal.o_multiTx := false;
     TxProposal.o_noShuffleOutputs := true;
     TxProposal.o_walletM := 2;
     TxProposal.o_walletN := 3;
     TxProposal.o_feePerKb := Some 1000%Q;
     TxProposal.o_excludeUnconfirmedUtxos := false;
     TxProposal.o_addressType := Some P2SH;
     TxProposal.o_amount := None;
     TxProposal.o_inputs := [utxo "a" 20000; utxo "b" 20000; utxo "c" 20000];
     TxProposal.o_fee := Some 1000;
     TxProposal.o_enableRBF := false;
     TxProposal.o_replaceTxByFee := false |}.

(** A payment of 10000 satoshis from a wallet that holds 50000, 9900 and
    700 satoshis, at 1000 satoshis per kilobyte. *)
Definition dustProposal : Txp.t :=
  proposal P2PKH 1 1 [payTo "1dest" 10000] 1000 false [].

Definition dustUtxos : list Utxo.t :=
  [utxo "a" 50000; utxo "b" 9900; utxo "c" 700].

(** The replacement of a transaction that spent the utxo [a], in a wallet
    that also holds the utxo [b]. *)
Definition rbfProposal : Txp.t :=
  proposal P2PKH 1 1 [payTo "1dest" 10000] 1000 true [utxo "a" 100000].

Definition rbfOpts : BtcChain.SelectOpts :=
  {| BtcChain.payProUrl := None; BtcChain.instantAcceptanceEscrow := None;
     BtcChain.utxosToExclude := []; BtcChain.so_inputs := [utxo "a" 100000] |}.

Definition rbfUtxos : list Utxo.t := [utxo "a" 100000; utxo "b" 12000].

Definition lockedUtxo : Utxo.t :=
  {| Utxo.txid := "a"; Utxo.vout := 0; Utxo.address := "1a";
     Utxo.path := "m/0/0"; Utxo.satoshis := 100000;
     Utxo.amount := 1 # 1000; Utxo.confirmations := 0; Utxo.locked := true |}.

(** A proposal with no inputs yet, at 10001 satoshis per kilobyte. *)
Definition feeProposal : Txp.t :=
  proposal P2PKH 1 1 [payTo "1dest" 10000] 10001 false [].

(** The payment of Scenario A: 4000 satoshis from a 2-of-3 wallet. *)
Definition scenarioA : Txp.t :=
  proposal P2SH 2 3 [payTo "3dest" 4000] 1000 false [].

Definition scenarioA_utxos : list Utxo.t :=
  [utxo "a" 5000; utxo "b" 3000; utxo "c" 1000].

(** The credentials of the copayer with key [xpubA] in a 2-of-2 wallet. *)
Definition credentials : @Verifier.Credentials :=
  {| Verifier.isComplete := true;
     Verifier.network := "testnet";
     Verifier.chain := Some "btc";
     Verifier.addressType := P2SH;
     Verifier.publicKeyRing :=
       [Utils.mkRingEntry "xpubA" "reqA"; Utils.mkRingEntry "xpubB" "reqB"];
     Verifier.m := 2;
     Verifier.n := 2;
     Verifier.xPubKey := Some "xpubA";
     Verifier.walletPrivKey := Some "wpriv";
     Verifier.hardwareSourcePublicKey := None;
     Verifier.clientDerivedPublicKey := None |}.

(** The copayer with key [xpubA], signed with the wallet key. *)
Definition alice : Verifier.Copayer :=
  {| Verifier.c_name := Some "alice";
     Verifier.c_encryptedName := None;
     Verifier.c_xPubKey := Some "xpubA";
     Verifier.c_requestPubKey := Some "reqA";
     Verifier.c_signature := Some "signed(alice|xpubA|reqA)by(pub:wpriv)" |}.

(** An entry without a signature. *)
Definition unsigned : Verifier.Copayer :=
  {| Verifier.c_name := Some "bob";
     Verifier.c_encryptedName := None;
     Verifier.c_xPubKey := Some "xpubB";
     Verifier.c_requestPubKey := Some "reqB";
     Verifier.c_signature := None |}.

(** The options of a payment of 10000 satoshis from a 2-of-3 wallet. *)
Definition createOpts : TxProposal.CreateOpts :=
  {| TxProposal.o_version := None;
     TxProposal.o_id := None;
     TxProposal.o_creatorId := "copayer1";
     TxProposal.o_coin := "btc";
     TxProposal.o_chain := Some "BTC";
     TxProposal.o_network := "livenet";
     TxProposal.o_signingMethod := None;
     TxProposal.o_outputs := [payTo "3dest" 10000];
     TxProposal.o_changeAddress := Some "3change";
     TxProposal.o_escrowAddress := None;
     TxProposal.o_instantAcceptanceEscrow := None;
     TxProposal.o_multiTx := false;
     TxProposal.o_noShuffleOutputs := true;
     TxProposal.o_walletM := 2;
     TxProposal.o_walletN := 3;
     TxProposal.o_feePerKb := Some 1000%Q;
     TxProposal.o_excludeUnconfirmedUtxos := false;
     TxProposal.o_addressType := None;
     TxProposal.o_amount := None;
     TxProposal.o_inputs := [utxo "a" 20000];
     TxProposal.o_fee := None;
     TxProposal.o_enableRBF := false;
     TxProposal.o_replaceTxByFee := false |}.

(** [ChainService.getChain] for the coins of the examples, and the networks
    of each chain. *)
Definition getChain (coin : string) : string := TxProposal.toLowerCase coin.

Definition NETWORKS (chain : string) : list string :=
  if String.eqb chain "btc" then ["livenet"; "testnet"; "regtest"] else [].

(** A 1-of-1 wallet and a wallet that holds, besides a locked utxo, 50000,
    9900 and 100 satoshis. *)
Definition wallet : BtcChain.Wallet :=
  {| BtcChain.w_coin := "btc"; BtcChain.w_addressType := Some P2PKH;
     BtcChain.w_network := "livenet"; BtcChain.w_m := 1; BtcChain.w_n := 1 |}.

Definition sendMaxOpts : BtcChain.SendMaxOpts :=
  {| BtcChain.sm_excludeUnconfirmedUtxos := false;
     BtcChain.sm_returnInputs := true |}.

Definition walletUtxos : list Utxo.t :=
  [utxo "b" 9900; lockedUtxo; utxo "c" 100; utxo "d" 50000].

(** The client's other libraries: a cipher that prefixes the key, a hash
    that wraps its argument, and the request key of an extended key. *)
Definition crypto : ClientCrypto := {|
  sjcl_decrypt := fun key cyphertext =>
    let p := "enc(" +:+ key +:+ ")" in
    if String.prefix p cyphertext
    then Some (String.substring (String.length p)
                 (String.length cyphertext - String.length p) cyphertext)
    else None;
  sha256hex := fun s => "h(" +:+ s +:+ ")";
  BCHAddress_toString := fun a => a;
  requestKeyAuth := fun x => Some (x +:+ "/auth")
|}.

Definition coinChain (coin : option string) : string :=
  TxProposal.toLowerCase (default "btc" coin).

Definition txHash (p : @Verifier.Proposal) : option string :=
  match Verifier.p_outputs p with
  | [] => None
  | _ => Some ("tx(" +:+ pretty (Verifier.p_amount p) +:+ ")")
  end.

(** The change address of the wallet of [credentials] at [m/1/0]. *)
Definition changeReport : Verifier.AddressReport :=
  {| Verifier.a_type := None;
     Verifier.a_address := "multisig(xpubA/m/1/0,xpubB/m/1/0;2;testnet;scripthash)";
     Verifier.a_path := "m/1/0";
     Verifier.a_publicKeys := ["xpubB/m/1/0"; "xpubA/m/1/0"] |}.

(** A proposal of the copayer with key [xpubA], signed with the request
    key, as the server returns it, and the arguments it was asked with. *)
Definition clientProposal : @Verifier.Proposal :=
  {| Verifier.p_version := Some 3;
     Verifier.p_creatorId := Some "h(xpubA)";
     Verifier.p_chain := Some "BTC";
     Verifier.p_coin := Some "btc";
     Verifier.p_outputs := [Verifier.mkPOutput (Some "3dest") None 10000 (Some "rent")];
     Verifier.p_toAddress := None;
     Verifier.p_amount := 10000;
     Verifier.p_changeAddress := Some changeReport;
     Verifier.p_escrowAddress := None;
     Verifier.p_inputPaths := ["m/0/0"];
     Verifier.p_feePerKb := Some 1000%Q;
     Verifier.p_payProUrl := None;
     Verifier.p_message := Some "rent";
     Verifier.p_customData := None;
     Verifier.p_proposalSignature := Some "signed(tx(10000))by(reqA)";
     Verifier.p_proposalSignaturePubKey := None;
     Verifier.p_proposalSignaturePubKeySig := None;
     Verifier.p_prePublishRaw := None |}.

Definition creationArgs : @Verifier.CreationArgs :=
  {| Verifier.ca_outputs :=
       [Verifier.mkPOutput (Some "3dest") None 10000 (Some "enc(key)rent")];
     Verifier.ca_changeAddress := None;
     Verifier.ca_feePerKb := Some 1000%Q;
     Verifier.ca_payProUrl := None;
     Verifier.ca_message := Some "enc(key)rent";
     Verifier.ca_customData := None |}.

(** The instructions of an invoice for 10000 satoshis. *)
Definition invoice : list Verifier.Instruction :=
  [Verifier.mkInstruction (Some "3dest") 10000].

End Fixture.

(** * Properties *)

(** ** Arithmetic *)

Section Arithmetic.

Lemma Qltb_lt (a b : Q) : JS.Qltb a b = true <-> (a < b)%Q.
Proof.
  unfold JS.Qltb. rewrite negb_true_iff. split.
  - intros H. apply Qnot_le_lt. intros Hle.
    apply Qle_bool_iff in Hle. congruence.
  - intros H. destruct (Qle_bool b a) eqn:E; [|reflexivity].
    apply Qle_bool_iff in E. lra.
Qed.

Lemma Qltb_ge (a b : Q) : JS.Qltb a b = false <-> (b <= a)%Q.
Proof.
  unfold JS.Qltb. rewrite negb_false_iff. apply Qle_bool_iff.
Qed.

Lemma Qfloor_half (z : Z) : Qfloor (inject_Z z + (1 # 2)) = z.
Proof.
  unfold Qfloor, Qplus, inject_Z. cbn.
  symmetry. apply (Z.div_unique_pos _ _ z 1); lia.
Qed.

(** A rounded value does not exceed an integer above the exact one. *)
Lemma round_le (x : Q) (z : Z) : (x <= inject_Z z)%Q -> JS.round x <= z.
Proof.
  intros H. unfold JS.round. rewrite <- (Qfloor_half z).
  apply Qfloor_resp_le. lra.
Qed.

Lemma round_lt (x : Q) (z : Z) : (x < inject_Z z)%Q -> JS.round x <= z.
Proof. intros H. apply round_le. lra. Qed.

Lemma round_nonneg (x : Q) : (0 <= x)%Q -> 0 <= JS.round x.
Proof.
  intros H. unfold JS.round.
  change 0 with (Qfloor (inject_Z 0)) at 1. 
  apply Qfloor_resp_le. unfold inject_Z. lra.
Qed.

Lemma round_Z (z : Z) : JS.round (inject_Z z) = z.
Proof.
  unfold JS.round. apply Qfloor_half.
Qed.

Lemma round_Z_minus (a b c : Z) :
  JS.round (inject_Z a - inject_Z b - inject_Z c) = a - b - c.
Proof.
  unfold JS.round. rewrite <- (Qfloor_half (a - b - c)).
  apply Qfloor_comp. unfold Z.sub.
  rewrite !inject_Z_plus, !inject_Z_opp. ring.
Qed.

Lemma round_near (x : Q) :
  (inject_Z (JS.round x) <= x + (1 # 2) /\ x - (1 # 2) < inject_Z (JS.round x))%Q.
Proof.
  unfold JS.round. split.
  - apply Qfloor_le.
  - pose proof (Qlt_floor (x + (1 # 2))) as H.
    rewrite inject_Z_plus in H. unfold inject_Z at 2 in H. lra.
Qed.

Lemma toFixed0_nonneg (x : Q) : (0 <= x)%Q -> JS.toFixed0 x = JS.round x.
Proof.
  intros H. unfold JS.toFixed0.
  destruct (JS.Qltb x 0) eqn:E; [|reflexivity].
  apply Qltb_lt in E. lra.
Qed.

Lemma max_ge_r (a b : Q) : (b <= JS.max a b)%Q.
Proof.
  unfold JS.max. destruct (JS.Qltb a b) eqn:E.
  - lra.
  - apply Qltb_ge in E. exact E.
Qed.

Lemma max_ge_l (a b : Q) : (a <= JS.max a b)%Q.
Proof.
  unfold JS.max. destruct (JS.Qltb a b) eqn:E.
  - apply Qltb_lt in E. lra.
  - lra.
Qed.

End Arithmetic.

(** ** The proposal state machine *)

Section StateMachine.
Context {L : BitcoreLib}.

(** [_.countBy] counts: the entry of a key is absent when no element has
    the key, and the number of such elements otherwise. *)
Lemma countBy_lookup {A} (key : A -> string) (l : list A) (k : string) :
  JS.countBy key l !! k =
  let c := length (List.filter (fun a => String.eqb (key a) k) l) in
  if Nat.eqb c 0 then None else Some c.
Proof.
  unfold JS.countBy.
  enough (H : forall (m0 : gmap string nat),
    foldl (fun m a => <[key a := S (default 0%nat (m !! key a))]> m) m0 l !! k =
    let c := length (List.filter (fun a => String.eqb (key a) k) l) in
    if Nat.eqb c 0 then m0 !! k else Some (default 0%nat (m0 !! k) + c)%nat).
  { rewrite H. cbn. rewrite lookup_empty. reflexivity. }
  induction l as [|a l IH]; intros m0; cbn.
  - reflexivity.
  - rewrite IH. cbn. destruct (String.eqb (key a) k) eqn:E.
    + apply String.eqb_eq in E. subst k. cbn.
      rewrite lookup_insert_eq. cbn.
      destruct (length (List.filter (fun a0 => String.eqb (key a0) (key a)) l)) eqn:El;
        cbn; f_equal; lia.
    + apply String.eqb_neq in E.
      rewrite lookup_insert_ne by exact E. reflexivity.
Qed.

Lemma votes_reject (p : Txp.t) :
  TxProposal.votes p !! "reject" =
  let c := TxProposalVote.countRejects p in
  if Nat.eqb c 0 then None else Some c.
Proof.
  unfold TxProposal.votes. rewrite countBy_lookup. unfold TxProposalVote.countRejects.
  cbn. erewrite filter_ext; [reflexivity|].
  intros a. cbn. destruct (Action.type a); reflexivity.
Qed.

Lemma updateStatus_not_pending (p : Txp.t) :
  Txp.status p <> pending -> TxProposal._updateStatus p = p.
Proof.
  unfold TxProposal._updateStatus. destruct (Txp.status p); congruence.
Qed.

Lemma addAction_status_final now c t cm sg xp (p : Txp.t) :
  Txp.status p <> pending ->
  Txp.status (TxProposal.addAction now c t cm sg xp p) = Txp.status p.
Proof.
  intros H. unfold TxProposal.addAction.
  rewrite updateStatus_not_pending; [reflexivity | exact H].
Qed.

Lemma sign_status_final now c sigs xpub (p : Txp.t) :
  Txp.status p = rejected ->
  Txp.status (snd (TxProposalVote.sign now c sigs xpub p)) = rejected.
Proof.
  intros H. unfold TxProposalVote.sign.
  destruct (BtcChain.getBitcoreTx p true) as [tx|]; [|exact H].
  destruct (BtcChain.addSignaturesToBitcoreTx _ _ _ _ _ _) as [tx'|]; [|exact H].
  pose proof (addAction_status_final now c Accept None (Some sigs) (Some xpub) p) as Hs.
  rewrite H in Hs. specialize (Hs ltac:(discriminate)).
  rewrite Hs. exact Hs.
Qed.

Lemma vote_status_final (p : Txp.t) (v : TxProposalVote.Vote) :
  Txp.status p = rejected -> Txp.status (TxProposalVote.vote p v) = rejected.
Proof.
  intros H. destruct v as [now c sigs xpub | now c reason]; cbn.
  - apply sign_status_final, H.
  - unfold TxProposal.reject. rewrite addAction_status_final; [exact H|].
    rewrite H. discriminate.
Qed.

Lemma votes_status_final (vs : list TxProposalVote.Vote) (p : Txp.t) :
  Txp.status p = rejected -> Txp.status (TxProposalVote.votes p vs) = rejected.
Proof.
  revert p. induction vs as [|v vs IH]; intros p H; cbn.
  - exact H.
  - apply IH, vote_status_final, H.
Qed.

(** C3. A proposal is created with [requiredRejections = min(m, n - m + 1)]:
    [create] returns a proposal whenever the network is one of the chain's,
    no version or version 3 is asked for and the address type is a known
    one, and every proposal it returns has that number of required
    rejections.  When a reject vote on a pending proposal brings the number
    of reject actions to [requiredRejections] or more, the status becomes
    [rejected]; and from [rejected] no sequence of later votes, accepting or
    rejecting, changes the status, so it never becomes [accepted]. *)
Theorem rejection_quorum_is_final :
  (forall now uuid shuffle getChain NETWORKS opts,
      In (TxProposal.o_network opts)
         (NETWORKS
            match TxProposal.o_chain opts with
            | Some c => if String.eqb (TxProposal.toLowerCase c) ""
                        then getChain (TxProposal.o_coin opts)
                        else TxProposal.toLowerCase c
            | None => getChain (TxProposal.o_coin opts)
            end) ->
      TxProposal.o_version opts = None \/ TxProposal.o_version opts = Some 3 ->
      TxProposal.o_addressType opts <> Some UnknownType ->
      exists p,
        TxProposal.create now uuid shuffle getChain NETWORKS opts = Some p
        /\ Header.requiredRejections (Txp.header p) =
             Z.min (TxProposal.o_walletM opts)
                   (TxProposal.o_walletN opts - TxProposal.o_walletM opts + 1)
        /\ Txp.status p = temporary)
  /\ (forall now uuid shuffle getChain NETWORKS opts p,
      TxProposal.create now uuid shuffle getChain NETWORKS opts = Some p ->
      Header.requiredRejections (Txp.header p) =
        Z.min (TxProposal.o_walletM opts)
              (TxProposal.o_walletN opts - TxProposal.o_walletM opts + 1)
      /\ Header.requiredSignatures (Txp.header p) = TxProposal.o_walletM opts
      /\ Txp.status p = temporary)
  /\ (forall now copayerId reason p,
      Txp.status p = pending ->
      Header.requiredRejections (Txp.header p)
        <= Z.of_nat (TxProposalVote.countRejects
                       (TxProposal.reject now copayerId reason p)) ->
      Txp.status (TxProposal.reject now copayerId reason p) = rejected)
  /\ (forall p vs,
      Txp.status p = rejected ->
      Txp.status (TxProposalVote.votes p vs) = rejected
      /\ Txp.status (TxProposalVote.votes p vs) <> accepted).
Proof.
  split; [|split; [|split]].
  - intros now uuid shuffle getChain NETWORKS opts Hnet Hver Htype.
    unfold TxProposal.create.
    set (chain := match TxProposal.o_chain opts with Some _ => _ | None => _ end) in *.
    assert (Hin : existsb (String.eqb (TxProposal.o_network opts)) (NETWORKS chain)
                  = true).
    { apply existsb_exists. exists (TxProposal.o_network opts).
      split; [exact Hnet | apply String.eqb_refl]. }
    rewrite Hin. cbn [negb].
    assert (Hv : andb (TxProposal.truthyZ (TxProposal.o_version opts))
                      (negb (3 <=? default 0 (TxProposal.o_version opts))) = false
                 /\ ((if TxProposal.truthyZ (TxProposal.o_version opts)
                      then default 0 (TxProposal.o_version opts) else 3) <=? 3) = true)
      by (destruct Hver as [-> | ->]; split; reflexivity).
    destruct Hv as [-> ->]. cbn [negb].
    destruct (TxProposal.o_addressType opts) as [[]|]; try contradiction;
      try (eexists; split; [reflexivity|]; split; reflexivity).
    destruct (1 <? TxProposal.o_walletN opts);
      (eexists; split; [reflexivity|]; split; reflexivity).
  - intros now uuid shuffle getChain NETWORKS opts p.
    unfold TxProposal.create. intros H.
    repeat case_match; try discriminate; injection H as <-; cbn; auto.
  - intros now c reason p Hp Hq.
    unfold TxProposal.reject, TxProposal.addAction in *.
    set (q := Txp.set_actions _ p) in *.
    assert (Hs : Txp.status q = pending) by exact Hp.
    assert (Hc : TxProposalVote.countRejects (TxProposal._updateStatus q)
                 = TxProposalVote.countRejects q).
    { unfold TxProposal._updateStatus. rewrite Hs.
      destruct (TxProposal.isRejected q); [reflexivity|].
      destruct (TxProposal.isAccepted q); reflexivity. }
    rewrite Hc in Hq.
    assert (Hn : TxProposalVote.countRejects q <> 0%nat).
    { unfold TxProposalVote.countRejects, q. cbn.
      rewrite List.filter_app, length_app. cbn. lia. }
    unfold TxProposal._updateStatus. rewrite Hs.
    assert (Hr : TxProposal.isRejected q = true).
    { unfold TxProposal.isRejected. rewrite votes_reject. cbv zeta.
      destruct (Nat.eqb_spec (TxProposalVote.countRejects q) 0); [contradiction|].
      unfold JS.ge_undef. apply Z.leb_le. exact Hq. }
    rewrite Hr. reflexivity.
  - intros p vs H. pose proof (votes_status_final vs p H) as Hv.
    split; [exact Hv | rewrite Hv; discriminate].
Qed.
End StateMachine.

Section Lifecycle.

(** C10. A proposal whose status is [accepted] is pending for [isPending],
    and [toObject] reports it so. *)
Theorem accepted_is_pending (p : Txp.t) :
  Txp.status p = accepted ->
  TxProposal.isPending p = true
  /\ TxProposal.obj_isPending (TxProposal.toObject p) = true.
Proof.
  intros H. unfold TxProposal.toObject, TxProposal.isPending. cbn.
  rewrite H. split; reflexivity.
Qed.

(** [isPending] is the test that the status is none of [temporary],
    [broadcasted], [rejected]. *)
Lemma isPending_iff (p : Txp.t) :
  TxProposal.isPending p = true <->
  Txp.status p <> temporary /\ Txp.status p <> broadcasted
  /\ Txp.status p <> rejected.
Proof.
  unfold TxProposal.isPending. destruct (Txp.status p); cbn;
    intuition congruence.
Qed.

(** C7, as the code has it. [setBroadcasted] succeeds exactly when a
    transaction id is known, whatever the status; when it succeeds the
    status is [broadcasted], the time is recorded in seconds and nothing
    else changes; when it fails nothing is assigned. *)
Theorem setBroadcasted_needs_txid_only (now : Z) (p : Txp.t) :
  match TxProposal.setBroadcasted now p with
  | Some p' =>
      JS.truthy_str (Txp.txid p) = true
      /\ Txp.status p' = broadcasted
      /\ Txp.broadcastedOn p' = Some (now `div` 1000)
      /\ p' = Txp.set_broadcastedOn (Txp.broadcastedOn p')
                (Txp.set_status (Txp.status p') p)
  | None => JS.truthy_str (Txp.txid p) = false
  end.
Proof.
  unfold TxProposal.setBroadcasted.
  destruct (JS.truthy_str (Txp.txid p)); cbn; auto.
Qed.

End Lifecycle.

Section Signing.
Context {L : BitcoreLib} {HL : BitcoreLibLaws L}.

Lemma signLoop_spec x paths method (signatures : list string) :
  forall (i0 : nat) (tx0 : Transaction),
    let r := foldl (fun '(i, tx) signatureHex =>
                      match BtcChain.trySignature x paths method tx i signatureHex with
                      | Some tx' => (S i, tx')
                      | None => (i, tx)
                      end) (i0, tx0) signatures in
    (fst r <= i0 + length signatures)%nat
    /\ inputs_length (snd r) = inputs_length tx0
    /\ (fst r = (i0 + length signatures)%nat ->
        forall k sig, signatures !! k = Some sig ->
          exists t, BtcChain.trySignature x paths method t (i0 + k) sig <> None).
Proof.
  induction signatures as [|s signatures IH]; intros i0 tx0; cbn.
  - split; [lia|]. split; [reflexivity|]. intros _ k sig Hk. discriminate.
  - destruct (BtcChain.trySignature x paths method tx0 i0 s) as [tx'|] eqn:E.
    + specialize (IH (S i0) tx'). cbn in IH. destruct IH as (Hle & Hlen & Hall).
      split; [lia|]. split.
      * rewrite Hlen. unfold BtcChain.trySignature in E.
        destruct (Signature_fromString s) as [sg|]; [|discriminate]. cbn in E.
        destruct (paths !! i0) as [pa|]; [|discriminate]. cbn in E.
        destruct (deriveChild x pa) as [pk|]; [|discriminate]. cbn in E.
        eapply addSignature_inputs, E.
      * intros Hi k sig Hk. destruct k as [|k]; cbn in Hk.
        -- injection Hk as <-. exists tx0. rewrite Nat.add_0_r, E. discriminate.
        -- replace (i0 + S k)%nat with (S i0 + k)%nat by lia.
           apply Hall; [lia | exact Hk].
    + specialize (IH i0 tx0). cbn in IH. destruct IH as (Hle & Hlen & Hall).
      split; [lia|]. split; [exact Hlen|]. intros Hi. lia.
Qed.

Lemma addSignatures_inputs tx inputs paths sigs xpub method tx' :
  BtcChain.addSignaturesToBitcoreTx tx inputs paths sigs xpub method = Some tx' ->
  inputs_length tx' = inputs_length tx.
Proof.
  unfold BtcChain.addSignaturesToBitcoreTx.
  destruct (negb (Nat.eqb (length sigs) (length inputs))); [discriminate|].
  destruct (HDPublicKey_new xpub) as [x|]; [|discriminate]. cbn.
  set (method' := if JS.truthy_str method then _ else _).
  pose proof (signLoop_spec x paths method' sigs 0%nat tx) as H.
  unfold BtcChain.signLoop.
  destruct (foldl _ _ sigs) as [i t] eqn:E. cbn in H.
  destruct (negb (Nat.eqb i (inputs_length t))); [discriminate|].
  intros [= <-]. apply H.
Qed.

Lemma getBitcoreTx_inputs (p : Txp.t) signed tx :
  BtcChain.getBitcoreTx p signed = Some tx ->
  inputs_length tx = length (Txp.inputs p).
Proof.
  unfold BtcChain.getBitcoreTx.
  destruct (Header.multiTx (Txp.header p)); [discriminate|].
  destruct (assemble p) as [t|] eqn:Ea; [|discriminate]. cbn.
  apply assemble_inputs in Ea.
  destruct signed; [|intros [= <-]; exact Ea].
  revert t Ea. generalize (TxProposal.getCurrentSignatures p).
  intros l. induction l as [|[sg xp] l IH]; intros t Ea; cbn.
  - intros [= <-]. exact Ea.
  - destruct sg as [sg|]; cbn.
    2:{ clear. intros H. exfalso. induction l as [|a l IH]; cbn in H;
          [discriminate | exact (IH H)]. }
    destruct xp as [xp|]; cbn.
    2:{ clear. intros H. exfalso. induction l as [|a l IH]; cbn in H;
          [discriminate | exact (IH H)]. }
    destruct (BtcChain.addSignaturesToBitcoreTx t (Txp.inputs p) (Txp.inputPaths p)
                sg xp (Header.signingMethod (Txp.header p))) as [t'|] eqn:E.
    + apply IH. rewrite (addSignatures_inputs _ _ _ _ _ _ _ E). exact Ea.
    + clear. intros H. exfalso. induction l as [|a l IH]; cbn in H;
        [discriminate | exact (IH H)].
Qed.

Lemma trySignature_Some x paths method tx (i : nat) sig tx' :
  BtcChain.trySignature x paths method tx i sig = Some tx' ->
  exists s path pub,
    Signature_fromString sig = Some s /\ paths !! i = Some path
    /\ deriveChild x path = Some pub
    /\ addSignature tx i s pub method = Some tx'.
Proof.
  unfold BtcChain.trySignature.
  destruct (Signature_fromString sig) as [s|] eqn:Es; [|discriminate]. cbn.
  destruct (paths !! i) as [path|] eqn:Ep; [|discriminate]. cbn.
  destruct (deriveChild x path) as [pub|] eqn:Ed; [|discriminate]. cbn.
  intros H. exists s, path, pub.
  split; [reflexivity|]. split; [reflexivity|]. split; [exact Ed | exact H].
Qed.

(** When every signature of the list has been added, each was accepted at
    its own position, on a transaction reached from the first one. *)
Lemma signLoop_reached x paths method tx (signatures : list string) :
  forall (i0 : nat) (tx0 : Transaction),
    TxProposalVote.Reached tx tx0 ->
    let r := foldl (fun '(i, tx) signatureHex =>
                      match BtcChain.trySignature x paths method tx i signatureHex with
                      | Some tx' => (S i, tx')
                      | None => (i, tx)
                      end) (i0, tx0) signatures in
    (fst r <= i0 + length signatures)%nat
    /\ (fst r = (i0 + length signatures)%nat ->
        forall k sig, signatures !! k = Some sig ->
          exists t, TxProposalVote.Reached tx t
                    /\ BtcChain.trySignature x paths method t (i0 + k) sig <> None).
Proof.
  induction signatures as [|s signatures IH]; intros i0 tx0 Hr; cbn.
  - split; [lia|]. intros _ k sig Hk. discriminate.
  - destruct (BtcChain.trySignature x paths method tx0 i0 s) as [tx'|] eqn:E.
    + assert (Hr' : TxProposalVote.Reached tx tx').
      { destruct (trySignature_Some _ _ _ _ _ _ _ E) as (sg & pa & pk & _ & _ & _ & Ha).
        eapply TxProposalVote.Reached_add; eauto. }
      specialize (IH (S i0) tx' Hr'). cbn in IH. destruct IH as (Hle & Hall).
      split; [lia|]. intros Hi k sig Hk. destruct k as [|k]; cbn in Hk.
      * injection Hk as <-. exists tx0. split; [exact Hr|].
        rewrite Nat.add_0_r, E. discriminate.
      * replace (i0 + S k)%nat with (S i0 + k)%nat by lia.
        apply Hall; [lia | exact Hk].
    + specialize (IH i0 tx0 Hr). cbn in IH. destruct IH as (Hle & _).
      split; [lia|]. intros Hi. lia.
Qed.

(** C2. An accept vote is all or nothing.  If the list does not have one
    signature per input, or if one of its signatures is invalid (the
    library refuses it for the input at its position, under the key derived
    from the voter's extended public key at the path of that input, on the
    transaction built from the proposal and on those reached from it by
    adding signatures), then [sign] returns [false] and the proposal is left
    as it was: no action is recorded, and status, raw transaction and
    transaction id keep their values. *)
Theorem sign_is_all_or_nothing now copayerId signatures xpub (p : Txp.t) :
  (length signatures <> length (Txp.inputs p)
   \/ exists k sig,
        signatures !! k = Some sig
        /\ forall tx t x s path pub,
             BtcChain.getBitcoreTx p true = Some tx ->
             TxProposalVote.Reached tx t ->
             HDPublicKey_new xpub = Some x ->
             Signature_fromString sig = Some s ->
             Txp.inputPaths p !! k = Some path ->
             deriveChild x path = Some pub ->
             addSignature t k s pub (TxProposalVote.methodOf p) = None) ->
  TxProposalVote.sign now copayerId signatures xpub p = (false, p).
Proof.
  intros H. unfold TxProposalVote.sign.
  destruct (BtcChain.getBitcoreTx p true) as [tx|] eqn:Etx; [|reflexivity].
  pose proof (getBitcoreTx_inputs _ _ _ Etx) as Hn.
  unfold BtcChain.addSignaturesToBitcoreTx.
  destruct (Nat.eqb_spec (length signatures) (length (Txp.inputs p))) as [Hlen|Hlen];
    cbn; [|reflexivity].
  destruct H as [H | (k & sig & Hk & Hbad)]; [contradiction|].
  destruct (HDPublicKey_new xpub) as [x|] eqn:Ex; [|reflexivity]. cbn.
  fold (TxProposalVote.methodOf p).
  pose proof (signLoop_spec x (Txp.inputPaths p) (TxProposalVote.methodOf p)
                signatures 0%nat tx) as Hloop.
  pose proof (signLoop_reached x (Txp.inputPaths p) (TxProposalVote.methodOf p) tx
                signatures 0%nat tx (TxProposalVote.Reached_here tx)) as Hreach.
  unfold BtcChain.signLoop.
  destruct (foldl _ _ signatures) as [i t] eqn:E. cbn in Hloop, Hreach.
  destruct Hloop as (_ & Hin & _). destruct Hreach as (_ & Hall).
  destruct (Nat.eqb_spec i (inputs_length t)) as [Hi|Hi]; cbn; [|reflexivity].
  exfalso. rewrite Hin, Hn, <- Hlen in Hi.
  destruct (Hall Hi k sig Hk) as (t0 & Hr0 & Ht0).
  destruct (BtcChain.trySignature x (Txp.inputPaths p) (TxProposalVote.methodOf p)
              t0 k sig) as [t1|] eqn:Et; [|contradiction].
  destruct (trySignature_Some _ _ _ _ _ _ _ Et) as (s & path & pub & Hs & Hp & Hd & Ha).
  rewrite (Hbad tx t0 x s path pub eq_refl Hr0 eq_refl Hs Hp Hd) in Ha.
  discriminate.
Qed.

End Signing.

(** ** The verifier *)

Section VerifierProperties.
Context {W : WalletCore}.

Lemma deriveAddress_path scriptType ring path m network chain escrow hw cd d :
  Utils.deriveAddress scriptType ring path m network chain escrow hw cd = Some d ->
  Utils.d_path d = path.
Proof.
  unfold Utils.deriveAddress.
  destruct (negb (Utils.isScriptType scriptType)); [discriminate|].
  destruct (JS.truthy_str (Utils.or_str hw cd)).
  - destruct chain as [c|]; [|discriminate]. cbn.
    destruct (Deriver_getAddress _ _ _ _); [|discriminate].
    intros [= <-]. reflexivity.
  - cbn. destruct (Bitcore_ _) as [b|]; [|discriminate]. cbn.
    destruct (mapM _ ring) as [pks|]; [|discriminate]. cbn.
    destruct (Utils.addressFor _ _ _ _ _ _ _ _ _) as [r|]; [|discriminate].
    intros [= <-]. reflexivity.
Qed.

Lemma difference_self (l : list string) : Verifier.difference l l = [].
Proof.
  unfold Verifier.difference.
  assert (H : forall a, (forall x, In x a -> In x l) ->
              List.filter (fun x => negb (existsb (String.eqb x) l)) a = []).
  { induction a as [|x a IH]; intros Hin; cbn; [reflexivity|].
    assert (Hx : existsb (String.eqb x) l = true).
    { apply existsb_exists. exists x. split; [apply Hin; left; reflexivity|].
      apply String.eqb_refl. }
    rewrite Hx. cbn. apply IH. intros y Hy. apply Hin. right. exact Hy. }
  apply H. auto.
Qed.

(** C9. For complete credentials, when [deriveAddress] produces an address
    from the script type, the public key ring, the path, [m], the chain and
    the network the verifier derives on, [checkAddress] accepts the report
    that carries this address, its path and its public keys: the address it
    recomputes is the same.  Outside regtest mode the network is the
    credentials' own. *)
Theorem checkAddress_accepts_derived useRegtest credentials reportedType
    scriptType path escrowInputs d :
  Verifier.isComplete credentials = true ->
  default (Verifier.addressType credentials) reportedType = scriptType ->
  Utils.deriveAddress scriptType (Verifier.publicKeyRing credentials) path
    (Verifier.m credentials) (Verifier.networkFor useRegtest credentials)
    (Verifier.chain credentials) escrowInputs
    (Verifier.hardwareSourcePublicKey credentials)
    (Verifier.clientDerivedPublicKey credentials) = Some d ->
  Verifier.checkAddress useRegtest credentials
    (Verifier.mkAddressReport reportedType (Utils.d_address d) (Utils.d_path d)
       (Utils.d_publicKeys d))
    escrowInputs = Some true
  /\ Verifier.networkFor false credentials = Verifier.network credentials.
Proof.
  intros Hc Ht Hd. split.
  - unfold Verifier.checkAddress. rewrite Hc. cbn.
    rewrite (deriveAddress_path _ _ _ _ _ _ _ _ _ _ Hd).
    replace (match reportedType with
             | Some t => t
             | None => Verifier.addressType credentials
             end) with scriptType
      by (rewrite <- Ht; destruct reportedType; reflexivity).
    rewrite Hd. cbn. rewrite String.eqb_refl, difference_self. reflexivity.
  - unfold Verifier.networkFor. rewrite andb_false_r. reflexivity.
Qed.
End VerifierProperties.

Section Estimates.
Context {L : BitcoreLib}.
Variable this : BtcChain.t.

Lemma ceil_nonneg (x : Q) : (0 <= x)%Q -> 0 <= JS.ceil x.
Proof.
  intros H. unfold JS.ceil. change 0 with (Qceiling (inject_Z 0)).
  apply Qceiling_resp_le. exact H.
Qed.

Lemma inject_Z_nonneg (z : Z) : 0 <= z -> (0 <= inject_Z z)%Q.
Proof. intros H. change 0%Q with (inject_Z 0). rewrite <- Zle_Qle. exact H. Qed.

Lemma addressTypeSize_pos (t : string) :
  0 < BtcChain.getEstimatedSizeForAddressType t.
Proof.
  unfold BtcChain.getEstimatedSizeForAddressType.
  repeat match goal with |- context [if ?c then _ else _] => destruct c end; lia.
Qed.

Lemma outputsSize_nonneg (addresses : list (option string)) :
  forall acc, 0 <= acc ->
    0 <= foldl (fun acc x => acc + BtcChain.getEstimatedSizeForSingleOutput x)
               acc addresses.
Proof.
  induction addresses as [|a l IH]; intros acc Hacc; cbn; [exact Hacc|].
  apply IH. unfold BtcChain.getEstimatedSizeForSingleOutput.
  pose proof (addressTypeSize_pos
                (if JS.truthy_str a then Address_type (default "" a) else "")).
  lia.
Qed.

Section Sizes.
Variable txp : Txp.t.
Hypothesis m_nonneg : 0 <= Header.requiredSignatures (Txp.header txp).
Hypothesis n_nonneg : 0 <= Header.walletN (Txp.header txp).
Hypothesis margin_nonneg : (0 <= BtcChain.sizeEstimationMargin this)%Q.
Hypothesis inputMargin_nonneg : (0 <= BtcChain.inputSizeEstimationMargin this)%Q.

Lemma inputSize_nonneg conservative :
  (0 <= BtcChain.getEstimatedSizeForSingleInput this txp conservative)%Q.
Proof.
  unfold BtcChain.getEstimatedSizeForSingleInput.
  assert (Hmg : (0 <= BtcChain.getInputSizeSafetyMargin this conservative)%Q).
  { unfold BtcChain.getInputSizeSafetyMargin. destruct conservative; [assumption|lra]. }
  set (mg := BtcChain.getInputSizeSafetyMargin this conservative) in *.
  destruct (Header.addressType (Txp.header txp)); try lra.
  - pose proof (inject_Z_nonneg
      (46 + Header.requiredSignatures (Txp.header txp) * (72 + 1)
       + Header.walletN (Txp.header txp) * (33 + 1)) ltac:(lia)).
    lra.
  - assert (0 <= inject_Z (JS.ceil
              (32 + 4 + 1
               + inject_Z (5 + Header.requiredSignatures (Txp.header txp) * 74
                           + Header.walletN (Txp.header txp) * 34) / 4 + 4)))%Q.
    { apply inject_Z_nonneg, ceil_nonneg.
      pose proof (inject_Z_nonneg
        (5 + Header.requiredSignatures (Txp.header txp) * 74
         + Header.walletN (Txp.header txp) * 34) ltac:(lia)) as Hz.
      set (z := inject_Z _) in *.
      assert (0 <= z / 4)%Q by (apply Qle_shift_div_l; [reflexivity | lra]).
      lra. }
    lra.
  - pose proof (inject_Z_nonneg
      (46 + Header.requiredSignatures (Txp.header txp) * (72 + 1)
       + Header.walletN (Txp.header txp) * (33 + 1)) ltac:(lia)).
    lra.
Qed.

Lemma size_nonneg feeOpts : 0 <= BtcChain.getEstimatedSize this txp feeOpts.
Proof.
  unfold BtcChain.getEstimatedSize. apply ceil_nonneg.
  set (addresses := _ ++ _).
  pose proof (outputsSize_nonneg addresses 0 ltac:(lia)) as Ho.
  set (o1 := foldl _ 0 addresses) in *.
  set (o2 := if BtcChain.truthyZ _ then _ else o1).
  assert (Ho2 : 0 <= o2).
  { unfold o2. pose proof (addressTypeSize_pos "scripthash").
    destruct (BtcChain.truthyZ _); lia. }
  set (o3 := if o2 =? 0 then _ else o2).
  assert (Ho3 : 0 <= o3).
  { unfold o3. destruct (o2 =? 0); [|exact Ho2].
    unfold BtcChain.getEstimatedSizeForSingleOutput.
    pose proof (addressTypeSize_pos
                  (if JS.truthy_str None then Address_type (default "" None) else "")).
    lia. }
  pose proof (inject_Z_nonneg o3 Ho3).
  pose proof (inject_Z_nonneg (Z.of_nat (length (Txp.inputs txp))) ltac:(lia)).
  pose proof (inputSize_nonneg (BtcChain.conservativeEstimation feeOpts)).
  assert (Hmg : (0 <= BtcChain.getSizeSafetyMargin this
                         (BtcChain.conservativeEstimation feeOpts))%Q).
  { unfold BtcChain.getSizeSafetyMargin.
    destruct (BtcChain.conservativeEstimation feeOpts); [assumption|lra]. }
  change (inject_Z (4 + 4 + 1 + 1)) with 10%Q. nra.
Qed.

Lemma fees_nonneg opts (f : Q) :
  (0 <= f)%Q ->
  (0 <= BtcChain.baseTxpFee this txp opts f)%Q
  /\ (0 <= BtcChain.feePerInput this txp opts f)%Q.
Proof.
  intros Hf. unfold BtcChain.baseTxpFee, BtcChain.feePerInput,
    BtcChain.baseTxpSize, BtcChain.sizePerInput.
  pose proof (inject_Z_nonneg _ (size_nonneg (BtcChain.feeOpts opts))).
  pose proof (inputSize_nonneg
                (BtcChain.conservativeEstimation (BtcChain.feeOpts opts))).
  split.
  - apply Qle_shift_div_l; [reflexivity|]. nra.
  - apply Qle_shift_div_l; [reflexivity|]. nra.
Qed.
End Sizes.
End Estimates.

(** ** Coin selection *)

Section SelectionProperties.
Context {L : BitcoreLib}.
Variable this : BtcChain.t.
Variable txp : Txp.t.
Variable opts : BtcChain.SelectOpts.
Variable f : Q.

Local Abbreviation base := (BtcChain.baseTxpFee this txp opts f).
Local Abbreviation fpi := (BtcChain.feePerInput this txp opts f).
Local Abbreviation amt := (BtcChain.txpAmount txp opts).
Local Abbreviation fee0 := (BtcChain.feeFor this txp opts f).
Local Abbreviation full := (BtcChain.amountFor this txp opts f).
Local Abbreviation Inv := (BtcChain.AccumInv this txp opts f).
Local Abbreviation Covers := (BtcChain.Covers txp opts).
Local Abbreviation FundsError := BtcChain.FundsError.
Local Abbreviation LInv := (BtcChain.LadderInv txp opts).


Lemma sumSat_app (l : list Utxo.t) (u : Utxo.t) :
  BtcChain.sumSat (l ++ [u]) = BtcChain.sumSat l + Utxo.satoshis u.
Proof.
  unfold BtcChain.sumSat. rewrite map_app, foldr_app. cbn.
  induction (map Utxo.satoshis l) as [|z zs IH]; cbn; lia.
Qed.

Lemma Inv_accum0 : Inv (BtcChain.accum0 this txp opts f).
Proof.
  unfold BtcChain.AccumInv, BtcChain.accum0; cbn.
  split; [reflexivity|]. split.
  { change (inject_Z (Z.of_nat 0)) with 0%Q.
    change (inject_Z 0) with 0%Q. lra. }
  split; [left; reflexivity|].
  split; [intros _; split; reflexivity|].
  intros H; contradiction.
Qed.

Lemma step_Inv bigInputs st input st' e :
  Inv st -> BtcChain.step this txp opts f bigInputs st input = (st', e) -> Inv st'.
Proof.
  intros (Ht & Hn & He & _ & _). unfold BtcChain.step.
  set (sel := BtcChain.selected st ++ [input]).
  set (n := length sel).
  assert (Hsel : sel <> []) by (unfold sel; destruct (BtcChain.selected st); discriminate).
  assert (Hlen : (inject_Z (Z.of_nat n) ==
                  inject_Z (Z.of_nat (length (BtcChain.selected st))) + 1)%Q).
  { unfold n, sel. rewrite length_app. cbn.
    rewrite Nat2Z.inj_add, inject_Z_plus. cbn. reflexivity. }
  assert (Htot : BtcChain.total st + Utxo.satoshis input = BtcChain.sumSat sel).
  { unfold sel. rewrite sumSat_app, Ht. reflexivity. }
  assert (Hnet : (BtcChain.netTotal st + (inject_Z (Utxo.satoshis input) - fpi) ==
                  inject_Z (BtcChain.total st + Utxo.satoshis input) - base
                  - inject_Z (Z.of_nat n) * fpi)%Q).
  { rewrite Hn, Hlen, inject_Z_plus. ring. }
  intros H.
  repeat match type of H with
         | (if ?c then _ else _) = _ => destruct c eqn:?
         end;
    injection H as <- <-;
    unfold BtcChain.AccumInv, BtcChain.amountFor, BtcChain.feeFor;
    cbn [BtcChain.total BtcChain.netTotal BtcChain.selected
         BtcChain.fullTxpAmount BtcChain.fee BtcChain.error];
    fold sel; fold n;
    (split; [exact Htot|]); (split; [exact Hnet|]);
    (split; [first [exact He | right; reflexivity]|]);
    (split; [intros Hnil; contradiction|]);
    intros _; (split; [reflexivity|]);
    (eexists; split; [reflexivity|]); try (left; reflexivity).
  rewrite round_Z_minus.
  destruct (andb (0 <? _) _) eqn:Edust; [|left; reflexivity].
  right. apply andb_true_iff in Edust. destruct Edust as [H1 H2].
  apply Z.ltb_lt in H1. split; lia.
Qed.

(** When the loop ends at its own test of the target, a change that is
    positive and not above the dust threshold has been added to the fee. *)
Lemma step_TargetReached bigInputs st input st' :
  BtcChain.step this txp opts f bigInputs st input
    = (st', Some BtcChain.TargetReached) ->
  let n := length (BtcChain.selected st') in
  let change := BtcChain.total st' - BtcChain.fullTxpAmount st' - fee0 n in
  BtcChain.fee st' =
    Some (if andb (0 <? change) (change <=? BtcChain.dustThreshold)
          then fee0 n + change else fee0 n).
Proof.
  unfold BtcChain.step. intros H.
  repeat match type of H with
         | (if ?c then _ else _) = _ => destruct c eqn:?
         end;
    try discriminate H; injection H as <-.
  unfold BtcChain.feeFor.
  cbn [BtcChain.total BtcChain.selected BtcChain.fullTxpAmount BtcChain.fee].
  rewrite round_Z_minus. reflexivity.
Qed.

Lemma each_Inv bigInputs l : forall st st' e,
  Inv st -> BtcChain.each this txp opts f bigInputs st l = (st', e) -> Inv st'.
Proof.
  induction l as [|u l IH]; intros st st' e Hst; cbn.
  - intros [= <- <-]. exact Hst.
  - destruct (BtcChain.step this txp opts f bigInputs st u) as [st1 [e1|]] eqn:E.
    + intros [= <- <-]. eapply step_Inv; eauto.
    + intros H. eapply IH; [|exact H]. eapply step_Inv; eauto.
Qed.

Hypothesis amt_nonneg : 0 <= amt.
Hypothesis base_nonneg : (0 <= base)%Q.
Hypothesis fpi_nonneg : (0 <= fpi)%Q.

Lemma fee0_nonneg (n : nat) : 0 <= fee0 n.
Proof.
  unfold BtcChain.feeFor. apply round_nonneg.
  assert (0 <= inject_Z (Z.of_nat n))%Q.
  { change 0%Q with (inject_Z 0). rewrite <- Zle_Qle. lia. }
  nra.
Qed.

Lemma full_ge (n : nat) : amt <= full n.
Proof.
  unfold BtcChain.amountFor. pose proof (fee0_nonneg n).
  destruct (negb (_ =? 0)); lia.
Qed.

Lemma sort_In {A} (le : A -> A -> bool) (l : list A) (x : A) :
  In x (BtcChain.sort le l) -> In x l.
Proof.
  unfold BtcChain.sort. induction l as [|a l IH]; cbn; [auto|].
  assert (Hins : forall y s, In x (BtcChain.insert le y s) -> x = y \/ In x s).
  { intros y s. induction s as [|z s IHs]; cbn.
    - intros [->|[]]; auto.
    - destruct (le y z); cbn.
      + intros [->|[->|H]]; auto.
      + intros [->|H]; auto. destruct (IHs H); auto. }
  intros H. destruct (Hins _ _ H) as [->|H']; auto.
Qed.

Lemma big_covers required utxos input rest :
  BtcChain.bigInputs_of this txp opts f required utxos = input :: rest ->
  amt + JS.round (base + fpi)%Q <= Utxo.satoshis input.
Proof.
  intros H.
  assert (Hin : In input (BtcChain.bigInputs_of this txp opts f required utxos))
    by (rewrite H; left; reflexivity).
  unfold BtcChain.bigInputs_of in Hin. apply sort_In in Hin.
  apply List.filter_In in Hin. destruct Hin as [_ Hbig].
  unfold BtcChain.isBig in Hbig. apply Qltb_lt in Hbig.
  unfold BtcChain.bigInputThreshold in Hbig.
  unfold Defaults.UTXO_SELECTION_MAX_SINGLE_UTXO_FACTOR in Hbig.
  enough (JS.round (base + fpi)%Q <= Utxo.satoshis input - amt) by lia.
  apply round_lt. unfold Z.sub. rewrite inject_Z_plus, inject_Z_opp.
  assert (0 <= inject_Z amt)%Q.
  { change 0%Q with (inject_Z 0). rewrite <- Zle_Qle. exact amt_nonneg. }
  lra.
Qed.

(** [select] returns a covering selection or a funds error. *)
Lemma select_sound utxos requiredInputs :
  match BtcChain.select this txp opts f utxos requiredInputs with
  | inr r => Covers r
  | inl e => FundsError e
  end.
Proof.
  unfold BtcChain.select.
  destruct (_ <? amt); [left; reflexivity|].
  destruct (JS.Qltb _ (inject_Z amt)); [right; right; left; eexists; reflexivity|].
  set (required := BtcChain.requiredTxids txp requiredInputs).
  set (kept := BtcChain.worthSending this txp opts f required utxos).
  set (bigs := BtcChain.bigInputs_of this txp opts f required kept).
  set (smalls := BtcChain.smallInputs_of this txp opts f required kept).
  destruct (BtcChain.each this txp opts f bigs (BtcChain.accum0 this txp opts f) smalls)
    as [st e] eqn:Eeach.
  pose proof (each_Inv bigs smalls _ _ _ Inv_accum0 Eeach) as (Ht & Hn & He & Hnil & Hsel).
  cbn [fst]. unfold BtcChain.fallback.
  destruct (JS.Qltb (BtcChain.netTotal st) (inject_Z (BtcChain.fullTxpAmount st))) eqn:Elt.
  - destruct bigs as [|input rest] eqn:Ebig;
      cbn [BtcChain.selected BtcChain.fee BtcChain.error].
    + destruct He as [-> | ->]; [right; right; left; eexists; reflexivity|].
      right; right; right; reflexivity.
    + split; [discriminate|]. eexists; split; [reflexivity|].
      cbn [fst]. unfold BtcChain.sumSat. cbn [map foldr].
      pose proof (big_covers _ _ _ _ Ebig). lia.
  - apply Qltb_ge in Elt.
    destruct (BtcChain.selected st) as [|u sel] eqn:Esel.
    + destruct He as [-> | ->]; [right; right; left; eexists; reflexivity|].
      right; right; right; reflexivity.
    + rewrite <- Esel in *.
      assert (Hne : BtcChain.selected st <> []) by (rewrite Esel; discriminate).
      destruct (Hsel Hne) as (Hfull & fe & Hfe & Hcase).
      split; [exact Hne|]. exists fe. split; [exact Hfe|]. cbn [fst].
      rewrite <- Ht. pose proof (full_ge (length (BtcChain.selected st))) as Hge.
      rewrite <- Hfull in Hge.
      destruct Hcase as [-> | [-> _]]; [|lia].
      enough (fee0 (length (BtcChain.selected st))
              <= BtcChain.total st - BtcChain.fullTxpAmount st) by lia.
      apply round_le. unfold Z.sub. rewrite inject_Z_plus, inject_Z_opp. lra.
Qed.

Lemma tryGroup_LInv zce utxos s group :
  LInv s -> LInv (BtcChain.tryGroup this txp opts f zce utxos s group).
Proof.
  intros (H1 & H2 & H3). unfold BtcChain.tryGroup.
  destruct (BtcChain.lad_inputs s) as [|u l] eqn:El.
  2:{ unfold BtcChain.LadderInv. rewrite El. auto. }
  destruct (bool_decide _).
  { unfold BtcChain.LadderInv. rewrite El. auto. }
  pose proof (select_sound (BtcChain.candidates txp opts zce utxos group)
                (Txp.inputs txp)) as Hs.
  destruct (BtcChain.select _ _ _ _ _ _) as [err | [sel fe]]; unfold BtcChain.LadderInv; cbn.
  - split; [intros H; contradiction|]. split; [intros e [= <-]; exact Hs|].
    intros _ H; discriminate.
  - split; [intros _; split; [reflexivity | exact Hs]|].
    split; [intros e H; discriminate|].
    intros -> _. destruct Hs as [Hs _]. cbn in Hs. contradiction.
Qed.

Lemma tryGroup_ran zce utxos s group :
  (BtcChain.lastGroupLength s = None -> BtcChain.lad_inputs s = []) ->
  BtcChain.lastGroupLength
    (BtcChain.tryGroup this txp opts f zce utxos s group) <> None.
Proof.
  intros H. unfold BtcChain.tryGroup.
  destruct (BtcChain.lad_inputs s) as [|u l] eqn:El.
  - destruct (bool_decide_reflect
                (BtcChain.lastGroupLength s
                 = Some (length (BtcChain.candidates txp opts zce utxos group))))
      as [E|E].
    + rewrite E. discriminate.
    + destruct (BtcChain.select _ _ _ _ _ _) as [err | [sel fe]]; cbn; discriminate.
  - intros E. specialize (H E). discriminate.
Qed.

Lemma groups_LInv zce utxos (gs : list Z) : forall s,
  LInv s -> LInv (foldl (BtcChain.tryGroup this txp opts f zce utxos) s gs).
Proof.
  induction gs as [|g gs IH]; intros s Hs; cbn; [exact Hs|].
  apply IH, tryGroup_LInv, Hs.
Qed.

Lemma groups_ran zce utxos (gs : list Z) : forall s,
  BtcChain.lastGroupLength s <> None ->
  BtcChain.lastGroupLength
    (foldl (BtcChain.tryGroup this txp opts f zce utxos) s gs) <> None.
Proof.
  induction gs as [|g gs IH]; intros s Hs; cbn; [exact Hs|].
  apply IH, tryGroup_ran. intros E. contradiction.
Qed.

Lemma selection_sound zce utxos :
  match BtcChain.selection this txp opts f zce utxos with
  | inr r => Covers r
  | inl e => FundsError e
  end.
Proof.
  unfold BtcChain.selection.
  destruct (if andb _ _ then _ else _) as [totalAmount availableAmount].
  destruct (totalAmount <? _); [left; reflexivity|].
  destruct (availableAmount <? _); [right; left; reflexivity|].
  set (us := BtcChain.sanitizeUtxos txp opts utxos).
  set (s0 := BtcChain.mkLadder [] None None None).
  assert (H0 : LInv s0).
  { unfold BtcChain.LadderInv, s0; cbn. split; [intros H; contradiction|].
    split; [intros e H; discriminate | auto]. }
  unfold BtcChain.groups. cbn [app foldl].
  set (s1 := BtcChain.tryGroup this txp opts f zce us s0 6).
  assert (H1 : LInv s1) by (apply tryGroup_LInv, H0).
  assert (R1 : BtcChain.lastGroupLength s1 <> None)
    by (apply tryGroup_ran; reflexivity).
  set (s := foldl _ _ _).
  assert (Hs : LInv s) by (apply groups_LInv, tryGroup_LInv, H1).
  assert (Rs : BtcChain.lastGroupLength s <> None).
  { apply groups_ran, tryGroup_ran. intros E. contradiction. }
  destruct Hs as (Hc & He & Hn).
  destruct (BtcChain.selectionError s) as [e|] eqn:Ee.
  - apply He. reflexivity.
  - destruct (BtcChain.lad_inputs s) as [|u l] eqn:El.
    + exfalso. apply Rs, Hn; reflexivity.
    + apply Hc. discriminate.
Qed.
End SelectionProperties.

Section SelectionTheorems.
Context {L : BitcoreLib}.


(** C5, as the code has it. For a proposal with a numeric [feePerKb] and no
    pre-filled totals, and a dust amount that is not negative, the estimated
    fee is the exact fee (size times rate over 1000, raised to the dust
    amount) rounded to the nearest integer, ties upwards; it is within one
    half of the exact fee and never below the dust amount. *)
Theorem estimated_fee_is_rounded
    (this : BtcChain.t) (txp : Txp.t) (opts : BtcChain.FeeOpts) (feePerKb : Q) :
  Header.feePerKb (Txp.header txp) = Some feePerKb ->
  BtcChain.readyFee txp = None ->
  0 <= DUST_AMOUNT ->
  let exact :=
    JS.max (feePerKb * inject_Z (BtcChain.getEstimatedSize this txp opts) / 1000)
           (inject_Z DUST_AMOUNT) in
  BtcChain.getEstimatedFee this txp opts = Some (JS.round exact)
  /\ (exact - (1 # 2) < inject_Z (JS.round exact))%Q
  /\ (inject_Z (JS.round exact) <= exact + (1 # 2))%Q
  /\ DUST_AMOUNT <= JS.round exact.
Proof.
  intros Hf Hr Hd exact. unfold BtcChain.getEstimatedFee. rewrite Hf, Hr.
  fold exact.
  assert (He : (inject_Z DUST_AMOUNT <= exact)%Q) by apply max_ge_r.
  assert (H0 : (0 <= exact)%Q).
  { pose proof (inject_Z_nonneg _ Hd). lra. }
  rewrite toFixed0_nonneg by exact H0.
  destruct (round_near exact) as [Hu Hl].
  split; [reflexivity|]. split; [exact Hl|]. split; [exact Hu|].
  rewrite <- (round_Z DUST_AMOUNT). unfold JS.round.
  apply Qfloor_resp_le. lra.
Qed.
End SelectionTheorems.

Section Examples.
#[local] Existing Instance Fixture.lib.
#[local] Existing Instance Fixture.core.


(** Scenario A: the largest small input alone covers 4000 satoshis and the
    fee of 370 for one input of a 2-of-3 wallet. *)
Example scenarioA_selection :
  BtcChain.selection BtcChain.defaultConfig Fixture.scenarioA Fixture.noOpts
    1000 false Fixture.scenarioA_utxos
  = inr ([Fixture.utxo "a" 5000], Some 370).
Proof. vm_compute. reflexivity. Qed.

(** C5 fails as stated: at 10001 satoshis per kilobyte a transaction of 78
    bytes has an exact fee of 780.078; the code returns 780, the ceiling is
    781. *)
Lemma estimated_fee_is_not_the_ceiling :
  Header.feePerKb (Txp.header Fixture.feeProposal) = Some 10001%Q
  /\ BtcChain.readyFee Fixture.feeProposal = None
  /\ BtcChain.getEstimatedSize BtcChain.defaultConfig Fixture.feeProposal
       (BtcChain.mkFeeOpts false None) = 78
  /\ BtcChain.getEstimatedFee BtcChain.defaultConfig Fixture.feeProposal
       (BtcChain.mkFeeOpts false None) = Some 780
  /\ Z.max (JS.ceil (inject_Z 78 * 10001 / 1000)) DUST_AMOUNT = 781.
Proof. vm_compute. repeat split; reflexivity. Qed.

Lemma estimated_fee_is_rounded_witness :
  BtcChain.getEstimatedFee BtcChain.defaultConfig Fixture.feeProposal
    (BtcChain.mkFeeOpts false None) = Some 780
  /\ DUST_AMOUNT <= 780.
Proof.
  destruct (estimated_fee_is_rounded BtcChain.defaultConfig Fixture.feeProposal
              (BtcChain.mkFeeOpts false None) 10001)
    as (H1 & _ & _ & H4);
    [reflexivity | reflexivity | vm_compute; discriminate |].
  split; [exact H1 | exact H4].
Defined.

(** C4, at the failing input. With utxos of 50000, 9900 and 700 satoshis and
    a payment of 10000, the loop takes 9900 and 700 and leaves at the test
    that the last utxo is too small; the selection is returned with the fee
    374, and the change of 226 satoshis, positive and below the dust
    threshold of 546, has not been added to the fee. *)
Theorem dust_change_is_not_folded_after_early_exit :
  BtcChain.selection BtcChain.defaultConfig Fixture.dustProposal Fixture.noOpts
    1000 false Fixture.dustUtxos
  = inr ([Fixture.utxo "b" 9900; Fixture.utxo "c" 700], Some 374)
  /\ snd (BtcChain.each BtcChain.defaultConfig Fixture.dustProposal Fixture.noOpts 1000
            [Fixture.utxo "a" 50000]
            (BtcChain.accum0 BtcChain.defaultConfig Fixture.dustProposal
               Fixture.noOpts 1000)
            [Fixture.utxo "b" 9900; Fixture.utxo "c" 700])
     = Some BtcChain.UtxoTooSmall
  /\ BtcChain.sumSat [Fixture.utxo "b" 9900; Fixture.utxo "c" 700]
     - BtcChain.txpAmount Fixture.dustProposal Fixture.noOpts - 374 = 226
  /\ BtcChain.dustThreshold = 546.
Proof. vm_compute. repeat split; reflexivity. Qed.

(** C6, at the failing input. In replace-by-fee mode, with the replaced
    transaction's input [a] of 100000 satoshis and another utxo [b] of 12000,
    the selection for a payment of 10000 is [b] alone: no input of the
    replaced transaction is in it.  A locked utxo is still filtered out in
    this mode. *)
Theorem rbf_selection_can_drop_every_replaced_input :
  Header.replaceTxByFee (Txp.header Fixture.rbfProposal) = true
  /\ BtcChain.selection BtcChain.defaultConfig Fixture.rbfProposal Fixture.rbfOpts
       1000 false Fixture.rbfUtxos
     = inr ([Fixture.utxo "b" 12000], Some 374)
  /\ existsb (fun u => BtcChain.includes
                         (map Utxo.txid (Txp.inputs Fixture.rbfProposal))
                         (Utxo.txid u))
             [Fixture.utxo "b" 12000] = false
  /\ BtcChain.sanitizeUtxos Fixture.rbfProposal Fixture.rbfOpts
       [Fixture.lockedUtxo] = [].
Proof. vm_compute. repeat split; reflexivity. Qed.
End Examples.

Section VerifierCopayers.
Context {W : WalletCore}.

(** The counters of [uniq] are never numbers: the increment of an absent
    property stores [NaN], and [NaN] stays [NaN]. *)
Lemma postIncrement_never_truthy (uniq : gmap string (option Z)) (key : string) :
  (forall k v, uniq !! k = Some v -> v = None) ->
  Verifier.truthyCounter (fst (Verifier.postIncrement uniq key)) = false
  /\ (forall k v, snd (Verifier.postIncrement uniq key) !! k = Some v -> v = None).
Proof.
  intros H. unfold Verifier.postIncrement. cbn.
  assert (Hold : Verifier.toNumber (uniq !! key) = None).
  { unfold Verifier.toNumber. destruct (uniq !! key) as [v|] eqn:E; [|reflexivity].
    exact (H _ _ E). }
  rewrite Hold. cbn. split; [reflexivity|].
  intros k v. rewrite lookup_insert. case_decide; [|apply H].
  intros [= <-]. reflexivity.
Qed.
End VerifierCopayers.

Section MoreExamples.
#[local] Existing Instance Fixture.lib.
#[local] Existing Instance Fixture.core.

(** C8, at the failing input. The list reports the copayer with key [xpubA]
    twice, each entry complete and signed with the wallet key; the test for
    repeated keys reads the property [xPubKey] of the list, not of the
    entry, finds [NaN] each time, and [checkCopayers] answers [true].  When
    an entry that lacks a field is followed by another entry, the answer is
    [undefined], not [false]. *)
Theorem checkCopayers_accepts_repeated_keys :
  Verifier.checkCopayers Fixture.credentials [Fixture.alice; Fixture.alice]
  = Some Verifier.AnsTrue
  /\ Verifier.checkCopayers Fixture.credentials [Fixture.unsigned; Fixture.alice]
     = Some Verifier.AnsUndefined
  /\ Verifier.checkCopayers Fixture.credentials [Fixture.alice; Fixture.unsigned]
     = Some Verifier.AnsFalse.
Proof. vm_compute. repeat split; reflexivity. Qed.

(** C7 fails as stated: after a first [setBroadcasted] the status is
    [broadcasted], not [accepted], and a second call still succeeds and
    overwrites the broadcast time. *)
Lemma setBroadcasted_succeeds_outside_accepted :
  TxProposal.setBroadcasted 1700000000000 Fixture.acceptedProposal
    = Some Fixture.broadcastedProposal
  /\ Txp.status Fixture.broadcastedProposal = broadcasted
  /\ TxProposal.setBroadcasted 1700000600000 Fixture.broadcastedProposal
     = Some (Txp.set_broadcastedOn (Some 1700000600) Fixture.broadcastedProposal).
Proof. vm_compute. repeat split; reflexivity. Qed.

Lemma accepted_is_pending_witness :
  Txp.status Fixture.acceptedProposal = accepted
  /\ TxProposal.isPending Fixture.acceptedProposal = true
  /\ TxProposal.obj_isPending (TxProposal.toObject Fixture.acceptedProposal) = true.
Proof.
  split; [reflexivity|].
  apply (accepted_is_pending Fixture.acceptedProposal). reflexivity.
Defined.

(** Scenario B: a proposal of a 2-of-3 wallet is created with two required
    rejections; once published, two reject votes reject it and the accept
    vote of the third copayer, recorded as a third action, leaves it
    rejected. *)
Lemma rejection_quorum_is_final_witness :
  exists p,
    TxProposal.create 1700000000000 "txp" (fun l => l) Fixture.getChain
      Fixture.NETWORKS Fixture.paymentOpts = Some p
    /\ Header.requiredRejections (Txp.header p) = 2
    /\ let p0 := Txp.set_status pending p in
       let p1 := TxProposal.reject 1 "copayer1" None p0 in
       let p2 := TxProposal.reject 2 "copayer2" (Some "no") p1 in
       let vote3 := TxProposalVote.VoteAccept 3 "copayer3"
                      [Fixture.signatureOf "xpubC"; Fixture.signatureOf "xpubC";
                       Fixture.signatureOf "xpubC"] "xpubC" in
       Txp.status p1 = pending
       /\ Txp.status p2 = rejected
       /\ length (Txp.actions (TxProposalVote.votes p2 [vote3])) = 3%nat
       /\ Txp.status (TxProposalVote.votes p2 [vote3]) = rejected
       /\ Txp.status (TxProposalVote.votes p2 [vote3]) <> accepted.
Proof.
  destruct (rejection_quorum_is_final (L := Fixture.lib))
    as (Hcreate & Hquorum & Hreject & Hfinal).
  destruct (Hcreate 1700000000000 "txp" (fun l : list nat => l) Fixture.getChain
              Fixture.NETWORKS Fixture.paymentOpts
              ltac:(left; reflexivity) ltac:(left; reflexivity)
              ltac:(discriminate)) as (p' & Hp' & _).
  eexists. split; [reflexivity|].
  split.
  { exact (proj1 (Hquorum 1700000000000 "txp" (fun l : list nat => l)
                    Fixture.getChain Fixture.NETWORKS Fixture.paymentOpts _
                    eq_refl)). }
  cbv zeta.
  match goal with
  | |- _ /\ Txp.status ?q = rejected /\ _ =>
      assert (H2 : Txp.status q = rejected)
        by (apply Hreject; [reflexivity | vm_compute; discriminate])
  end.
  split; [reflexivity|]. split; [exact H2|].
  split; [vm_compute; reflexivity|]. exact (Hfinal _ _ H2).
Defined.

(** Adding signatures does not change what is signed. *)
Lemma reached_keeps_digest (tx t : Fixture.Tx) :
  TxProposalVote.Reached tx t -> Fixture.tx_digest t = Fixture.tx_digest tx.
Proof.
  induction 1 as [|t i s pub method t' Hr IH Ha]; [reflexivity|].
  cbn in Ha. destruct (Fixture.tx_signatures t !! i); [|discriminate].
  destruct (String.eqb s _); [|discriminate].
  injection Ha as <-. exact IH.
Qed.

(** Scenario C, on a proposal of three inputs: a vote with two signatures;
    a vote whose second signature is another copayer's; and a vote whose
    second signature is the copayer's own, but for the transaction of
    another proposal.  Each vote is refused and leaves the proposal as it
    was. *)
Lemma sign_is_all_or_nothing_witness :
  TxProposalVote.sign 5 "copayer2"
    [Fixture.signatureOf "xpubB"; Fixture.signatureOf "xpubB"] "xpubB"
    Fixture.threeInputs = (false, Fixture.threeInputs)
  /\ TxProposalVote.sign 5 "copayer2"
       [Fixture.signatureOf "xpubB"; Fixture.signatureOf "xpubC";
        Fixture.signatureOf "xpubB"] "xpubB"
       Fixture.threeInputs = (false, Fixture.threeInputs)
  /\ TxProposalVote.sign 5 "copayer2"
       [Fixture.signatureOf "xpubB";
        Fixture.signatureFor "xpubB" Fixture.otherPayment;
        Fixture.signatureOf "xpubB"] "xpubB"
       Fixture.threeInputs = (false, Fixture.threeInputs).
Proof.
  split; [|split].
  - apply (sign_is_all_or_nothing (HL := Fixture.lib_laws)).
    left. vm_compute. discriminate.
  - apply (sign_is_all_or_nothing (HL := Fixture.lib_laws)).
    right. exists 1%nat, (Fixture.signatureOf "xpubC").
    split; [reflexivity|].
    intros tx t x s path pub Htx Hr Hx Hs Hp Hd.
    injection Hx as <-. injection Hs as <-. injection Hp as <-. injection Hd as <-.
    cbn. destruct (Fixture.tx_signatures t !! 1%nat); reflexivity.
  - apply (sign_is_all_or_nothing (HL := Fixture.lib_laws)).
    right. exists 1%nat, (Fixture.signatureFor "xpubB" Fixture.otherPayment).
    split; [reflexivity|].
    intros tx t x s path pub Htx Hr Hx Hs Hp Hd.
    injection Hx as <-. injection Hs as <-. injection Hp as <-. injection Hd as <-.
    apply reached_keeps_digest in Hr.
    vm_compute in Htx. injection Htx as <-.
    cbn. rewrite Hr.
    destruct (Fixture.tx_signatures t !! 1%nat); reflexivity.
Defined.

(** A vote with one valid signature per input is recorded. *)
Example sign_records_a_valid_vote :
  let r := TxProposalVote.sign 5 "copayer2"
             [Fixture.signatureOf "xpubB"; Fixture.signatureOf "xpubB";
              Fixture.signatureOf "xpubB"] "xpubB" Fixture.threeInputs in
  fst r = true /\ length (Txp.actions (snd r)) = 1%nat
  /\ Txp.status (snd r) = pending.
Proof. vm_compute. repeat split; reflexivity. Qed.

(** The address derived for the wallet's path [m/0/5] is accepted when the
    server reports it, in and out of regtest mode. *)
Lemma checkAddress_accepts_derived_witness :
  exists d,
    Utils.deriveAddress P2SH (Verifier.publicKeyRing Fixture.credentials) "m/0/5" 2
      "regtest" (Some "btc") None None None = Some d
    /\ Verifier.checkAddress true Fixture.credentials
         (Verifier.mkAddressReport None (Utils.d_address d) (Utils.d_path d)
            (Utils.d_publicKeys d)) None = Some true.
Proof.
  eexists. split; [reflexivity|].
  refine (proj1 (checkAddress_accepts_derived true Fixture.credentials None P2SH
                   "m/0/5" None _ _ _ _)); reflexivity.
Defined.
End MoreExamples.

(** * Further properties *)

(** ** Votes and quorums *)

Section VoteProperties.
Context {L : BitcoreLib}.

Lemma votes_accept (p : Txp.t) :
  TxProposal.votes p !! "accept" =
  let c := TxProposalVote.countAccepts p in
  if Nat.eqb c 0 then None else Some c.
Proof.
  unfold TxProposal.votes. rewrite countBy_lookup. unfold TxProposalVote.countAccepts.
  cbn. erewrite filter_ext; [reflexivity|].
  intros a. cbn. destruct (Action.type a); reflexivity.
Qed.

Lemma isAccepted_count (p : Txp.t) :
  TxProposal.isAccepted p = true <->
  (0 < TxProposalVote.countAccepts p)%nat
  /\ Header.requiredSignatures (Txp.header p)
     <= Z.of_nat (TxProposalVote.countAccepts p).
Proof.
  unfold TxProposal.isAccepted. rewrite votes_accept. cbv zeta.
  destruct (Nat.eqb_spec (TxProposalVote.countAccepts p) 0) as [E|E]; cbn.
  - split; [discriminate | lia].
  - rewrite Z.leb_le. split; [intros H; split; [lia | exact H] | tauto].
Qed.

Lemma isRejected_count (p : Txp.t) :
  TxProposal.isRejected p = true <->
  (0 < TxProposalVote.countRejects p)%nat
  /\ Header.requiredRejections (Txp.header p)
     <= Z.of_nat (TxProposalVote.countRejects p).
Proof.
  unfold TxProposal.isRejected. rewrite votes_reject. cbv zeta.
  destruct (Nat.eqb_spec (TxProposalVote.countRejects p) 0) as [E|E]; cbn.
  - split; [discriminate | lia].
  - rewrite Z.leb_le. split; [intros H; split; [lia | exact H] | tauto].
Qed.

(** X1. A quorum needs a vote: [isAccepted] holds exactly when there is at least
    one accept action and there are at least [requiredSignatures] of them,
    and [isRejected] likewise for the reject actions; with no action of the
    kind the answer is [false] even when the required number is zero or
    negative. *)
Theorem quorum_needs_a_vote (p : Txp.t) :
  (TxProposal.isAccepted p = true <->
   (0 < TxProposalVote.countAccepts p)%nat
   /\ Header.requiredSignatures (Txp.header p)
      <= Z.of_nat (TxProposalVote.countAccepts p))
  /\ (TxProposal.isRejected p = true <->
      (0 < TxProposalVote.countRejects p)%nat
      /\ Header.requiredRejections (Txp.header p)
         <= Z.of_nat (TxProposalVote.countRejects p)).
Proof. split; [apply isAccepted_count | apply isRejected_count]. Qed.

Lemma sign_status_frozen now c sigs xpub (p : Txp.t) :
  Txp.status p <> pending ->
  Txp.status (snd (TxProposalVote.sign now c sigs xpub p)) = Txp.status p.
Proof.
  intros H. unfold TxProposalVote.sign.
  destruct (BtcChain.getBitcoreTx p true) as [tx|]; [|reflexivity].
  destruct (BtcChain.addSignaturesToBitcoreTx _ _ _ _ _ _) as [tx'|]; [|reflexivity].
  pose proof (addAction_status_final now c Accept None (Some sigs) (Some xpub) p H) as Hs.
  destruct (Txp.status (TxProposal.addAction _ _ _ _ _ _ p)) eqn:E;
    cbn [snd]; try (rewrite E; exact Hs).
  destruct (Header.multiTx _); cbn; rewrite E; exact Hs.
Qed.

Lemma vote_status_frozen (p : Txp.t) (v : TxProposalVote.Vote) :
  Txp.status p <> pending ->
  Txp.status (TxProposalVote.vote p v) = Txp.status p.
Proof.
  intros H. destruct v as [now c sigs xpub | now c reason]; cbn.
  - apply sign_status_frozen, H.
  - unfold TxProposal.reject. apply addAction_status_final, H.
Qed.

(** X2. Votes move a proposal only out of [pending]: in any other status no
    sequence of accept and reject votes changes the status. *)
Theorem votes_change_only_pending (p : Txp.t) (vs : list TxProposalVote.Vote) :
  Txp.status p <> pending ->
  Txp.status (TxProposalVote.votes p vs) = Txp.status p.
Proof.
  unfold TxProposalVote.votes.
  revert p. induction vs as [|v vs IH]; intros p H; cbn [foldl]; [reflexivity|].
  pose proof (vote_status_frozen p v H) as Hv.
  rewrite IH; [exact Hv | rewrite Hv; exact H].
Qed.

End VoteProperties.

Lemma votes_change_only_pending_witness :
  Txp.status
    (TxProposalVote.votes (L := Fixture.lib) Fixture.acceptedProposal
       [TxProposalVote.VoteReject 5 "copayer1" None;
        TxProposalVote.VoteAccept 6 "copayer1" [Fixture.signatureOf "xpubA"] "xpubA"])
  = accepted.
Proof.
  apply (votes_change_only_pending (L := Fixture.lib) Fixture.acceptedProposal).
  vm_compute. discriminate.
Defined.

Section VoteInvariants.
Context {L : BitcoreLib}.

Lemma updateStatus_frame (p : Txp.t) :
  TxProposalVote.SameBody p (TxProposal._updateStatus p)
  /\ Txp.actions (TxProposal._updateStatus p) = Txp.actions p
  /\ Txp.raw (TxProposal._updateStatus p) = Txp.raw p
  /\ Txp.txid (TxProposal._updateStatus p) = Txp.txid p.
Proof.
  unfold TxProposalVote.SameBody, TxProposal._updateStatus.
  destruct (Txp.status p); try (repeat split; reflexivity).
  destruct (TxProposal.isRejected p); [repeat split; reflexivity|].
  destruct (TxProposal.isAccepted p); repeat split; reflexivity.
Qed.

Lemma addAction_frame now c t cm sg xp (p : Txp.t) :
  TxProposalVote.SameBody p (TxProposal.addAction now c t cm sg xp p)
  /\ Txp.actions (TxProposal.addAction now c t cm sg xp p)
     = Txp.actions p ++ [Action.mk now c t sg xp cm]
  /\ Txp.raw (TxProposal.addAction now c t cm sg xp p) = Txp.raw p
  /\ Txp.txid (TxProposal.addAction now c t cm sg xp p) = Txp.txid p.
Proof.
  unfold TxProposal.addAction.
  destruct (updateStatus_frame
              (Txp.set_actions (Txp.actions p ++ [Action.mk now c t sg xp cm]) p))
    as (Hb & Ha & Hr & Ht).
  repeat split; try apply Hb; assumption.
Qed.

Lemma vote_frame (p : Txp.t) (v : TxProposalVote.Vote) :
  TxProposalVote.SameBody p (TxProposalVote.vote p v)
  /\ exists added, Txp.actions (TxProposalVote.vote p v) = Txp.actions p ++ added
                   /\ (length added <= 1)%nat.
Proof.
  destruct v as [now c sigs xpub | now c reason]; cbn [TxProposalVote.vote].
  - unfold TxProposalVote.sign.
    destruct (BtcChain.getBitcoreTx p true) as [tx|];
      [|split; [repeat split | exists []; rewrite app_nil_r; split; [reflexivity | cbn; lia]]].
    destruct (BtcChain.addSignaturesToBitcoreTx _ _ _ _ _ _) as [tx'|];
      [|split; [repeat split | exists []; rewrite app_nil_r; split; [reflexivity | cbn; lia]]].
    destruct (addAction_frame now c Accept None (Some sigs) (Some xpub) p)
      as (Hb & Ha & _).
    destruct (Txp.status (TxProposal.addAction _ _ _ _ _ _ p)); cbn [snd];
      try (split; [exact Hb | eexists; split; [exact Ha | cbn; lia]]).
    destruct (Header.multiTx _);
      (split; [exact Hb | eexists; split; [exact Ha | cbn; lia]]).
  - unfold TxProposal.reject.
    destruct (addAction_frame now c Reject reason None None p) as (Hb & Ha & _).
    split; [exact Hb | eexists; split; [exact Ha | cbn; lia]].
Qed.

(** X3. Votes only add to the record: whatever votes are cast, the actions
    already recorded stay in place and in order, each vote appends at most
    one action, and the header, the inputs, their paths, the fee and the
    broadcast time are left as they were. *)
Theorem votes_only_append_actions (p : Txp.t) (vs : list TxProposalVote.Vote) :
  (exists added,
      Txp.actions (TxProposalVote.votes p vs) = Txp.actions p ++ added
      /\ (length added <= length vs)%nat)
  /\ Txp.header (TxProposalVote.votes p vs) = Txp.header p
  /\ Txp.inputs (TxProposalVote.votes p vs) = Txp.inputs p
  /\ Txp.inputPaths (TxProposalVote.votes p vs) = Txp.inputPaths p
  /\ Txp.fee (TxProposalVote.votes p vs) = Txp.fee p
  /\ Txp.broadcastedOn (TxProposalVote.votes p vs) = Txp.broadcastedOn p.
Proof.
  unfold TxProposalVote.votes.
  revert p. induction vs as [|v vs IH]; intros p; cbn [foldl].
  - split; [exists []; rewrite app_nil_r; split; [reflexivity | cbn; lia]|].
    repeat split.
  - destruct (vote_frame p v) as ((H1 & H2 & H3 & H4 & H5) & a1 & Ha1 & Hl1).
    destruct (IH (TxProposalVote.vote p v))
      as ((a2 & Ha2 & Hl2) & G1 & G2 & G3 & G4 & G5).
    split.
    + exists (a1 ++ a2). rewrite Ha2, Ha1, <- app_assoc. split; [reflexivity|].
      rewrite length_app. cbn. lia.
    + rewrite G1, G2, G3, G4, G5. repeat split; assumption.
Qed.

Lemma countAccepts_app (p : Txp.t) (a : Action.t) (q : Txp.t) :
  Txp.actions q = Txp.actions p ++ [a] ->
  TxProposalVote.countAccepts q =
    (TxProposalVote.countAccepts p
     + match Action.type a with Accept => 1 | Reject => 0 end)%nat.
Proof.
  intros H. unfold TxProposalVote.countAccepts. rewrite H.
  rewrite List.filter_app, length_app. cbn. destruct (Action.type a); reflexivity.
Qed.

Lemma countRejects_app (p : Txp.t) (a : Action.t) (q : Txp.t) :
  Txp.actions q = Txp.actions p ++ [a] ->
  TxProposalVote.countRejects q =
    (TxProposalVote.countRejects p
     + match Action.type a with Accept => 0 | Reject => 1 end)%nat.
Proof.
  intros H. unfold TxProposalVote.countRejects. rewrite H.
  rewrite List.filter_app, length_app. cbn. destruct (Action.type a); reflexivity.
Qed.

Lemma isAccepted_counts (p q : Txp.t) :
  Txp.header q = Txp.header p ->
  TxProposalVote.countAccepts q = TxProposalVote.countAccepts p ->
  TxProposal.isAccepted q = TxProposal.isAccepted p.
Proof.
  intros Hh Hc. unfold TxProposal.isAccepted.
  rewrite !votes_accept, Hh, Hc. reflexivity.
Qed.

Lemma isRejected_counts (p q : Txp.t) :
  Txp.header q = Txp.header p ->
  TxProposalVote.countRejects q = TxProposalVote.countRejects p ->
  TxProposal.isRejected q = TxProposal.isRejected p.
Proof.
  intros Hh Hc. unfold TxProposal.isRejected.
  rewrite !votes_reject, Hh, Hc. reflexivity.
Qed.

Lemma isAccepted_mono (p q : Txp.t) :
  Txp.header q = Txp.header p ->
  (TxProposalVote.countAccepts p <= TxProposalVote.countAccepts q)%nat ->
  TxProposal.isAccepted p = true -> TxProposal.isAccepted q = true.
Proof.
  intros Hh Hc H.
  apply isAccepted_count in H. apply isAccepted_count. rewrite Hh. lia.
Qed.

Lemma isRejected_mono (p q : Txp.t) :
  Txp.header q = Txp.header p ->
  (TxProposalVote.countRejects p <= TxProposalVote.countRejects q)%nat ->
  TxProposal.isRejected p = true -> TxProposal.isRejected q = true.
Proof.
  intros Hh Hc H.
  apply isRejected_count in H. apply isRejected_count. rewrite Hh. lia.
Qed.
End VoteInvariants.

Section Tally.
Context {L : BitcoreLib}.

Lemma isAccepted_ext (p q : Txp.t) :
  Txp.header q = Txp.header p -> Txp.actions q = Txp.actions p ->
  TxProposal.isAccepted q = TxProposal.isAccepted p.
Proof.
  intros Hh Ha. unfold TxProposal.isAccepted, TxProposal.votes.
  rewrite Hh, Ha. reflexivity.
Qed.

Lemma isRejected_ext (p q : Txp.t) :
  Txp.header q = Txp.header p -> Txp.actions q = Txp.actions p ->
  TxProposal.isRejected q = TxProposal.isRejected p.
Proof.
  intros Hh Ha. unfold TxProposal.isRejected, TxProposal.votes.
  rewrite Hh, Ha. reflexivity.
Qed.

Lemma Tallied_ext (p q : Txp.t) :
  Txp.header q = Txp.header p -> Txp.actions q = Txp.actions p ->
  Txp.status q = Txp.status p -> Txp.txid q = Txp.txid p -> Txp.raw q = Txp.raw p ->
  TxProposalVote.Tallied p -> TxProposalVote.Tallied q.
Proof.
  intros Hh Ha Hs Ht Hr. unfold TxProposalVote.Tallied.
  rewrite Hs, Ht, Hr, (isAccepted_ext p q Hh Ha), (isRejected_ext p q Hh Ha).
  tauto.
Qed.

(** The proposal with one more action, before its status is looked at. *)
Local Abbreviation withAction a p :=
  (Txp.set_actions (Txp.actions p ++ [a]) p).

Lemma withAction_accept (a : Action.t) (p : Txp.t) :
  Action.type a = Accept ->
  TxProposal.isRejected (withAction a p) = TxProposal.isRejected p
  /\ (TxProposal.isAccepted p = true ->
      TxProposal.isAccepted (withAction a p) = true).
Proof.
  intros Ht. split.
  - apply isRejected_counts; [reflexivity|].
    rewrite (countRejects_app p a); [rewrite Ht; lia | reflexivity].
  - apply isAccepted_mono; [reflexivity|].
    rewrite (countAccepts_app p a (withAction a p)); [lia | reflexivity].
Qed.

Lemma withAction_reject (a : Action.t) (p : Txp.t) :
  Action.type a = Reject ->
  TxProposal.isAccepted (withAction a p) = TxProposal.isAccepted p
  /\ (TxProposal.isRejected p = true ->
      TxProposal.isRejected (withAction a p) = true).
Proof.
  intros Ht. split.
  - apply isAccepted_counts; [reflexivity|].
    rewrite (countAccepts_app p a); [rewrite Ht; lia | reflexivity].
  - apply isRejected_mono; [reflexivity|].
    rewrite (countRejects_app p a (withAction a p)); [lia | reflexivity].
Qed.

Lemma updateStatus_cases (q : Txp.t) :
  Txp.status q = pending ->
  (TxProposal.isRejected q = true
   /\ TxProposal._updateStatus q = Txp.set_status rejected q)
  \/ (TxProposal.isRejected q = false /\ TxProposal.isAccepted q = true
      /\ TxProposal._updateStatus q = Txp.set_status accepted q)
  \/ (TxProposal.isRejected q = false /\ TxProposal.isAccepted q = false
      /\ TxProposal._updateStatus q = q).
Proof.
  intros H. unfold TxProposal._updateStatus. rewrite H.
  destruct (TxProposal.isRejected q); [left; auto|].
  destruct (TxProposal.isAccepted q); [right; left; auto | right; right; auto].
Qed.

Lemma Tallied_intro (q : Txp.t) :
  match Txp.status q with
  | pending => TxProposal.isAccepted q = false /\ TxProposal.isRejected q = false
  | accepted =>
      TxProposal.isAccepted q = true /\ Txp.txid q <> None /\ Txp.raw q <> None
  | rejected => TxProposal.isRejected q = true
  | temporary | broadcasted => False
  end -> TxProposalVote.Tallied q.
Proof. exact (fun H => H). Qed.

Lemma reject_Tallied now c reason (p : Txp.t) :
  TxProposalVote.Tallied p ->
  TxProposalVote.Tallied (TxProposal.reject now c reason p).
Proof.
  intros T. unfold TxProposal.reject, TxProposal.addAction.
  set (a := Action.mk now c Reject None None reason).
  destruct (withAction_reject a p eq_refl) as [HA HR].
  assert (Hs : Txp.status (withAction a p) = Txp.status p) by reflexivity.
  assert (Ht : Txp.txid (withAction a p) = Txp.txid p) by reflexivity.
  assert (Hr : Txp.raw (withAction a p) = Txp.raw p) by reflexivity.
  revert HA HR Hs Ht Hr. generalize (withAction a p) as q. intros q HA HR Hs Ht Hr.
  unfold TxProposalVote.Tallied in T.
  destruct (Txp.status p) eqn:Es; try contradiction.
  - destruct T as [Ta Tr].
    destruct (updateStatus_cases q Hs) as [[E1 ->] | [(E1 & E2 & ->) | (E1 & E2 & ->)]].
    + apply Tallied_intro. cbn [Txp.status Txp.set_status].
      rewrite <- E1. apply isRejected_ext; reflexivity.
    + congruence.
    + apply Tallied_intro. rewrite Hs. auto.
  - rewrite updateStatus_not_pending by congruence.
    apply Tallied_intro. rewrite Hs, HA, Ht, Hr. exact T.
  - rewrite updateStatus_not_pending by congruence.
    apply Tallied_intro. rewrite Hs. apply HR, T.
Qed.

Lemma accepted_Tallied (tx : Transaction) (q : Txp.t) :
  TxProposal.isAccepted q = true -> Txp.status q = accepted ->
  TxProposalVote.Tallied
    (let p := Txp.set_raw (Some (uncheckedSerialize tx)) q in
     let p := Txp.set_txid (Some (Transaction_id tx)) p in
     if Header.multiTx (Txp.header p)
     then Txp.set_txids (Some [Transaction_id tx]) p else p).
Proof.
  intros Ha Hs. cbv zeta.
  destruct (Header.multiTx _); apply Tallied_intro; cbn; rewrite Hs;
    (split; [rewrite <- Ha; apply isAccepted_ext; reflexivity
            | split; discriminate]).
Qed.

Lemma sign_Tallied now c sigs xpub (p : Txp.t) :
  TxProposalVote.Tallied p ->
  TxProposalVote.Tallied (snd (TxProposalVote.sign now c sigs xpub p)).
Proof.
  intros T. unfold TxProposalVote.sign.
  destruct (BtcChain.getBitcoreTx p true) as [tx|]; [|exact T].
  destruct (BtcChain.addSignaturesToBitcoreTx _ _ _ _ _ _) as [tx'|]; [|exact T].
  unfold TxProposal.addAction.
  set (a := Action.mk now c Accept (Some sigs) (Some xpub) None).
  destruct (withAction_accept a p eq_refl) as [HR HA].
  assert (Hs : Txp.status (withAction a p) = Txp.status p) by reflexivity.
  revert HA HR Hs. generalize (withAction a p) as q. intros q HA HR Hs.
  unfold TxProposalVote.Tallied in T.
  destruct (Txp.status p) eqn:Es; try contradiction.
  - destruct T as [Ta Tr].
    destruct (updateStatus_cases q Hs) as [[E1 E] | [(E1 & E2 & E) | (E1 & E2 & E)]];
      rewrite E.
    + congruence.
    + cbn [Txp.status Txp.set_status]. cbn [snd].
      apply (accepted_Tallied tx' (Txp.set_status accepted q)); [|reflexivity].
      rewrite <- E2. apply isAccepted_ext; reflexivity.
    + rewrite Hs. cbn [snd]. apply Tallied_intro. rewrite Hs. auto.
  - rewrite updateStatus_not_pending by congruence. rewrite Hs. cbn [snd].
    apply (accepted_Tallied tx' q); [apply HA, T | exact Hs].
  - rewrite updateStatus_not_pending by congruence. rewrite Hs. cbn [snd].
    apply Tallied_intro. rewrite Hs, HR. exact T.
Qed.

Lemma vote_Tallied (p : Txp.t) (v : TxProposalVote.Vote) :
  TxProposalVote.Tallied p -> TxProposalVote.Tallied (TxProposalVote.vote p v).
Proof.
  destruct v; cbn [TxProposalVote.vote]; [apply sign_Tallied | apply reject_Tallied].
Qed.

(** X4. The status of a proposal agrees with its votes.  From a pending
    proposal without actions, after any sequence of accept and reject
    votes: the status is pending, accepted or rejected; if accepted, there
    are at least [requiredSignatures] accept actions (and at least one) and
    the raw transaction and its id are recorded; if rejected, there are at
    least [requiredRejections] reject actions (and at least one); if still
    pending, neither quorum is reached. *)
Theorem status_agrees_with_votes (p0 : Txp.t) (vs : list TxProposalVote.Vote) :
  Txp.status p0 = pending -> Txp.actions p0 = [] ->
  let p := TxProposalVote.votes p0 vs in
  match Txp.status p with
  | pending => TxProposal.isAccepted p = false /\ TxProposal.isRejected p = false
  | accepted =>
      (0 < TxProposalVote.countAccepts p)%nat
      /\ Header.requiredSignatures (Txp.header p0)
         <= Z.of_nat (TxProposalVote.countAccepts p)
      /\ Txp.txid p <> None /\ Txp.raw p <> None
  | rejected =>
      (0 < TxProposalVote.countRejects p)%nat
      /\ Header.requiredRejections (Txp.header p0)
         <= Z.of_nat (TxProposalVote.countRejects p)
  | temporary | broadcasted => False
  end.
Proof.
  intros Hs Ha p.
  assert (T0 : TxProposalVote.Tallied p0).
  { unfold TxProposalVote.Tallied. rewrite Hs.
    unfold TxProposal.isAccepted, TxProposal.isRejected, TxProposal.votes.
    rewrite Ha. split; reflexivity. }
  assert (T : TxProposalVote.Tallied p /\ Txp.header p = Txp.header p0).
  { subst p. clear Hs Ha. unfold TxProposalVote.votes.
    revert p0 T0. induction vs as [|v vs IH]; intros p0 T0; cbn [foldl].
    - split; [exact T0 | reflexivity].
    - destruct (IH _ (vote_Tallied p0 v T0)) as [T Hh]. split; [exact T|].
      rewrite Hh. apply (vote_frame p0 v). }
  destruct T as [T Hh]. unfold TxProposalVote.Tallied in T.
  destruct (Txp.status p); try exact T.
  - destruct T as (T1 & T2 & T3). apply isAccepted_count in T1.
    rewrite Hh in T1. tauto.
  - apply isRejected_count in T. rewrite Hh in T. exact T.
Qed.
End Tally.

Lemma status_agrees_with_votes_witness :
  let p := TxProposalVote.votes (L := Fixture.lib) Fixture.threeInputs
             [TxProposalVote.VoteAccept 5 "copayer1"
                (replicate 3 (Fixture.signatureOf "xpubA")) "xpubA";
              TxProposalVote.VoteReject 6 "copayer2" None;
              TxProposalVote.VoteAccept 7 "copayer3"
                (replicate 3 (Fixture.signatureOf "xpubC")) "xpubC"] in
  Txp.status p = accepted /\ TxProposalVote.countAccepts p = 2%nat
  /\ Txp.txid p <> None.
Proof.
  pose proof (status_agrees_with_votes (L := Fixture.lib) Fixture.threeInputs
    [TxProposalVote.VoteAccept 5 "copayer1"
       (replicate 3 (Fixture.signatureOf "xpubA")) "xpubA";
     TxProposalVote.VoteReject 6 "copayer2" None;
     TxProposalVote.VoteAccept 7 "copayer3"
       (replicate 3 (Fixture.signatureOf "xpubC")) "xpubC"]
    eq_refl eq_refl) as H.
  cbv zeta in *.
  split; [vm_compute; reflexivity|]. split; [vm_compute; reflexivity|].
  replace (Txp.status _) with accepted in H by (vm_compute; reflexivity).
  tauto.
Defined.

Section SigningCompleteness.
Context {L : BitcoreLib} {HL : BitcoreLibLaws L}.

Lemma signLoop_accepted x paths method (signatures : list string) :
  forall (i0 : nat) (tx0 : Transaction),
    TxProposalVote.AcceptedInTurn x paths method tx0 i0 signatures ->
    fst (foldl (fun '(i, tx) signatureHex =>
                  match BtcChain.trySignature x paths method tx i signatureHex with
                  | Some tx' => (S i, tx')
                  | None => (i, tx)
                  end) (i0, tx0) signatures)
    = (i0 + length signatures)%nat.
Proof.
  induction signatures as [|sig rest IH]; intros i0 tx0 H; cbn [foldl length].
  - cbn. lia.
  - cbn [TxProposalVote.AcceptedInTurn] in H.
    destruct H as (s & path & pub & tx' & Hs & Hp & Hd & Ha & Hrest).
    assert (E : BtcChain.trySignature x paths method tx0 i0 sig = Some tx').
    { unfold BtcChain.trySignature. rewrite Hs. cbn. rewrite Hp. cbn.
      rewrite Hd. cbn. exact Ha. }
    rewrite E, (IH (S i0) tx' Hrest). lia.
Qed.

(** X5. A complete set of valid signatures is always recorded.  When the
    proposal builds into a transaction, the extended public key parses,
    there is one signature per input, and the library accepts the
    signatures in turn (each one parses, the key at the path of its input
    derives, and the signature is accepted for that input on the
    transaction that carries the signatures before it), [sign] returns
    [true] and appends one accept action that carries these signatures and
    this key. *)
Theorem sign_records_valid_signatures now c sigs xpub x tx (p : Txp.t) :
  BtcChain.getBitcoreTx p true = Some tx ->
  length sigs = length (Txp.inputs p) ->
  HDPublicKey_new xpub = Some x ->
  TxProposalVote.AcceptedInTurn x (Txp.inputPaths p) (TxProposalVote.methodOf p)
    tx 0 sigs ->
  fst (TxProposalVote.sign now c sigs xpub p) = true
  /\ Txp.actions (snd (TxProposalVote.sign now c sigs xpub p))
     = Txp.actions p ++ [TxProposalVote.acceptAction now c sigs xpub].
Proof.
  intros Htx Hlen Hx Hall.
  pose proof (getBitcoreTx_inputs p true tx Htx) as Hin.
  unfold TxProposalVote.sign. rewrite Htx.
  unfold BtcChain.addSignaturesToBitcoreTx. fold (TxProposalVote.methodOf p).
  rewrite Hlen, Nat.eqb_refl. cbn [negb]. rewrite Hx. cbn.
  pose proof (signLoop_accepted x (Txp.inputPaths p) (TxProposalVote.methodOf p)
                sigs 0%nat tx Hall) as Hc.
  pose proof (signLoop_spec x (Txp.inputPaths p) (TxProposalVote.methodOf p)
                sigs 0%nat tx) as (_ & Hl & _).
  unfold BtcChain.signLoop.
  destruct (foldl _ (0%nat, tx) sigs) as [i tx'] eqn:Ef. cbn in Hc, Hl.
  rewrite Hc, Hl, Hin, Hlen, Nat.eqb_refl. cbn [negb].
  destruct (addAction_frame now c Accept None (Some sigs) (Some xpub) p)
    as (_ & Ha & _).
  destruct (Txp.status (TxProposal.addAction _ _ _ _ _ _ p)); cbn [fst snd];
    try (split; [reflexivity | exact Ha]).
  destruct (Header.multiTx _); (split; [reflexivity | exact Ha]).
Qed.
End SigningCompleteness.

Lemma sign_records_valid_signatures_witness :
  let r := TxProposalVote.sign (L := Fixture.lib) 5 "copayer2"
             (replicate 3 (Fixture.signatureOf "xpubB")) "xpubB"
             Fixture.threeInputs in
  fst r = true /\ length (Txp.actions (snd r)) = 1%nat.
Proof.
  cbv zeta.
  eassert (Htx : BtcChain.getBitcoreTx (L := Fixture.lib) Fixture.threeInputs true
                 = Some _) by (vm_compute; reflexivity).
  destruct (sign_records_valid_signatures (L := Fixture.lib)
              (HL := Fixture.lib_laws) 5 "copayer2"
              (replicate 3 (Fixture.signatureOf "xpubB")) "xpubB" "xpubB" _
              Fixture.threeInputs Htx eq_refl eq_refl) as [H1 H2].
  { cbn [replicate TxProposalVote.AcceptedInTurn].
    do 3 (eexists _, "m/0/0", _, _;
          split; [reflexivity|]; split; [reflexivity|]; split; [reflexivity|];
          split; [vm_compute; reflexivity|]).
    exact I. }
  split; [exact H1 | rewrite H2; reflexivity].
Defined.

Section Actors.

(** X6. Who acted on a proposal.  The approvers are the copayers of the accept
    actions, so each approver is an actor and there are as many approvers as
    accept actions; [getActionBy] finds an action exactly for the actors,
    and the action it returns is the first one of that copayer. *)
Theorem getActionBy_finds_the_first_action (p : Txp.t) (copayerId : string) :
  (forall c, In c (TxProposal.getApprovers p) -> In c (TxProposal.getActors p))
  /\ length (TxProposal.getApprovers p) = TxProposalVote.countAccepts p
  /\ (is_Some (TxProposal.getActionBy copayerId p) <->
      In copayerId (TxProposal.getActors p))
  /\ forall a, TxProposal.getActionBy copayerId p = Some a ->
       Action.copayerId a = copayerId
       /\ exists before after,
            Txp.actions p = before ++ a :: after
            /\ ~ In copayerId (map Action.copayerId before).
Proof.
  unfold TxProposal.getApprovers, TxProposal.getActors, TxProposal.getActionBy,
    TxProposalVote.countAccepts.
  split; [|split; [|split]].
  - intros c Hc. apply in_map_iff in Hc. destruct Hc as (a & <- & Ha).
    apply filter_In in Ha. apply in_map. apply Ha.
  - apply length_map.
  - induction (Txp.actions p) as [|a l IH]; cbn.
    + split; [intros [x Hx]; discriminate | intros []].
    + destruct (String.eqb_spec (Action.copayerId a) copayerId) as [E|E].
      * split; [intros _; left; exact E | intros _; eexists; reflexivity].
      * rewrite IH. split; [intros H; right; exact H | intros [H|H]; tauto].
  - induction (Txp.actions p) as [|x l IH]; cbn; [discriminate|].
    intros a. destruct (String.eqb_spec (Action.copayerId x) copayerId) as [E|E].
    + intros [= <-]. split; [exact E|]. exists [], l. split; [reflexivity | intros []].
    + intros H. destruct (IH a H) as (Hc & before & after & -> & Hn).
      split; [exact Hc|]. exists (x :: before), after. split; [reflexivity|].
      cbn. intros [H1|H1]; [contradiction | exact (Hn H1)].
Qed.
End Actors.

(** ** Creation and storage of proposals *)

Section CreateProperties.
Variable now : Z.
Variable uuid : string.
Variable shuffle : list nat -> list nat.
Variable getChain : string -> string.
Variable NETWORKS : string -> list string.

(** X7. A proposal that [create] returns has version 3 whatever version was
    asked for, is temporary (so not pending), carries no action, no raw
    transaction and no transaction id, holds one path per input, and its
    network is one of the networks of its chain. *)
Theorem create_makes_a_temporary_version_3_proposal
    (opts : TxProposal.CreateOpts) (p : Txp.t) :
  TxProposal.create now uuid shuffle getChain NETWORKS opts = Some p ->
  Header.version (Txp.header p) = 3
  /\ Txp.status p = temporary /\ TxProposal.isPending p = false
  /\ Txp.actions p = [] /\ Txp.raw p = None /\ Txp.txid p = None
  /\ Txp.inputPaths p = map Utxo.path (Txp.inputs p)
  /\ In (Header.network (Txp.header p)) (NETWORKS (Header.chain (Txp.header p))).
Proof.
  unfold TxProposal.create.
  set (chain := match TxProposal.o_chain opts with Some _ => _ | None => _ end).
  destruct (existsb _ (NETWORKS chain)) eqn:En; [|discriminate]. cbn [negb].
  apply existsb_exists in En. destruct En as (nw & Hin & Heq).
  apply String.eqb_eq in Heq. subst nw.
  assert (Hv : forall (v : Z) (b : bool),
                 ((if b then v else 3) <=? 3) = true ->
                 andb b (negb (3 <=? v)) = false -> (if b then v else 3) = 3).
  { intros v [|] H1 H2; [|reflexivity]. cbn in H2.
    apply negb_false_iff in H2. lia. }
  destruct (andb _ _) eqn:E1; [discriminate|].
  destruct (_ <=? 3) eqn:E2; [|discriminate]. cbn [negb].
  pose proof (Hv _ _ E2 E1) as V.
  destruct (match TxProposal.o_addressType opts with Some a => a | None => _ end);
    intros H; try discriminate H; injection H as <-; cbn;
    (split; [exact V|]); repeat split; exact Hin.
Qed.
End CreateProperties.

Lemma create_makes_a_temporary_version_3_proposal_witness :
  exists p,
    TxProposal.create 1700000000000 "id-1" (fun l => l) Fixture.getChain
      Fixture.NETWORKS Fixture.createOpts = Some p
    /\ Header.version (Txp.header p) = 3 /\ Txp.status p = temporary.
Proof.
  eexists. split; [reflexivity|].
  pose proof (create_makes_a_temporary_version_3_proposal 1700000000000 "id-1"
                (fun l => l) Fixture.getChain Fixture.NETWORKS
                Fixture.createOpts _ eq_refl) as H.
  destruct H as (H1 & H2 & _). split; [exact H1 | exact H2].
Defined.

Section Storage.
Variable getChain : string -> string.
Variable actionFromObj : Action.t -> Action.t.

(** X8. Storing a proposal and reading it back keeps everything but the raw
    transaction: for a proposal of version 3 or more with a coin and a
    lower-case chain, whose actions are read back as they were written,
    [fromObj] of [toObject] returns the proposal itself when it was
    broadcast, and the proposal without its raw transaction in every other
    status (an accepted proposal included). *)
Theorem fromObj_toObject_drops_raw (p : Txp.t) :
  3 <= Header.version (Txp.header p) ->
  Header.coin (Txp.header p) <> "" ->
  Header.chain (Txp.header p) <> "" ->
  TxProposal.toLowerCase (Header.chain (Txp.header p)) = Header.chain (Txp.header p) ->
  (forall a, In a (Txp.actions p) -> actionFromObj a = a) ->
  TxProposal.fromObj getChain actionFromObj
    (TxProposal.obj_proposal (TxProposal.toObject p))
  = Some (match Txp.status p with
          | broadcasted => p
          | _ => Txp.set_raw None p
          end).
Proof.
  intros Hv Hc Hch Hl Ha. unfold TxProposal.fromObj, TxProposal.toObject.
  cbn [TxProposal.obj_proposal].
  destruct (3 <=? _) eqn:E; [|lia]. cbn [negb].
  rewrite Hl.
  destruct (String.eqb_spec (Header.coin (Txp.header p)) ""); [contradiction|].
  destruct (String.eqb_spec (Header.chain (Txp.header p)) ""); [contradiction|].
  replace (map actionFromObj (Txp.actions p)) with (Txp.actions p)
    by (symmetry; rewrite <- (map_id (Txp.actions p)) at 2;
        apply map_ext_in; exact Ha).
  destruct p as [h ins paths fee st acts raw txid txids bo]. destruct h.
  cbn. destruct st; reflexivity.
Qed.
End Storage.

Lemma fromObj_toObject_drops_raw_witness :
  TxProposal.fromObj Fixture.getChain (fun a => a)
    (TxProposal.obj_proposal
       (TxProposal.toObject (Txp.set_raw (Some "0100") Fixture.acceptedProposal)))
  = Some Fixture.acceptedProposal.
Proof.
  apply (fromObj_toObject_drops_raw Fixture.getChain (fun a => a)
           (Txp.set_raw (Some "0100") Fixture.acceptedProposal));
    [vm_compute; discriminate | discriminate | discriminate | reflexivity
    | reflexivity].
Defined.

(** ** Balances and the utxos a selection may use *)

Section Balances.
Context {L : BitcoreLib}.
Variable this : BtcChain.t.

Lemma sumSat_cons (u : Utxo.t) (l : list Utxo.t) :
  BtcChain.sumSat (u :: l) = Utxo.satoshis u + BtcChain.sumSat l.
Proof. reflexivity. Qed.

Lemma sumSat_split (f : Utxo.t -> bool) (l : list Utxo.t) :
  BtcChain.sumSat l
  = BtcChain.sumSat (List.filter f l)
    + BtcChain.sumSat (List.filter (fun u => negb (f u)) l).
Proof.
  induction l as [|u l IH]; [reflexivity|].
  cbn [List.filter]. destruct (f u); cbn [negb]; rewrite !sumSat_cons; lia.
Qed.

Lemma filter_filter_and {A} (f g : A -> bool) (l : list A) :
  List.filter g (List.filter f l) = List.filter (fun x => andb (f x) (g x)) l.
Proof.
  induction l as [|x l IH]; [reflexivity|]. cbn.
  destruct (f x); cbn; [destruct (g x)|]; rewrite IH; reflexivity.
Qed.

(** X9. The available amounts of a balance are the sums over the utxos that
    are not locked: [availableAmount] is the sum of the satoshis of the
    unlocked utxos, [availableConfirmedAmount] the sum over the unlocked
    utxos with a confirmation, and the total is the locked plus the
    available amount. *)
Theorem totalizeUtxos_available_is_unlocked_sum (utxos : list Utxo.t) :
  let b := BtcChain.totalizeUtxos utxos in
  BtcChain.availableAmount b
    = BtcChain.sumSat (List.filter (fun u => negb (Utxo.locked u)) utxos)
  /\ BtcChain.availableConfirmedAmount b
     = BtcChain.sumSat
         (List.filter (fun u => andb (BtcChain.confirmed u) (negb (Utxo.locked u)))
                      utxos)
  /\ BtcChain.totalAmount b
     = BtcChain.lockedAmount b + BtcChain.availableAmount b.
Proof.
  cbv zeta. unfold BtcChain.totalizeUtxos. cbn.
  split; [|split; [|lia]].
  - rewrite (sumSat_split Utxo.locked utxos). lia.
  - rewrite (sumSat_split Utxo.locked (List.filter BtcChain.confirmed utxos)).
    rewrite !filter_filter_and.
    rewrite (filter_ext (fun x => andb (Utxo.locked x) (BtcChain.confirmed x))
                        (fun x => andb (BtcChain.confirmed x) (Utxo.locked x)))
      by (intros x; apply andb_comm).
    lia.
Qed.
End Balances.

Section Sanitize.
Variable txp : Txp.t.
Variable opts : BtcChain.SelectOpts.

Lemma excludeIndex_lookup (l : list string) (k : string) :
  forall m : gmap string string,
    foldl (fun res val => <[val := val]> res) m l !! k
    = if BtcChain.includes l k then Some k else m !! k.
Proof.
  unfold BtcChain.includes.
  induction l as [|x l IH]; intros m; cbn; [reflexivity|].
  rewrite IH. destruct (existsb (String.eqb k) l) eqn:El.
  - rewrite orb_true_r. reflexivity.
  - rewrite orb_false_r. destruct (String.eqb_spec k x) as [->|Hne].
    + apply lookup_insert_eq.
    + apply lookup_insert_ne. congruence.
Qed.

Lemma utxoKey_nonempty (u : Utxo.t) : BtcChain.utxoKey u <> "".
Proof.
  unfold BtcChain.utxoKey. destruct (Utxo.txid u); discriminate.
Qed.

Lemma sanitize_In (utxos : list Utxo.t) (u : Utxo.t) :
  In u (BtcChain.sanitizeUtxos txp opts utxos) <->
  In u utxos
  /\ Utxo.locked u = false
  /\ (BtcChain.excludeUnconfirmedUtxos txp = true ->
      BtcChain.replaceTxByFee txp = false -> Utxo.confirmations u <> 0)
  /\ BtcChain.includes (BtcChain.utxosToExclude opts) (BtcChain.utxoKey u) = false.
Proof.
  unfold BtcChain.sanitizeUtxos. cbv zeta. rewrite filter_In.
  rewrite excludeIndex_lookup, lookup_empty.
  apply and_iff_compat_l.
  assert (Ht : JS.truthy_str
                 (if BtcChain.includes (BtcChain.utxosToExclude opts)
                       (BtcChain.utxoKey u)
                  then Some (BtcChain.utxoKey u) else None)
               = BtcChain.includes (BtcChain.utxosToExclude opts)
                   (BtcChain.utxoKey u)).
  { destruct (BtcChain.includes _ _); [|reflexivity]. cbn.
    destruct (String.eqb_spec (BtcChain.utxoKey u) "") as [E|E]; [|reflexivity].
    exfalso. exact (utxoKey_nonempty u E). }
  rewrite Ht. unfold BtcChain.confirmed.
  destruct (Utxo.locked u); [split; [discriminate | intros (H & _); discriminate]|].
  destruct (BtcChain.includes _ _);
    [split; [destruct (andb _ _); discriminate | intros (_ & _ & H); discriminate]|].
  destruct (BtcChain.excludeUnconfirmedUtxos txp), (BtcChain.replaceTxByFee txp);
    cbn [andb negb];
    try (split; [intros _; repeat split; intros; discriminate | reflexivity]).
  destruct (Z.eqb_spec (Utxo.confirmations u) 0) as [E|E]; cbn [negb].
  - split; [discriminate | intros (_ & H & _); exfalso; apply H; auto].
  - split; [intros _; repeat split; intros; assumption | reflexivity].
Qed.

(** X10. [sanitizeUtxos] keeps, in their order, exactly the utxos that are not
    locked, are not listed in [utxosToExclude] under [txid:vout] and, when
    the proposal excludes unconfirmed utxos and does not replace a
    transaction, have a confirmation. *)
Theorem sanitizeUtxos_keeps_the_spendable (utxos : list Utxo.t) :
  sublist (BtcChain.sanitizeUtxos txp opts utxos) utxos
  /\ forall u,
       In u (BtcChain.sanitizeUtxos txp opts utxos) <->
       In u utxos
       /\ Utxo.locked u = false
       /\ (BtcChain.excludeUnconfirmedUtxos txp = true ->
           BtcChain.replaceTxByFee txp = false -> Utxo.confirmations u <> 0)
       /\ BtcChain.includes (BtcChain.utxosToExclude opts) (BtcChain.utxoKey u)
          = false.
Proof.
  split; [|apply sanitize_In].
  unfold BtcChain.sanitizeUtxos. cbv zeta.
  generalize (fun utxo : Utxo.t =>
    if Utxo.locked utxo then false
    else if andb (BtcChain.excludeUnconfirmedUtxos txp)
              (andb (negb (BtcChain.replaceTxByFee txp))
                    (negb (BtcChain.confirmed utxo)))
    then false
    else if JS.truthy_str
              (foldl (fun res val => <[val := val]> res) (∅ : gmap string string)
                     (BtcChain.utxosToExclude opts) !! BtcChain.utxoKey utxo)
    then false else true) as g.
  intros g. induction utxos as [|u l IH]; cbn; [constructor|].
  destruct (g u); [apply sublist_skip | apply sublist_cons]; exact IH.
Qed.
End Sanitize.

(** ** What [select] picks *)

Section SelectionShape.
Context {L : BitcoreLib}.
Variable this : BtcChain.t.
Variable txp : Txp.t.
Variable opts : BtcChain.SelectOpts.
Variable f : Q.

Lemma round_comp (x y : Q) : (x == y)%Q -> JS.round x = JS.round y.
Proof. intros H. unfold JS.round. apply Qfloor_comp. rewrite H. reflexivity. Qed.

Lemma step_selected bigInputs st input :
  BtcChain.selected (fst (BtcChain.step this txp opts f bigInputs st input))
  = BtcChain.selected st ++ [input].
Proof.
  unfold BtcChain.step. cbv zeta.
  repeat match goal with
         | |- context [if ?c then _ else _] => destruct c
         end; reflexivity.
Qed.

Lemma each_selected bigInputs (l : list Utxo.t) : forall st,
  exists k,
    (k <= length l)%nat
    /\ BtcChain.selected (fst (BtcChain.each this txp opts f bigInputs st l))
       = BtcChain.selected st ++ take k l.
Proof.
  induction l as [|u l IH]; intros st; cbn [BtcChain.each].
  - exists 0%nat. cbn. rewrite app_nil_r. split; [lia | reflexivity].
  - pose proof (step_selected bigInputs st u) as Hs.
    destruct (BtcChain.step this txp opts f bigInputs st u) as [st1 [e|]].
    + exists 1%nat. cbn in *. split; [lia | exact Hs].
    + destruct (IH st1) as (k & Hk & Hsel). exists (S k). cbn in *.
      rewrite Hsel, Hs, <- app_assoc. split; [lia | reflexivity].
Qed.

Lemma fallback_selected bigInputs st :
  let st' := BtcChain.fallback this txp opts f bigInputs st in
  (st' = st)
  \/ (exists b rest, bigInputs = b :: rest /\ BtcChain.selected st' = [b]
                     /\ BtcChain.fee st'
                        = Some (BtcChain.feeFor this txp opts f 1))
  \/ BtcChain.selected st' = [].
Proof.
  cbv zeta. unfold BtcChain.fallback.
  destruct (JS.Qltb _ _); [|left; reflexivity].
  destruct bigInputs as [|b rest]; [right; right; reflexivity|].
  right; left. exists b, rest. cbn [BtcChain.selected BtcChain.fee].
  split; [reflexivity|]. split; [reflexivity|].
  unfold BtcChain.feeFor. f_equal. apply round_comp.
  change (inject_Z (Z.of_nat 1)) with 1%Q. ring.
Qed.

Lemma select_shape utxos requiredInputs sel fee :
  BtcChain.select this txp opts f utxos requiredInputs = inr (sel, fee) ->
  let required := BtcChain.requiredTxids txp requiredInputs in
  let worth := BtcChain.worthSending this txp opts f required utxos in
  let small := BtcChain.smallInputs_of this txp opts f required worth in
  let big := BtcChain.bigInputs_of this txp opts f required worth in
  ((exists k, (0 < k <= length small)%nat /\ sel = take k small)
   \/ (exists b rest, big = b :: rest /\ sel = [b]))
  /\ exists fe,
       fee = Some fe
       /\ (fe = BtcChain.feeFor this txp opts f (length sel)
           \/ (fe = BtcChain.sumSat sel
                    - BtcChain.amountFor this txp opts f (length sel)
               /\ BtcChain.feeFor this txp opts f (length sel) <= fe)).
Proof.
  intros H required worth small big. unfold BtcChain.select in H. cbv zeta in H.
  fold required in H. fold worth in H. fold small in H. fold big in H.
  destruct (_ <? _); [discriminate|].
  destruct (JS.Qltb _ _); [discriminate|].
  destruct (BtcChain.each this txp opts f big (BtcChain.accum0 this txp opts f) small)
    as [st e] eqn:Ee.
  pose proof (each_Inv this txp opts f big small _ _ _
                (Inv_accum0 this txp opts f) Ee) as Hinv.
  destruct (each_selected big small (BtcChain.accum0 this txp opts f))
    as (k & Hk & Hsel).
  rewrite Ee in Hsel. cbn [fst] in *. cbn [BtcChain.selected BtcChain.accum0 app] in Hsel.
  destruct (fallback_selected big st) as [Hf | [(b & rest & Hb & Hs & Hfee) | Hnil]].
  - rewrite Hf in H.
    destruct (BtcChain.selected st) as [|s0 ss] eqn:Es; [discriminate|].
    injection H as <- <-.
    destruct Hinv as (Ht & _ & _ & _ & Hne).
    specialize (Hne ltac:(rewrite Es; discriminate)). cbv zeta in Hne.
    destruct Hne as (Hfull & fe & Hfe & Hcase).
    split.
    + left. exists k. split; [|exact Hsel].
      destruct k; [cbn in Hsel; discriminate | lia].
    + exists fe. rewrite <- Es. split; [exact Hfe|].
      rewrite <- Ht, <- Hfull. exact Hcase.
  - rewrite Hs in H. injection H as <- <-. split.
    + right. exists b, rest. split; [exact Hb | reflexivity].
    + eexists. split; [exact Hfee|]. left. reflexivity.
  - rewrite Hnil in H. discriminate.
Qed.

(** X11. [select] takes the small inputs largest first, or else one big input.
    A returned selection is a non-empty initial part of the small inputs in
    their order (those of the replaced transaction first, then by
    decreasing amount), or it is the single first big input (the smallest
    one).  The returned fee is the estimate for that number of inputs as a
    whole number, less than one satoshi away from the exact estimate
    whichever way the rounding falls, or, when a dust change was folded into
    it, everything the inputs hold above the amount, which is then not below
    the rounded estimate. *)
Theorem select_takes_a_prefix_or_one_big_input utxos requiredInputs sel fee :
  BtcChain.select this txp opts f utxos requiredInputs = inr (sel, fee) ->
  let required := BtcChain.requiredTxids txp requiredInputs in
  let worth := BtcChain.worthSending this txp opts f required utxos in
  let small := BtcChain.smallInputs_of this txp opts f required worth in
  let big := BtcChain.bigInputs_of this txp opts f required worth in
  let estimate :=
    (BtcChain.baseTxpFee this txp opts f
     + inject_Z (Z.of_nat (length sel)) * BtcChain.feePerInput this txp opts f)%Q in
  ((exists k, (0 < k <= length small)%nat /\ sel = take k small)
   \/ (exists b rest, big = b :: rest /\ sel = [b]))
  /\ exists fe rounded,
       fee = Some fe
       /\ (estimate - 1 < inject_Z rounded)%Q
       /\ (inject_Z rounded < estimate + 1)%Q
       /\ (fe = rounded
           \/ (fe = BtcChain.sumSat sel
                    - (if negb (BtcChain.escrowAmount opts =? 0)
                       then BtcChain.txpAmount txp opts + rounded
                       else BtcChain.txpAmount txp opts)
               /\ rounded <= fe)).
Proof.
  intros H required worth small big estimate.
  destruct (select_shape _ _ _ _ H) as [Hshape (fe & Hfe & Hcase)].
  split; [exact Hshape|].
  assert (Hnear : (estimate - 1
                   < inject_Z (BtcChain.feeFor this txp opts f (length sel)))%Q
                  /\ (inject_Z (BtcChain.feeFor this txp opts f (length sel))
                      < estimate + 1)%Q).
  { unfold BtcChain.feeFor. subst estimate.
    match goal with
    | |- context [JS.round ?x] => destruct (round_near x) as [Hup Hlow]
    end.
    split; lra. }
  clearbody estimate. unfold BtcChain.amountFor in Hcase.
  exists fe, (BtcChain.feeFor this txp opts f (length sel)).
  split; [exact Hfe|]. split; [apply Hnear|]. split; [apply Hnear|].
  exact Hcase.
Qed.

Lemma In_take {A} (k : nat) (l : list A) (x : A) : In x (take k l) -> In x l.
Proof.
  revert k. induction l as [|a l IH]; intros [|k]; cbn; try tauto.
  intros [->|H]; [left; reflexivity | right; eapply IH; eauto].
Qed.

Lemma select_In utxos requiredInputs sel fee u :
  BtcChain.select this txp opts f utxos requiredInputs = inr (sel, fee) ->
  In u sel -> In u utxos.
Proof.
  intros H Hu. destruct (select_shape _ _ _ _ H) as [Hshape _].
  cbv zeta in Hshape.
  assert (Hw : In u (BtcChain.worthSending this txp opts f
                       (BtcChain.requiredTxids txp requiredInputs) utxos)).
  { destruct Hshape as [(k & _ & ->) | (b & rest & Hb & ->)].
    - assert (Hi : In u (BtcChain.smallInputs_of this txp opts f
                (BtcChain.requiredTxids txp requiredInputs)
                (BtcChain.worthSending this txp opts f
                   (BtcChain.requiredTxids txp requiredInputs) utxos)))
        by (eapply In_take; exact Hu).
      unfold BtcChain.smallInputs_of in Hi. apply sort_In in Hi.
      apply filter_In in Hi. apply Hi.
    - destruct Hu as [<-|[]].
      assert (Hi : In b (BtcChain.bigInputs_of this txp opts f
                (BtcChain.requiredTxids txp requiredInputs)
                (BtcChain.worthSending this txp opts f
                   (BtcChain.requiredTxids txp requiredInputs) utxos)))
        by (rewrite Hb; left; reflexivity).
      unfold BtcChain.bigInputs_of in Hi. apply sort_In in Hi.
      apply filter_In in Hi. apply Hi. }
  unfold BtcChain.worthSending in Hw. apply filter_In in Hw. apply Hw.
Qed.

Lemma uniqBy_In (l : list Utxo.t) (u : Utxo.t) : forall seen,
  In u (BtcChain.uniqBy_address seen l) -> In u l.
Proof.
  induction l as [|x l IH]; intros seen; cbn; [auto|].
  destruct (existsb _ seen); [right; eapply IH; eauto|].
  intros [->|H]; [left; reflexivity | right; eapply IH; eauto].
Qed.

Lemma candidates_In zce utxos group u :
  In u (BtcChain.candidates txp opts zce utxos group) ->
  In u utxos /\ group <= Utxo.confirmations u.
Proof.
  unfold BtcChain.candidates. cbv zeta. intros H.
  assert (H1 : In u (if andb (BtcChain.truthyZ (BtcChain.instantAcceptanceEscrow opts)) zce
                     then BtcChain.uniqBy_address []
                            (BtcChain.sort
                               (fun a b => Qle_bool (Utxo.amount b - Utxo.amount a) 0)
                               (List.filter (fun utxo => group <=? Utxo.confirmations utxo)
                                            utxos))
                     else List.filter (fun utxo => group <=? Utxo.confirmations utxo)
                                      utxos)).
  { destruct (BtcChain.replaceTxByFee txp); [apply sort_In in H|]; exact H. }
  assert (H2 : In u (List.filter (fun utxo => group <=? Utxo.confirmations utxo) utxos)).
  { destruct (andb _ zce); [apply uniqBy_In, sort_In in H1|]; exact H1. }
  apply filter_In in H2. destruct H2 as [Hin Hc]. split; [exact Hin | lia].
Qed.

Lemma tryGroup_In zce utxos (gmin : Z) s group :
  gmin <= group ->
  (forall u, In u (BtcChain.lad_inputs s) ->
     In u utxos /\ gmin <= Utxo.confirmations u) ->
  forall u, In u (BtcChain.lad_inputs
                    (BtcChain.tryGroup this txp opts f zce utxos s group)) ->
    In u utxos /\ gmin <= Utxo.confirmations u.
Proof.
  intros Hg Hs u. unfold BtcChain.tryGroup.
  destruct (BtcChain.lad_inputs s) as [|i0 is0] eqn:El;
    [|intros Hu; apply Hs; rewrite <- El; exact Hu].
  cbv zeta. destruct (bool_decide _); [rewrite El; intros []|].
  destruct (BtcChain.select _ _ _ _ _ _) as [err | [sel fee]] eqn:Es; cbn.
  - intros [].
  - intros Hu. pose proof (select_In _ _ _ _ _ Es Hu) as Hc.
    apply candidates_In in Hc. split; [apply Hc | lia].
Qed.

Lemma groups_In zce utxos (gmin : Z) (gs : list Z) : forall s,
  Forall (fun g => gmin <= g) gs ->
  (forall u, In u (BtcChain.lad_inputs s) ->
     In u utxos /\ gmin <= Utxo.confirmations u) ->
  forall u, In u (BtcChain.lad_inputs
                    (foldl (BtcChain.tryGroup this txp opts f zce utxos) s gs)) ->
    In u utxos /\ gmin <= Utxo.confirmations u.
Proof.
  induction gs as [|g gs IH]; intros s Hgs Hs; cbn [foldl]; [exact Hs|].
  inversion Hgs as [|? ? Hg Hgs']; subst.
  apply IH; [exact Hgs'|]. apply tryGroup_In; assumption.
Qed.

(** X12. A selection spends only what may be spent.  Every input that
    [selectTxInputs] selects is one of the wallet's utxos, is not locked, is
    not listed in [utxosToExclude], and has at least one confirmation
    whenever the proposal excludes unconfirmed utxos, also when it replaces
    a transaction. *)
Theorem selection_spends_only_spendable_utxos zce utxos inputs fee :
  BtcChain.selection this txp opts f zce utxos = inr (inputs, fee) ->
  forall u, In u inputs ->
    In u utxos
    /\ Utxo.locked u = false
    /\ BtcChain.includes (BtcChain.utxosToExclude opts) (BtcChain.utxoKey u) = false
    /\ 0 <= Utxo.confirmations u
    /\ (BtcChain.excludeUnconfirmedUtxos txp = true -> 1 <= Utxo.confirmations u).
Proof.
  unfold BtcChain.selection. cbv zeta.
  destruct (if andb _ _ then _ else _) as [ta aa].
  destruct (ta <? _); [discriminate|]. destruct (aa <? _); [discriminate|].
  set (gmin := if BtcChain.excludeUnconfirmedUtxos txp then 1 else 0).
  pose proof (groups_In zce (BtcChain.sanitizeUtxos txp opts utxos) gmin
                (BtcChain.groups txp) (BtcChain.mkLadder [] None None None)) as G.
  assert (Hgs : Forall (fun g => gmin <= g) (BtcChain.groups txp)).
  { unfold BtcChain.groups, gmin.
    destruct (BtcChain.excludeUnconfirmedUtxos txp); repeat constructor; lia. }
  specialize (G Hgs (fun u (H : In u []) => match H with end)).
  destruct (foldl _ _ _) as [li lf le ll]. cbn in *.
  destruct le; [discriminate|]. destruct li as [|i0 is0]; [discriminate|].
  intros [= <- <-] u Hu. destruct (G u Hu) as [Hin Hc].
  apply sanitize_In in Hin. destruct Hin as (Hin & Hl & _ & Hx).
  split; [exact Hin|]. split; [exact Hl|]. split; [exact Hx|].
  unfold gmin in Hc. split.
  - destruct (BtcChain.excludeUnconfirmedUtxos txp); lia.
  - intros E. rewrite E in Hc. exact Hc.
Qed.
End SelectionShape.

(** Scenario A: one input of 5000 satoshis is selected; the estimate for one
    input is 76 + 294 = 370 satoshis, and that is the fee. *)
Lemma select_takes_a_prefix_or_one_big_input_witness :
  BtcChain.select (L := Fixture.lib) BtcChain.defaultConfig Fixture.scenarioA
    Fixture.noOpts 1000 Fixture.scenarioA_utxos []
  = inr ([Fixture.utxo "a" 5000], Some 370)
  /\ exists fe rounded,
       Some 370 = Some fe
       /\ (BtcChain.baseTxpFee (L := Fixture.lib) BtcChain.defaultConfig
             Fixture.scenarioA Fixture.noOpts 1000
           + inject_Z 1 * BtcChain.feePerInput BtcChain.defaultConfig
                            Fixture.scenarioA Fixture.noOpts 1000 - 1
           < inject_Z rounded)%Q
       /\ (inject_Z rounded
           < BtcChain.baseTxpFee (L := Fixture.lib) BtcChain.defaultConfig
               Fixture.scenarioA Fixture.noOpts 1000
             + inject_Z 1 * BtcChain.feePerInput BtcChain.defaultConfig
                              Fixture.scenarioA Fixture.noOpts 1000 + 1)%Q
       /\ (fe = rounded \/ (fe = 5000 - 4000 /\ rounded <= fe)).
Proof.
  split; [vm_compute; reflexivity|].
  apply (select_takes_a_prefix_or_one_big_input (L := Fixture.lib)
           BtcChain.defaultConfig Fixture.scenarioA Fixture.noOpts 1000
           Fixture.scenarioA_utxos [] [Fixture.utxo "a" 5000] (Some 370)).
  vm_compute. reflexivity.
Defined.

Lemma selection_spends_only_spendable_utxos_witness :
  Utxo.locked (Fixture.utxo "a" 5000) = false
  /\ 0 <= Utxo.confirmations (Fixture.utxo "a" 5000).
Proof.
  pose proof (selection_spends_only_spendable_utxos (L := Fixture.lib)
                BtcChain.defaultConfig Fixture.scenarioA Fixture.noOpts 1000 false
                Fixture.scenarioA_utxos [Fixture.utxo "a" 5000] (Some 370)
                ltac:(vm_compute; reflexivity) (Fixture.utxo "a" 5000)
                ltac:(left; reflexivity)) as (_ & H1 & _ & H2 & _).
  split; [exact H1 | exact H2].
Defined.

(** ** Sending everything *)

Section SendMax.
Context {L : BitcoreLib}.
Variable this : BtcChain.t.

Lemma sumSat_app2 (l1 l2 : list Utxo.t) :
  BtcChain.sumSat (l1 ++ l2) = BtcChain.sumSat l1 + BtcChain.sumSat l2.
Proof.
  induction l1 as [|u l1 IH]; [reflexivity|].
  cbn [app]. rewrite !sumSat_cons, IH. lia.
Qed.

Lemma sumSat_insert (le : Utxo.t -> Utxo.t -> bool) (u : Utxo.t) (l : list Utxo.t) :
  BtcChain.sumSat (BtcChain.insert le u l) = Utxo.satoshis u + BtcChain.sumSat l.
Proof.
  induction l as [|x l IH]; [reflexivity|]. cbn [BtcChain.insert].
  destruct (le u x); rewrite !sumSat_cons; [reflexivity|]. rewrite IH. lia.
Qed.

Lemma sumSat_sort (le : Utxo.t -> Utxo.t -> bool) (l : list Utxo.t) :
  BtcChain.sumSat (BtcChain.sort le l) = BtcChain.sumSat l.
Proof.
  unfold BtcChain.sort. induction l as [|x l IH]; [reflexivity|].
  cbn [foldr]. rewrite sumSat_insert, sumSat_cons. unfold BtcChain.sort in IH. lia.
Qed.

Lemma sendMaxInputs_sum (opts : BtcChain.SendMaxOpts) (utxos : list Utxo.t) :
  BtcChain.sumSat (BtcChain.sendMaxInputs opts utxos)
  = BtcChain.sumSat
      (List.filter (fun u => andb (negb (Utxo.locked u))
                               (orb (negb (BtcChain.sm_excludeUnconfirmedUtxos opts))
                                    (BtcChain.confirmed u)))
                   utxos).
Proof.
  unfold BtcChain.sendMaxInputs. cbv zeta. rewrite sumSat_sort.
  destruct (BtcChain.sm_excludeUnconfirmedUtxos opts); cbn [negb orb].
  - rewrite filter_filter_and. reflexivity.
  - f_equal. apply filter_ext. intros u. rewrite andb_true_r. reflexivity.
Qed.

Lemma sendMaxFill_spec (b : Z) (s : Q) (all : list Utxo.t) :
  forall (l : list Utxo.t) (i : nat) (taken : list Utxo.t),
    drop i all = l ->
    exists k,
      (k <= length l)%nat
      /\ fst (fst (BtcChain.sendMaxFill b s all i l taken)) = taken ++ take k l
      /\ snd (fst (BtcChain.sendMaxFill b s all i l taken)) = length (drop k l)
      /\ snd (BtcChain.sendMaxFill b s all i l taken) = BtcChain.sumSat (drop k l)
      /\ ((0 < k)%nat ->
          (((inject_Z b + inject_Z (Z.of_nat (i + k)) * s) / 1000
            <= Defaults.MAX_TX_SIZE_IN_KB_BTC))%Q).
Proof.
  induction l as [|u l IH]; intros i taken Hd; cbn [BtcChain.sendMaxFill].
  - exists 0%nat. cbn. rewrite app_nil_r. repeat split; try reflexivity; lia.
  - cbv zeta. destruct (JS.Qltb _ _) eqn:E.
    + exists 0%nat. cbn [fst snd take drop]. rewrite app_nil_r, Hd.
      split; [lia|]. split; [reflexivity|]. split.
      { rewrite <- Hd, length_drop. reflexivity. }
      split; [reflexivity | lia].
    + assert (Hd' : drop (S i) all = l).
      { replace (S i) with (i + 1)%nat by lia. rewrite <- drop_drop, Hd. reflexivity. }
      destruct (IH (S i) (taken ++ [u]) Hd') as (k & Hk & H1 & H2 & H3 & H4).
      exists (S k). cbn [take drop length].
      split; [lia|]. split; [rewrite H1, <- app_assoc; reflexivity|].
      split; [exact H2|]. split; [exact H3|]. intros _.
      destruct k as [|k].
      * apply Qltb_ge in E.
        replace (inject_Z (Z.of_nat (i + 1))) with (inject_Z (Z.of_nat i + 1))
          by (f_equal; lia).
        exact E.
      * replace (i + S (S k))%nat with (S i + S k)%nat by lia. apply H4. lia.
Qed.

Lemma sumSat_take_drop (k : nat) (l : list Utxo.t) :
  BtcChain.sumSat (take k l) + BtcChain.sumSat (drop k l) = BtcChain.sumSat l.
Proof. rewrite <- sumSat_app2, take_drop. reflexivity. Qed.

Lemma estimatedSize_inputs (txp : Txp.t) (ins : list Utxo.t) (paths : list string)
    (opts : BtcChain.FeeOpts) (z : Z) :
  (inject_Z (BtcChain.getEstimatedSize this (Txp.set_inputs [] paths txp) opts)
   + inject_Z (Z.of_nat (length ins))
     * BtcChain.getEstimatedSizeForSingleInput this txp
         (BtcChain.conservativeEstimation opts) <= inject_Z z)%Q ->
  BtcChain.getEstimatedSize this (Txp.set_inputs ins paths txp) opts <= z.
Proof.
  unfold BtcChain.getEstimatedSize. cbv zeta.
  assert (Hsi : forall l, BtcChain.getEstimatedSizeForSingleInput this
                          (Txp.set_inputs l paths txp)
                          (BtcChain.conservativeEstimation opts)
                        = BtcChain.getEstimatedSizeForSingleInput this txp
                            (BtcChain.conservativeEstimation opts))
    by reflexivity.
  rewrite !Hsi. clear Hsi.
  cbn [Txp.header Txp.inputs Txp.set_inputs length].
  set (si := BtcChain.getEstimatedSizeForSingleInput this txp _).
  set (os := if (if BtcChain.truthyZ _ then _ else _) =? 0 then _ else _).
  set (mg := BtcChain.getSizeSafetyMargin this _).
  set (n := inject_Z (Z.of_nat (length ins))).
  change (inject_Z (Z.of_nat 0)) with 0%Q.
  unfold JS.ceil.
  pose proof (Qle_ceiling ((inject_Z (4 + 4 + 1 + 1) + si * 0 + inject_Z os) * 1 + mg)) as H0.
  intros Hz. rewrite <- (Qceiling_Z z).
  apply Qceiling_resp_le. lra.
Qed.
End SendMax.

Section SendMaxTheorem.
Context {L : BitcoreLib}.
Variable this : BtcChain.t.

Lemma create_inputs now uuid shuffle getChain NETWORKS opts (p : Txp.t) :
  TxProposal.create now uuid shuffle getChain NETWORKS opts = Some p ->
  Txp.inputs p = TxProposal.o_inputs opts
  /\ Txp.inputPaths p = map Utxo.path (TxProposal.o_inputs opts).
Proof.
  unfold TxProposal.create. intros H.
  repeat match type of H with
         | (if ?c then _ else _) = _ => destruct c
         | match ?c with _ => _ end = _ => destruct c
         end; try discriminate H; injection H as <-; split; reflexivity.
Qed.

(** X13. [getWalletSendMaxInfo] accounts for every spendable satoshi.  Either it
    reports nothing to send (amount, fee and size zero, no inputs), or the
    amount is at least [MIN_OUTPUT_AMOUNT], the amount, the fee, the amount
    below the fee and the amount above the size limit add up to the sum of
    the utxos that are not locked (and confirmed, when unconfirmed utxos are
    excluded), and the reported size is at most 100000 bytes. *)
Theorem sendMax_accounts_for_every_spendable_satoshi
    now uuid shuffle getChain NETWORKS shuffleInputs
    (utxos : list Utxo.t) (feeRate : Error + Q) (wallet : BtcChain.Wallet)
    (opts : BtcChain.SendMaxOpts) (info : BtcChain.SendMaxInfo) :
  BtcChain.getWalletSendMaxInfo this now uuid shuffle getChain NETWORKS shuffleInputs
    (inr utxos) feeRate wallet opts = Some (inr info) ->
  let spendable :=
    List.filter (fun u => andb (negb (Utxo.locked u))
                            (orb (negb (BtcChain.sm_excludeUnconfirmedUtxos opts))
                                 (BtcChain.confirmed u)))
                utxos in
  (BtcChain.info_amount info = 0 /\ BtcChain.info_fee info = 0
   /\ BtcChain.info_size info = 0 /\ BtcChain.info_inputs info = [])
  \/ (Defaults.MIN_OUTPUT_AMOUNT <= BtcChain.info_amount info
      /\ BtcChain.info_amount info + BtcChain.info_fee info
         + BtcChain.amountBelowFee info + BtcChain.amountAboveMaxSize info
         = BtcChain.sumSat spendable
      /\ BtcChain.info_size info <= 100000).
Proof.
  intros H spendable. unfold BtcChain.getWalletSendMaxInfo in H. cbv zeta in H.
  destruct (Nat.eqb _ 0); [injection H as <-; left; repeat split|].
  destruct feeRate as [err|feePerKb]; [discriminate|].
  destruct (TxProposal.create _ _ _ _ _ _) as [txp|] eqn:Ec; [|discriminate].
  cbn [mbind option_bind] in H.
  apply create_inputs in Ec. cbn [TxProposal.o_inputs] in Ec. destruct Ec as [Ei Ep].
  set (b := BtcChain.getEstimatedSize this txp (BtcChain.mkFeeOpts true None)) in *.
  set (s := BtcChain.getEstimatedSizeForSingleInput this txp true) in *.
  set (inputs := BtcChain.sendMaxInputs opts utxos) in *.
  set (isAbove := fun input : Utxo.t =>
                    JS.Qltb (s * feePerKb / 1000) (inject_Z (Utxo.satoshis input))) in *.
  set (above := List.filter isAbove inputs) in *.
  destruct (sendMaxFill_spec b s above above 0 [] eq_refl)
    as (k & Hk & H1 & H2 & H3 & H4).
  destruct (BtcChain.sendMaxFill b s above 0 above []) as [[taken nAbove] amountAbove].
  cbn [fst snd app] in H1, H2, H3.
  destruct (Nat.eqb (length taken) 0) eqn:El;
    [injection H as <-; left; repeat split|].
  destruct (BtcChain.getEstimatedFee _ _) as [fee|]; [|discriminate].
  cbn [mbind option_bind] in H.
  destruct (_ <? Defaults.MIN_OUTPUT_AMOUNT) eqn:Emin;
    injection H as <-; [left; repeat split|].
  right. cbn [BtcChain.info_amount BtcChain.info_fee BtcChain.info_size
              BtcChain.amountBelowFee BtcChain.amountAboveMaxSize].
  apply Z.ltb_ge in Emin. split; [exact Emin|]. split.
  - unfold spendable. rewrite <- sendMaxInputs_sum. fold inputs.
    rewrite (sumSat_split isAbove inputs). fold above.
    rewrite <- (sumSat_take_drop k above), <- H1, <- H3.
    match goal with
    | |- _ + BtcChain.sumSat ?l + _ = _ + BtcChain.sumSat ?r =>
        change l with r
    end.
    lia.
  - apply Nat.eqb_neq in El.
    assert (Hlen : length taken = k) by (rewrite H1, length_take; lia).
    assert (Hk0 : (0 < k)%nat) by lia. specialize (H4 Hk0). cbn [Nat.add] in H4.
    apply estimatedSize_inputs. cbn [BtcChain.conservativeEstimation].
    replace (Txp.set_inputs [] (Txp.inputPaths txp) txp) with txp
      by (destruct txp; cbn in Ei; subst; reflexivity).
    fold b. fold s. rewrite Hlen.
    unfold Defaults.MAX_TX_SIZE_IN_KB_BTC in H4.
    unfold Qdiv in H4. change (/ 1000)%Q with (1 # 1000)%Q in H4.
    change (inject_Z 100000) with (100000 # 1)%Q. lra.
Qed.
End SendMaxTheorem.

Lemma sendMax_accounts_for_every_spendable_satoshi_witness :
  let info := BtcChain.mkSendMaxInfo 354 59354 546 1000
                [Fixture.utxo "d" 50000; Fixture.utxo "b" 9900] 1 100 0 0 in
  BtcChain.getWalletSendMaxInfo (L := Fixture.lib) BtcChain.defaultConfig 0 "id"
    (fun l => l) Fixture.getChain Fixture.NETWORKS (fun l => l)
    (inr Fixture.walletUtxos) (inr 1000%Q) Fixture.wallet Fixture.sendMaxOpts
  = Some (inr info)
  /\ BtcChain.info_amount info + BtcChain.info_fee info
     + BtcChain.amountBelowFee info + BtcChain.amountAboveMaxSize info
     = 50000 + 9900 + 100.
Proof.
  intros info. split; [vm_compute; reflexivity|].
  destruct (sendMax_accounts_for_every_spendable_satoshi (L := Fixture.lib)
              BtcChain.defaultConfig 0 "id" (fun l => l) Fixture.getChain
              Fixture.NETWORKS (fun l => l) Fixture.walletUtxos (inr 1000%Q)
              Fixture.wallet Fixture.sendMaxOpts info
              ltac:(vm_compute; reflexivity)) as [(H & _) | (_ & H & _)].
  - discriminate H.
  - exact H.
Defined.

(** ** The checks before a proposal is published *)

Section Checks.
Context {L : BitcoreLib}.
Variable this : BtcChain.t.

Lemma find_app {A} (p : A -> bool) (l1 l2 : list A) :
  List.find p (l1 ++ l2)
  = match List.find p l1 with Some x => Some x | None => List.find p l2 end.
Proof.
  induction l1 as [|a l1 IH]; [reflexivity|]. cbn. destruct (p a); auto.
Qed.

Lemma keyBy_lookup (key : Utxo.t -> string) (k : string) (l : list Utxo.t) :
  forall m0 : gmap string Utxo.t,
    foldl (fun m u => <[key u := u]> m) m0 l !! k
    = match List.find (fun u => String.eqb (key u) k) (rev l) with
      | Some u => Some u
      | None => m0 !! k
      end.
Proof.
  induction l as [|x l IH]; intros m0; [reflexivity|].
  cbn [foldl rev]. rewrite IH, find_app.
  destruct (List.find _ (rev l)); [reflexivity|]. cbn.
  destruct (String.eqb_spec (key x) k) as [<-|Hne].
  - apply lookup_insert_eq.
  - apply lookup_insert_ne. exact Hne.
Qed.

(** X14. [checkTxUTXOs] looks each input up under [txid|vout] among the fetched
    utxos, where the last utxo of a key counts.  For a proposal that does
    not replace a transaction the answer is either that the utxos are
    available or [UNAVAILABLE_UTXOS], and they are available exactly when,
    for every input, the last fetched utxo with the key of the input exists
    and is not locked. *)
Theorem checkTxUTXOs_available_iff (utxos : list Utxo.t) (txp : Txp.t) :
  Header.replaceTxByFee (Txp.header txp) = false ->
  (BtcChain.checkTxUTXOs (inr utxos) txp = BtcChain.UtxosAvailable
   \/ BtcChain.checkTxUTXOs (inr utxos) txp = BtcChain.UNAVAILABLE_UTXOS)
  /\ (BtcChain.checkTxUTXOs (inr utxos) txp = BtcChain.UtxosAvailable <->
      forall i, In i (Txp.inputs txp) ->
        exists u,
          List.find (fun u => String.eqb (BtcChain.utxoKeyBar u) (BtcChain.utxoKeyBar i))
                    (rev utxos) = Some u
          /\ In u utxos /\ Utxo.locked u = false).
Proof.
  intros Hr. unfold BtcChain.checkTxUTXOs. rewrite Hr. cbv zeta.
  destruct (existsb _ _) eqn:E.
  - split; [right; reflexivity|]. split; [discriminate|]. intros H. exfalso.
    apply existsb_exists in E. destruct E as (key & Hin & Hk).
    apply in_map_iff in Hin. destruct Hin as (i & <- & Hi).
    destruct (H i Hi) as (u & Hf & _ & Hl).
    unfold BtcChain.keyBy in Hk. rewrite keyBy_lookup, Hf in Hk. congruence.
  - split; [left; reflexivity|]. split; [|reflexivity]. intros _ i Hi.
    assert (Hk : (fun i => match BtcChain.keyBy BtcChain.utxoKeyBar utxos !! i with
                           | Some utxo => Utxo.locked utxo
                           | None => true
                           end) (BtcChain.utxoKeyBar i) = false).
    { apply not_true_is_false. intros Ek.
      match type of E with
      | existsb ?g ?l = false =>
          assert (Hex : existsb g l = true)
            by (apply existsb_exists; exists (BtcChain.utxoKeyBar i);
                split; [apply in_map; exact Hi | exact Ek])
      end.
      rewrite E in Hex. discriminate Hex. }
    cbv beta in Hk. unfold BtcChain.keyBy in Hk. rewrite keyBy_lookup in Hk.
    destruct (List.find _ (rev utxos)) as [u|] eqn:Ef;
      [|rewrite lookup_empty in Hk; discriminate].
    exists u. split; [reflexivity|]. split; [|exact Hk].
    apply find_some in Ef. apply in_rev. apply Ef.
Qed.

(** A replacement skips the check: when the proposal replaces a transaction
    [checkTxUTXOs] answers that the utxos are available without looking at
    what was fetched, even when fetching failed. *)
Lemma checkTxUTXOs_replacement (fetched : Error + list Utxo.t)
    (txp : Txp.t) :
  Header.replaceTxByFee (Txp.header txp) = true ->
  BtcChain.checkTxUTXOs fetched txp = BtcChain.UtxosAvailable.
Proof. intros H. unfold BtcChain.checkTxUTXOs. rewrite H. reflexivity. Qed.

(** X15. A data output can never pass both output checks: an output with a
    script that [checkScriptOutput] accepts carries no amount, so
    [checkDust] rejects it, whatever the library's dust amount is. *)
Theorem script_output_is_always_dust (output : Output.t) :
  JS.truthy_str (Output.script output) = true ->
  BtcChain.checkScriptOutput output = None ->
  Output.amount output = 0
  /\ BtcChain.checkDust output = Some DUST_AMOUNT_error
  /\ BtcChain.checkValidTxAmount output = false.
Proof.
  intros Hs. unfold BtcChain.checkScriptOutput. rewrite Hs.
  destruct (String.prefix "6a" _); cbn [negb andb]; [|discriminate].
  destruct (Z.eqb_spec (Output.amount output) 0) as [E|E]; [|discriminate].
  intros _. split; [exact E|].
  unfold BtcChain.checkDust, BtcChain.dustThreshold, BtcChain.checkValidTxAmount,
    Defaults.MIN_OUTPUT_AMOUNT.
  rewrite E. split; [|reflexivity].
  destruct (0 <? Z.max 546 DUST_AMOUNT) eqn:E'; [reflexivity|].
  apply Z.ltb_ge in E'. lia.
Qed.
End Checks.

Lemma checkTxUTXOs_available_iff_witness :
  BtcChain.checkTxUTXOs (inr [Fixture.lockedUtxo; Fixture.utxo "a" 20000])
    Fixture.acceptedProposal = BtcChain.UtxosAvailable
  \/ BtcChain.checkTxUTXOs (inr [Fixture.lockedUtxo; Fixture.utxo "a" 20000])
       Fixture.acceptedProposal = BtcChain.UNAVAILABLE_UTXOS.
Proof.
  apply (checkTxUTXOs_available_iff [Fixture.lockedUtxo; Fixture.utxo "a" 20000]
           Fixture.acceptedProposal).
  reflexivity.
Defined.

Lemma script_output_is_always_dust_witness :
  BtcChain.checkDust (L := Fixture.lib)
    (Output.mk 0 None (Some "6a0568656c6c6f") None) = Some DUST_AMOUNT_error.
Proof.
  apply (script_output_is_always_dust (L := Fixture.lib)
           (Output.mk 0 None (Some "6a0568656c6c6f") None));
    vm_compute; reflexivity.
Defined.

Section Frames.
Context {L : BitcoreLib}.
Variable this : BtcChain.t.

Lemma checkTx_cases (txp : Txp.t) :
  match snd (BtcChain.checkTx this txp) with
  | None =>
      exists tx,
        BtcChain.getBitcoreTx txp true = Some tx
        /\ fst (BtcChain.checkTx this txp) = Txp.set_fee (Some (getFee tx)) txp
        /\ Txp.inputPaths txp <> []
        /\ BtcChain.getEstimatedSize this txp (BtcChain.mkFeeOpts true None) <= 100000
  | Some _ => fst (BtcChain.checkTx this txp) = txp
  end.
Proof.
  unfold BtcChain.checkTx. cbv zeta.
  destruct (JS.Qltb _ _) eqn:Es; [reflexivity|].
  destruct (Nat.eqb _ 0) eqn:Ep; [reflexivity|].
  destruct (BtcChain.getBitcoreTx txp true) as [tx|]; [|reflexivity].
  destruct (getSerializationError tx _) as [[| |]|]; try reflexivity.
  cbn [fst snd]. exists tx. split; [reflexivity|]. split; [reflexivity|]. split.
  - apply Nat.eqb_neq in Ep. destruct (Txp.inputPaths txp); [contradiction | discriminate].
  - apply Qltb_ge in Es. unfold Defaults.MAX_TX_SIZE_IN_KB_BTC in Es.
    unfold Qdiv in Es. change (/ 1000)%Q with (1 # 1000)%Q in Es.
    rewrite Zle_Qle. change (inject_Z 100000) with (100000 # 1)%Q. lra.
Qed.

(** X16. [checkTx] changes the proposal only when it succeeds, and then only its
    fee.  With an error the proposal is left as it was; without one the
    signed transaction could be built, the fee of the proposal is the fee of
    that transaction, there are input paths, and the conservative size
    estimate is at most 100000 bytes. *)
Theorem checkTx_sets_the_fee_or_nothing (txp : Txp.t) :
  match snd (BtcChain.checkTx this txp) with
  | None =>
      exists tx,
        BtcChain.getBitcoreTx txp true = Some tx
        /\ fst (BtcChain.checkTx this txp) = Txp.set_fee (Some (getFee tx)) txp
        /\ Txp.inputPaths txp <> []
        /\ BtcChain.getEstimatedSize this txp (BtcChain.mkFeeOpts true None) <= 100000
  | Some _ => fst (BtcChain.checkTx this txp) = txp
  end.
Proof. apply checkTx_cases. Qed.

(** What [selectTxInputs] may touch. *)
Local Abbreviation SameButInputsAndFee p q :=
  (Txp.header q = Txp.header p /\ Txp.status q = Txp.status p
   /\ Txp.actions q = Txp.actions p /\ Txp.raw q = Txp.raw p
   /\ Txp.txid q = Txp.txid p /\ Txp.txids q = Txp.txids p
   /\ Txp.broadcastedOn q = Txp.broadcastedOn p).

Lemma checkTx_frame (txp : Txp.t) :
  SameButInputsAndFee txp (fst (BtcChain.checkTx this txp))
  /\ Txp.inputs (fst (BtcChain.checkTx this txp)) = Txp.inputs txp
  /\ Txp.inputPaths (fst (BtcChain.checkTx this txp)) = Txp.inputPaths txp
  /\ (snd (BtcChain.checkTx this txp) = None ->
      exists fe, Txp.fee (fst (BtcChain.checkTx this txp)) = Some fe).
Proof.
  pose proof (checkTx_cases txp) as H.
  destruct (snd (BtcChain.checkTx this txp)) as [e|].
  - rewrite H. repeat split; discriminate.
  - destruct H as (tx & _ & -> & _). repeat split. intros _. eexists. reflexivity.
Qed.

(** X17. [selectTxInputs] touches only the inputs, their paths and the fee.
    Whatever it hands to the callback, the header, the status, the actions,
    the raw transaction, the ids and the broadcast time of the proposal are
    as before; the input paths are the paths of the inputs if they were so
    before; and when no error is reported the proposal has a fee. *)
Theorem selectTxInputs_touches_only_inputs_and_fee shuffle fetched
    (txp : Txp.t) zce opts (txp' : Txp.t) (err : option Error) :
  BtcChain.selectTxInputs this shuffle fetched txp zce opts = Some (txp', err) ->
  (Txp.header txp' = Txp.header txp /\ Txp.status txp' = Txp.status txp
   /\ Txp.actions txp' = Txp.actions txp /\ Txp.raw txp' = Txp.raw txp
   /\ Txp.txid txp' = Txp.txid txp /\ Txp.txids txp' = Txp.txids txp
   /\ Txp.broadcastedOn txp' = Txp.broadcastedOn txp)
  /\ (Txp.inputPaths txp = map Utxo.path (Txp.inputs txp) ->
      Txp.inputPaths txp' = map Utxo.path (Txp.inputs txp'))
  /\ (err = None -> exists fe, Txp.fee txp' = Some fe).
Proof.
  unfold BtcChain.selectTxInputs.
  assert (G : forall q : Txp.t,
             SameButInputsAndFee txp q ->
             (Txp.inputPaths txp = map Utxo.path (Txp.inputs txp) ->
              Txp.inputPaths q = map Utxo.path (Txp.inputs q)) ->
             BtcChain.checkTx this q = (txp', err) ->
             SameButInputsAndFee txp txp'
             /\ (Txp.inputPaths txp = map Utxo.path (Txp.inputs txp) ->
                 Txp.inputPaths txp' = map Utxo.path (Txp.inputs txp'))
             /\ (err = None -> exists fe, Txp.fee txp' = Some fe)).
  { intros q (Q1 & Q2 & Q3 & Q4 & Q5 & Q6 & Q7) Qp Hc.
    destruct (checkTx_frame q) as ((F1 & F2 & F3 & F4 & F5 & F6 & F7) & Fi & Fp & Ff).
    rewrite Hc in *. cbn [fst snd] in *.
    split; [repeat split; congruence|]. split; [|exact Ff].
    intros Hp. rewrite Fp, Fi. apply Qp, Hp. }
  destruct (andb _ _).
  - destruct (Txp.fee txp) as [fe|] eqn:Ef.
    + intros [= H]. apply (G txp); [repeat split | auto | exact H].
    + destruct (BtcChain.getEstimatedFee this txp _) as [fe|]; [|discriminate].
      cbn. intros [= H].
      apply (G (Txp.set_fee (Some fe) txp)); [repeat split | auto | exact H].
  - destruct (Header.feePerKb (Txp.header txp)) as [f|]; [|discriminate]. cbn.
    destruct fetched as [e|utxos].
    { intros [= <- <-]. split; [repeat split|]. split; [auto | discriminate]. }
    destruct (BtcChain.selection this txp opts f zce utxos) as [e|[inputs fee]].
    { intros [= <- <-]. split; [repeat split|]. split; [auto | discriminate]. }
    intros [= H].
    apply (G (Txp.set_fee fee (TxProposal.setInputs (shuffle inputs) txp)));
      [repeat split | reflexivity | exact H].
Qed.
End Frames.

Lemma selectTxInputs_touches_only_inputs_and_fee_witness :
  exists txp',
    BtcChain.selectTxInputs (L := Fixture.lib) BtcChain.defaultConfig (fun l => l)
      (inr Fixture.scenarioA_utxos) Fixture.scenarioA false Fixture.noOpts
    = Some (txp', None)
    /\ Txp.header txp' = Txp.header Fixture.scenarioA
    /\ Txp.inputs txp' = [Fixture.utxo "a" 5000].
Proof.
  eexists. split; [vm_compute; reflexivity|].
  split; [|reflexivity].
  apply (selectTxInputs_touches_only_inputs_and_fee (L := Fixture.lib)
           BtcChain.defaultConfig (fun l => l) (inr Fixture.scenarioA_utxos)
           Fixture.scenarioA false Fixture.noOpts _ None).
  vm_compute. reflexivity.
Defined.

(** ** The client's utilities *)

Section UtilsProperties.
Context {W : WalletCore} {C : ClientCrypto}.

Lemma digits_app (c rest : string) :
  Utils.digits c = (c, EmptyString) ->
  match rest with
  | String x _ => Utils.isDigit x = false
  | EmptyString => True
  end ->
  Utils.digits (c +:+ rest) = (c, rest).
Proof.
  revert rest. induction c as [|x c IH]; intros rest Hc Hr.
  - destruct rest as [|y r]; [reflexivity|].
    change (("" +:+ String y r)%string) with (String y r).
    cbn [Utils.digits]. rewrite Hr. reflexivity.
  - change ((String x c +:+ rest)%string) with (String x (c +:+ rest)).
    cbn [Utils.digits] in Hc |- *. destruct (Utils.isDigit x); [|discriminate].
    destruct (Utils.digits c) as [d r] eqn:Ed.
    injection Hc as -> ->. rewrite (IH rest eq_refl Hr). reflexivity.
Qed.

(** X18. [parseDerivationPath] reads both indices of a path of the wallet: for
    the path made of the letter m and two runs of digits, each behind a
    slash, the address index is the second run as it is written, and the
    path is a change path exactly when the first run has a digit other than
    zero. *)
Theorem parseDerivationPath_reads_both_indices (changeIndex addressIndex : string) :
  Utils.digits changeIndex = (changeIndex, EmptyString) ->
  Utils.digits addressIndex = (addressIndex, EmptyString) ->
  Utils.parseDerivationPath ("m/" +:+ changeIndex +:+ "/" +:+ addressIndex)
  = Some (addressIndex, Utils.positive changeIndex).
Proof.
  intros Hc Ha.
  change ("m/" +:+ changeIndex +:+ "/" +:+ addressIndex)
    with (String "m"%char (String "/"%char
            (changeIndex +:+ String "/"%char addressIndex))).
  cbn [Utils.parseDerivationPath Utils.matchHere].
  rewrite (digits_app changeIndex (String "/"%char addressIndex) Hc eq_refl).
  rewrite Ha. reflexivity.
Qed.

Lemma append_nil (s : string) : "" +:+ s = s.
Proof. reflexivity. Qed.

Lemma append_cons (c : Ascii.ascii) (a s : string) :
  String c a +:+ s = String c (a +:+ s).
Proof. reflexivity. Qed.

Lemma append_bar_inj (a a' r r' : string) :
  Utils.noBar a = true -> Utils.noBar a' = true ->
  a +:+ "|" +:+ r = a' +:+ "|" +:+ r' -> a = a' /\ r = r'.
Proof.
  revert a'. induction a as [|x a IH]; intros [|x' a'] Ha Ha' H;
    repeat (rewrite append_nil in H || rewrite append_cons in H);
    cbn [Utils.noBar] in Ha, Ha'.
  - injection H as <-. auto.
  - injection H as <- _. discriminate Ha'.
  - injection H as -> _. discriminate Ha.
  - injection H as <- H. apply andb_true_iff in Ha, Ha'.
    destruct (IH a' (proj2 Ha) (proj2 Ha') H) as [<- <-]. auto.
Qed.

(** X19. The hash of a copayer names one copayer only: when neither the names
    nor the extended public keys contain the separator, two copayers with
    the same hash have the same name, the same extended public key and the
    same request key. *)
Theorem getCopayerHash_is_injective (name xPubKey requestPubKey
    name' xPubKey' requestPubKey' : string) :
  Utils.noBar name = true -> Utils.noBar xPubKey = true ->
  Utils.noBar name' = true -> Utils.noBar xPubKey' = true ->
  Utils.getCopayerHash name xPubKey requestPubKey
    = Utils.getCopayerHash name' xPubKey' requestPubKey' ->
  name = name' /\ xPubKey = xPubKey' /\ requestPubKey = requestPubKey'.
Proof.
  intros Hn Hx Hn' Hx' H. unfold Utils.getCopayerHash in H.
  destruct (append_bar_inj _ _ _ _ Hn Hn' H) as [<- H1].
  destruct (append_bar_inj _ _ _ _ Hx Hx' H1) as [<- <-].
  auto.
Qed.

(** X20. Two functions, one table: an address type is native segwit exactly when
    it has a segwit version, and the version is 0 or 1. *)
Theorem native_segwit_has_a_version (addressType : AddressType) :
  (Utils.isNativeSegwit addressType = true <->
   is_Some (Utils.getSegwitVersion addressType))
  /\ forall v, Utils.getSegwitVersion addressType = Some v -> v = 0 \/ v = 1.
Proof.
  split.
  - destruct addressType; cbn; split; intros H; try reflexivity;
      try discriminate H; try (eexists; reflexivity);
      destruct H as [v Hv]; discriminate Hv.
  - intros v. destruct addressType; cbn; intros [= <-]; auto.
Qed.

Lemma toLowerCase_ascii_idem (c : Ascii.ascii) :
  TxProposal.toLowerCase_ascii (TxProposal.toLowerCase_ascii c)
  = TxProposal.toLowerCase_ascii c.
Proof. destruct c as [[] [] [] [] [] [] [] []]; reflexivity. Qed.

Lemma toLowerCase_idem (s : string) :
  TxProposal.toLowerCase (TxProposal.toLowerCase s) = TxProposal.toLowerCase s.
Proof.
  induction s as [|c s IH]; [reflexivity|]. cbn.
  rewrite toLowerCase_ascii_idem, IH. reflexivity.
Qed.

(** X21. The copayer id does not depend on how the chain is capitalised, and for
    bitcoin it is the hash of the extended public key alone. *)
Theorem xPubToCopayerId_ignores_case (chain xpub : string) :
  Utils.xPubToCopayerId (TxProposal.toLowerCase chain) xpub
    = Utils.xPubToCopayerId chain xpub
  /\ (TxProposal.toLowerCase chain = "btc" ->
      Utils.xPubToCopayerId chain xpub = sha256hex xpub).
Proof.
  unfold Utils.xPubToCopayerId. cbv zeta. rewrite toLowerCase_idem.
  split; [reflexivity|]. intros ->. reflexivity.
Qed.
End UtilsProperties.

Lemma parseDerivationPath_reads_both_indices_witness :
  Utils.parseDerivationPath "m/1/25" = Some ("25", true).
Proof.
  apply (parseDerivationPath_reads_both_indices "1" "25"); reflexivity.
Defined.

Lemma getCopayerHash_is_injective_witness :
  "alice" = "alice" /\ "xpubA" = "xpubA" /\ "reqA" = "reqA".
Proof.
  apply (getCopayerHash_is_injective "alice" "xpubA" "reqA" "alice" "xpubA" "reqA");
    reflexivity.
Defined.

(** ** Addresses *)

Section AddressProperties.
Context {W : WalletCore}.

Lemma mapM_length {A B} (f : A -> option B) (l : list A) (k : list B) :
  mapM f l = Some k -> length k = length l.
Proof.
  intros H. apply mapM_Some in H. symmetry. eapply Forall2_length, H.
Qed.

Lemma addressFor_keys bitcore scriptType ring keys path m network chain escrow r :
  Utils.addressFor bitcore scriptType ring keys path m network chain escrow = Some r ->
  (scriptType = P2PKH -> length keys = 1%nat)
  /\ match scriptType, escrow with
     | P2SH, Some paths => length (snd r) = S (length paths)
     | _, _ => snd r = keys
     end.
Proof.
  unfold Utils.addressFor. destruct scriptType; try discriminate.
  - (* P2SH *)
    intros H. split; [discriminate|]. destruct escrow as [paths|].
    + destruct (ring !! 0%nat) as [first|]; [|discriminate]. cbn in H.
      destruct (mapM _ paths) as [ipk|] eqn:Em; [|discriminate]. cbn in H.
      destruct (keys !! 0%nat); [|discriminate]. cbn in H.
      destruct (createEscrow _ _ _ _); [|discriminate]. injection H as <-.
      cbn. f_equal. eapply mapM_length, Em.
    + destruct (createMultisig _ _ _ _ _ _); [|discriminate]. injection H as <-.
      reflexivity.
  - (* P2PKH *)
    destruct (Nat.eqb_spec (length keys) 1) as [E|E]; cbn [negb]; [|discriminate].
    intros H. split; [auto|].
    destruct (existsb _ UTXO_CHAINS).
    + destruct (keys !! 0%nat); [|discriminate]. cbn in H.
      destruct (fromPublicKey _ _ _ _); [|discriminate]. injection H as <-.
      reflexivity.
    + destruct (Utils.parseDerivationPath path) as [[ai ic]|]; [|discriminate].
      cbn in H. destruct (ring !! 0%nat); [|discriminate]. cbn in H.
      destruct (Deriver_deriveAddress _ _ _ _ _); [|discriminate].
      injection H as <-. reflexivity.
  - (* P2WPKH *)
    intros H. split; [discriminate|].
    destruct (keys !! 0%nat); [|discriminate]. cbn in H.
    destruct (fromPublicKey _ _ _ _); [|discriminate]. injection H as <-.
    reflexivity.
  - (* P2WSH *)
    intros H. split; [discriminate|].
    destruct (createMultisig _ _ _ _ _ _); [|discriminate]. injection H as <-.
    reflexivity.
  - (* P2TR *)
    intros H. split; [discriminate|].
    destruct (keys !! 0%nat); [|discriminate]. cbn in H.
    destruct (fromPublicKey _ _ _ _); [|discriminate]. injection H as <-.
    reflexivity.
Qed.

(** X22. The public keys [deriveAddress] reports.  With a hardware or
    client-derived key the result holds that key alone.  Otherwise it holds
    one key per member of the key ring, except for an escrow address, which
    holds the reclaim key and one key per escrow input; and a P2PKH address
    is derived only for a key ring of exactly one member. *)
Theorem deriveAddress_reports_one_key_per_copayer
    scriptType ring path m network chain escrow hw cd d :
  Utils.deriveAddress scriptType ring path m network chain escrow hw cd = Some d ->
  if JS.truthy_str (Utils.or_str hw cd)
  then Utils.d_publicKeys d = [default "" (Utils.or_str hw cd)]
  else (scriptType = P2PKH -> length ring = 1%nat)
       /\ match scriptType, escrow with
          | P2SH, Some paths => length (Utils.d_publicKeys d) = S (length paths)
          | _, _ => length (Utils.d_publicKeys d) = length ring
          end.
Proof.
  unfold Utils.deriveAddress.
  destruct (negb (Utils.isScriptType scriptType)); [discriminate|].
  destruct (JS.truthy_str (Utils.or_str hw cd)).
  - destruct chain as [c|]; [|discriminate]. cbn.
    destruct (Deriver_getAddress _ _ _ _); [|discriminate].
    intros [= <-]. reflexivity.
  - cbn. destruct (Bitcore_ _) as [b|]; [|discriminate]. cbn.
    destruct (mapM _ ring) as [pks|] eqn:Em; [|discriminate]. cbn.
    destruct (Utils.addressFor _ _ _ _ _ _ _ _ _) as [r|] eqn:Ea; [|discriminate].
    intros [= <-]. cbn [Utils.d_publicKeys].
    apply mapM_length in Em. apply addressFor_keys in Ea. destruct Ea as [E1 E2].
    split; [intros Hp; rewrite <- Em; auto|].
    rewrite length_map.
    destruct scriptType; try (rewrite E2; exact Em).
    destruct escrow; [exact E2 | rewrite E2; exact Em].
Qed.

Lemma difference_nil_iff (a b : list string) :
  length (Verifier.difference a b) = 0%nat <-> forall x, In x a -> In x b.
Proof.
  unfold Verifier.difference. induction a as [|y a IH]; cbn.
  - split; [intros _ x [] | reflexivity].
  - destruct (existsb (String.eqb y) b) eqn:E; cbn.
    + apply existsb_exists in E. destruct E as (z & Hz & Hyz).
      apply String.eqb_eq in Hyz. subst z. rewrite IH. split.
      * intros H x [<-|Hx]; auto.
      * intros H x Hx. apply H. auto.
    + split; [discriminate|]. intros H. exfalso.
      assert (Hy : In y b) by (apply H; auto).
      assert (Ht : existsb (String.eqb y) b = true)
        by (apply existsb_exists; exists y; split; [exact Hy | apply String.eqb_refl]).
      congruence.
Qed.

(** X23. What [checkAddress] accepts: the credentials are complete, the address
    derived locally for the reported path is the reported address, and each
    public key derived locally is among the reported ones.  Their order and
    any further reported key are not looked at. *)
Theorem checkAddress_accepts_iff useRegtest credentials address escrowInputs :
  Verifier.checkAddress useRegtest credentials address escrowInputs = Some true <->
  Verifier.isComplete credentials = true
  /\ exists d,
       Utils.deriveAddress
         (match Verifier.a_type address with
          | Some t => t
          | None => Verifier.addressType credentials
          end)
         (Verifier.publicKeyRing credentials) (Verifier.a_path address)
         (Verifier.m credentials) (Verifier.networkFor useRegtest credentials)
         (Verifier.chain credentials) escrowInputs
         (Verifier.hardwareSourcePublicKey credentials)
         (Verifier.clientDerivedPublicKey credentials) = Some d
       /\ Utils.d_address d = Verifier.a_address address
       /\ forall k, In k (Utils.d_publicKeys d) ->
                    In k (Verifier.a_publicKeys address).
Proof.
  unfold Verifier.checkAddress. cbv zeta.
  destruct (Verifier.isComplete credentials); cbn [negb];
    [|split; [discriminate | intros [H _]; discriminate]].
  destruct (Utils.deriveAddress _ _ _ _ _ _ _ _ _) as [d|]; cbn.
  - split.
    + intros [= H]. apply andb_true_iff in H. destruct H as [H1 H2].
      split; [reflexivity|]. exists d. split; [reflexivity|].
      apply String.eqb_eq in H1. apply Nat.eqb_eq in H2.
      split; [exact H1|]. apply difference_nil_iff, H2.
    + intros (_ & d' & [= <-] & H1 & H2). f_equal. apply andb_true_iff. split.
      * apply String.eqb_eq, H1.
      * apply Nat.eqb_eq, difference_nil_iff, H2.
  - split; [discriminate|]. intros (_ & d' & H & _). discriminate H.
Qed.
End AddressProperties.

Lemma deriveAddress_reports_one_key_per_copayer_witness :
  exists d,
    Utils.deriveAddress (W := Fixture.core) P2SH
      (Verifier.publicKeyRing Fixture.credentials) "m/0/5" 2 "testnet" (Some "btc")
      None None None = Some d
    /\ length (Utils.d_publicKeys d) = 2%nat.
Proof.
  eexists. split; [reflexivity|].
  exact (proj2 (deriveAddress_reports_one_key_per_copayer (W := Fixture.core) P2SH
                  (Verifier.publicKeyRing Fixture.credentials) "m/0/5" 2 "testnet"
                  (Some "btc") None None None _ eq_refl)).
Defined.

(** ** The copayers of a wallet *)

Section CopayerProperties.
Context {W : WalletCore}.

Local Abbreviation NaNs u :=
  (forall (k : string) (v : option Z), u !! k = Some v -> v = None).

Local Abbreviation clean s :=
  (Verifier.error s = false /\ Verifier.returned s = false).

Local Abbreviation scanAll cs pub :=
  (foldl (fun acc copayer => s ← acc; Verifier.scanCopayer cs pub s copayer)).

Lemma scan_clean cs pub s c :
  NaNs (Verifier.uniq s) -> clean s ->
  (Verifier.signedBy pub c ->
   exists s', Verifier.scanCopayer cs pub s c = Some s'
              /\ clean s' /\ NaNs (Verifier.uniq s'))
  /\ (forall s', Verifier.scanCopayer cs pub s c = Some s' -> clean s' ->
        Verifier.signedBy pub c).
Proof.
  intros Hu [He Hr]. unfold Verifier.scanCopayer, Verifier.signedBy.
  rewrite He, Hr. cbv zeta.
  destruct (postIncrement_never_truthy (Verifier.uniq s)
              (Verifier.toPropertyKey (Verifier.array_xPubKey cs)) Hu) as [Ht Hu'].
  destruct (Verifier.postIncrement _ _) as [old uniq']. cbn [fst snd] in Ht, Hu'.
  rewrite Ht.
  destruct (JS.truthy_str (Utils.or_str _ _)); cbn [negb orb];
    [|split; [intros (H & _); discriminate
             | intros s' [= <-] [H _]; discriminate]].
  destruct (JS.truthy_str (Verifier.c_xPubKey c)); cbn [negb orb];
    [|split; [intros (_ & H & _); discriminate
             | intros s' [= <-] [H _]; discriminate]].
  destruct (JS.truthy_str (Verifier.c_requestPubKey c)); cbn [negb orb];
    [|split; [intros (_ & _ & H & _); discriminate
             | intros s' [= <-] [H _]; discriminate]].
  destruct (JS.truthy_str (Verifier.c_signature c)); cbn [negb orb];
    [|split; [intros (_ & _ & _ & H & _); discriminate
             | intros s' [= <-] [H _]; discriminate]].
  destruct (Utils.verifyMessage _ _ _) as [[|]|]; cbn.
  - split.
    + intros _. eexists. split; [reflexivity|]. cbn. auto.
    + intros s' _ _. auto.
  - split.
    + intros (_ & _ & _ & _ & H). discriminate.
    + intros s' [= <-] [H _]. discriminate.
  - split.
    + intros (_ & _ & _ & _ & H). discriminate.
    + intros s' H. discriminate.
Qed.

Lemma scan_spoiled cs pub s c s' :
  Verifier.error s = true \/ Verifier.returned s = true ->
  Verifier.scanCopayer cs pub s c = Some s' ->
  Verifier.error s' = true \/ Verifier.returned s' = true.
Proof.
  intros H. unfold Verifier.scanCopayer.
  destruct (Verifier.returned s) eqn:Er; [intros [= <-]; right; exact Er|].
  destruct H as [He|H]; [|discriminate]. rewrite He.
  intros [= <-]. right. reflexivity.
Qed.

Lemma scanAll_None cs pub (l : list Verifier.Copayer) : scanAll cs pub None l = None.
Proof. induction l; cbn; auto. Qed.

Lemma scanAll_spoiled cs pub (l : list Verifier.Copayer) : forall s s',
  Verifier.error s = true \/ Verifier.returned s = true ->
  scanAll cs pub (Some s) l = Some s' ->
  Verifier.error s' = true \/ Verifier.returned s' = true.
Proof.
  induction l as [|c l IH]; intros s s' Hs; cbn [foldl].
  - intros [= <-]. exact Hs.
  - cbn [mbind option_bind].
    destruct (Verifier.scanCopayer cs pub s c) as [s1|] eqn:E.
    + apply IH. eapply scan_spoiled; eauto.
    + rewrite scanAll_None. discriminate.
Qed.

Lemma scanAll_clean cs pub (l : list Verifier.Copayer) : forall s,
  NaNs (Verifier.uniq s) -> clean s ->
  (exists s', scanAll cs pub (Some s) l = Some s' /\ clean s')
  <-> forall c, In c l -> Verifier.signedBy pub c.
Proof.
  induction l as [|c l IH]; intros s Hu Hs; cbn [foldl].
  - split; [intros _ c [] | intros _; exists s; auto].
  - cbn [mbind option_bind].
    destruct (scan_clean cs pub s c Hu Hs) as [Hgood Hback]. split.
    + intros (s' & Hf & Hc).
      destruct (Verifier.scanCopayer cs pub s c) as [s1|] eqn:E;
        [|rewrite scanAll_None in Hf; discriminate].
      assert (Hs1 : clean s1).
      { destruct (Verifier.error s1) eqn:E1;
          [|destruct (Verifier.returned s1) eqn:E2; [|auto]].
        - destruct (scanAll_spoiled cs pub l s1 s' (or_introl E1) Hf) as [H|H];
            destruct Hc; congruence.
        - destruct (scanAll_spoiled cs pub l s1 s' (or_intror E2) Hf) as [H|H];
            destruct Hc; congruence. }
      pose proof (Hback s1 eq_refl Hs1) as Hg.
      destruct (Hgood Hg) as (s1' & [= <-] & _ & Hu1).
      intros c' [<-|Hin]; [exact Hg|].
      apply (proj1 (IH s1 Hu1 Hs1)); [exists s'; auto | exact Hin].
    + intros Hall.
      destruct (Hgood (Hall c (or_introl eq_refl))) as (s1 & -> & Hs1 & Hu1).
      apply (IH s1 Hu1 Hs1). intros c' Hc'. apply Hall. right. exact Hc'.
Qed.

(** X24. What [checkCopayers] accepts.  The answer is [true] exactly when the
    wallet key is there and gives a public key, there are [n] entries, every
    entry has a name, an extended public key, a request key and a signature
    that verifies under the wallet key, and some entry has the copayer's own
    extended public key.  Whether two entries have the same key plays no
    part. *)
Theorem checkCopayers_accepts_iff (credentials : Verifier.Credentials)
    (copayers : list Verifier.Copayer) :
  Verifier.checkCopayers credentials copayers = Some Verifier.AnsTrue <->
  JS.truthy_str (Verifier.walletPrivKey credentials) = true
  /\ exists walletPubKey,
       toPublicKeyString (default "" (Verifier.walletPrivKey credentials))
         = Some walletPubKey
       /\ Z.of_nat (length copayers) = Verifier.n credentials
       /\ (forall c, In c copayers -> Verifier.signedBy walletPubKey c)
       /\ exists c, In c copayers
                    /\ Verifier.c_xPubKey c = Verifier.xPubKey credentials.
Proof.
  unfold Verifier.checkCopayers.
  destruct (JS.truthy_str (Verifier.walletPrivKey credentials)); cbn [negb];
    [|split; [discriminate | intros [H _]; discriminate]].
  destruct (toPublicKeyString _) as [pub|]; cbn [mbind option_bind];
    [|split; [discriminate | intros (_ & p & H & _); discriminate]].
  destruct (Z.eqb_spec (Z.of_nat (length copayers)) (Verifier.n credentials)) as [En|En];
    cbn [negb];
    [|split; [discriminate | intros (_ & p & _ & H & _); contradiction]].
  assert (Hown : existsb (fun c => bool_decide (Verifier.c_xPubKey c
                                                 = Verifier.xPubKey credentials))
                         copayers = true
                 <-> exists c, In c copayers
                       /\ Verifier.c_xPubKey c = Verifier.xPubKey credentials).
  { rewrite existsb_exists. split; intros (c & Hin & Hc); exists c; split; auto.
    - apply bool_decide_eq_true in Hc. exact Hc.
    - apply bool_decide_eq_true. exact Hc. }
  pose proof (scanAll_clean copayers pub copayers (Verifier.mkScan ∅ false false)
                ltac:(intros k v; cbn [Verifier.uniq]; rewrite lookup_empty; discriminate)
                (conj eq_refl eq_refl)) as Hscan.
  cbn [Verifier.uniq] in Hscan.
  destruct (foldl _ _ copayers) as [s|] eqn:Ef; cbn [mbind option_bind].
  - destruct (Verifier.returned s) eqn:Er.
    { split; [discriminate|]. intros (_ & p & [= <-] & _ & Hall & _).
      apply Hscan in Hall. destruct Hall as (s' & [= <-] & _ & H). congruence. }
    destruct (Verifier.error s) eqn:Ee.
    { split; [discriminate|]. intros (_ & p & [= <-] & _ & Hall & _).
      apply Hscan in Hall. destruct Hall as (s' & [= <-] & H & _). congruence. }
    destruct (existsb _ copayers) eqn:Ex; cbn [negb].
    + split; [|reflexivity]. intros _. split; [reflexivity|]. exists pub.
      split; [reflexivity|]. split; [exact En|]. split.
      * apply Hscan. exists s. auto.
      * apply Hown. reflexivity.
    + split; [discriminate|]. intros (_ & p & _ & _ & _ & H).
      apply Hown in H. discriminate.
  - split; [discriminate|]. intros (_ & p & [= <-] & _ & Hall & _).
    apply Hscan in Hall. destruct Hall as (s' & H & _). discriminate.
Qed.
End CopayerProperties.

(** ** The checks of a proposal the server returns *)

Section ProposalChecks.
Context {W : WalletCore} {C : ClientCrypto}.

Lemma strEqual_truthy (a b : option string) :
  Verifier.strEqual a b = true -> JS.truthy_str b = true -> a = b.
Proof.
  unfold Verifier.strEqual. intros H Hb. rewrite Hb in H.
  rewrite andb_false_r in H. cbn in H. apply bool_decide_eq_true in H. exact H.
Qed.

Lemma outputsMatch_lookup key (l1 l2 : list Verifier.POutput) :
  Verifier.outputsMatch key l1 l2 = true ->
  forall (i : nat) o1 o2, l1 !! i = Some o1 -> l2 !! i = Some o2 ->
    Verifier.outputMatches key o1 o2 = true.
Proof.
  revert l2. induction l1 as [|a l1 IH]; intros [|b l2] H i o1 o2 H1 H2;
    try discriminate.
  cbn in H. destruct (Verifier.outputMatches key a b) eqn:E; [|discriminate].
  destruct i as [|i]; cbn in H1, H2.
  - injection H1 as <-. injection H2 as <-. exact E.
  - eapply IH; eauto.
Qed.

Lemma outputMatches_sound key (o1 o2 : Verifier.POutput) :
  Verifier.outputMatches key o1 o2 = true ->
  Verifier.po_amount o1 = Verifier.po_amount o2
  /\ (JS.truthy_str (Verifier.po_toAddress o2) = true ->
      Verifier.po_toAddress o1 = Verifier.po_toAddress o2)
  /\ (JS.truthy_str (Verifier.po_script o2) = true ->
      Verifier.po_script o1 = Verifier.po_script o2)
  /\ exists decrypted,
       Utils.decryptMessage (Verifier.po_message o2) key = Some decrypted
       /\ Verifier.strEqual (Verifier.po_message o1) decrypted = true.
Proof.
  unfold Verifier.outputMatches. intros Hm.
  destruct (Verifier.strEqual (Verifier.po_toAddress o1) _) eqn:Ea; cbn [negb] in Hm;
    [|discriminate].
  destruct (Verifier.strEqual (Verifier.po_script o1) _) eqn:Esc; cbn [negb] in Hm;
    [|discriminate].
  destruct (Z.eqb_spec (Verifier.po_amount o1) (Verifier.po_amount o2)) as [Eam|Eam];
    cbn [negb] in Hm; [|discriminate].
  destruct (Utils.decryptMessage (Verifier.po_message o2) _) as [dm|];
    [|discriminate].
  split; [exact Eam|]. split; [apply strEqual_truthy, Ea|].
  split; [apply strEqual_truthy, Esc|]. exists dm. auto.
Qed.

(** X25. [checkProposalCreation] accepts only what was asked for.  When it
    answers [true] the proposal has as many outputs as were asked, each
    output has the amount asked at its position and, where an address was
    asked, that address, and its message is the decrypted message asked;
    the change address and the fee rate are the ones asked, when one was
    asked; and the payment URL and the message agree with the request. *)
Theorem checkProposalCreation_accepts_what_was_asked
    (args : Verifier.CreationArgs) (txp : Verifier.Proposal)
    (encryptingKey : option string) :
  Verifier.checkProposalCreation args txp encryptingKey = true ->
  length (Verifier.p_outputs txp) = length (Verifier.ca_outputs args)
  /\ (forall (i : nat) o1 o2,
        Verifier.p_outputs txp !! i = Some o1 ->
        Verifier.ca_outputs args !! i = Some o2 ->
        Verifier.po_amount o1 = Verifier.po_amount o2
        /\ (JS.truthy_str (Verifier.po_toAddress o2) = true ->
            Verifier.po_toAddress o1 = Verifier.po_toAddress o2)
        /\ (JS.truthy_str (Verifier.po_script o2) = true ->
            Verifier.po_script o1 = Verifier.po_script o2)
        /\ exists decrypted,
             Utils.decryptMessage (Verifier.po_message o2) encryptingKey
               = Some decrypted
             /\ Verifier.strEqual (Verifier.po_message o1) decrypted = true)
  /\ (JS.truthy_str (Verifier.ca_changeAddress args) = true ->
      Verifier.a_address <$> Verifier.p_changeAddress txp
        = Verifier.ca_changeAddress args)
  /\ (forall asked, Verifier.ca_feePerKb args = Some asked ->
        exists got, Verifier.p_feePerKb txp = Some got /\ (got == asked)%Q)
  /\ Verifier.strEqual (Verifier.p_payProUrl txp) (Verifier.ca_payProUrl args) = true
  /\ exists decrypted,
       Utils.decryptMessage (Verifier.ca_message args) encryptingKey = Some decrypted
       /\ Verifier.strEqual (Verifier.p_message txp) decrypted = true.
Proof.
  unfold Verifier.checkProposalCreation. cbv zeta.
  destruct (Nat.eqb_spec (length (Verifier.p_outputs txp))
              (length (Verifier.ca_outputs args))) as [El|El];
    cbn [negb]; [|discriminate].
  destruct (Verifier.outputsMatch _ _ _) eqn:Eo; cbn [negb]; [|discriminate].
  destruct (andb (JS.truthy_str (Verifier.ca_changeAddress args)) _) eqn:Ec;
    [discriminate|].
  destruct (match Verifier.ca_feePerKb args with Some _ => _ | None => _ end) eqn:Ef;
    [discriminate|].
  destruct (Verifier.strEqual (Verifier.p_payProUrl txp) _) eqn:Eu; cbn [negb];
    [|discriminate].
  destruct (Utils.decryptMessage (Verifier.ca_message args) _) as [dm|];
    [|discriminate].
  destruct (Verifier.strEqual (Verifier.p_message txp) dm) eqn:Em; cbn [negb];
    [|discriminate].
  intros _. split; [exact El|]. split; [|split; [|split; [|split]]].
  - intros i o1 o2 H1 H2. apply outputMatches_sound.
    eapply outputsMatch_lookup; eauto.
  - intros Ht. rewrite Ht in Ec. cbn [andb] in Ec. apply negb_false_iff in Ec.
    apply strEqual_truthy; assumption.
  - intros asked Ha. rewrite Ha in Ef.
    destruct (Verifier.p_feePerKb txp) as [got|]; [|discriminate].
    exists got. split; [reflexivity|].
    apply negb_false_iff in Ef. apply Qeq_bool_iff. exact Ef.
  - reflexivity.
  - exists dm. auto.
Qed.
End ProposalChecks.

Section PayproChecks.
Context {W : WalletCore} {C : ClientCrypto}.

(** The address [checkPaypro] reads from a proposal. *)
Local Abbreviation payee txp :=
  (if 3 <=? default 0 (Verifier.p_version txp)
   then Verifier.po_toAddress <$> (Verifier.p_outputs txp !! 0%nat)
   else Some (Verifier.p_toAddress txp)).

Local Abbreviation invoiced instructions :=
  (foldl (fun sum i => sum + Verifier.i_amount i) 0 (default [] instructions)).

(** X26. [checkPaypro] accepts only the invoiced amount, and for bitcoin only
    the invoiced address: when it answers [true] the amount of the proposal
    is the sum of the amounts of the instructions, and for the coin btc the
    address the proposal pays to is the address of the first instruction. *)
Theorem checkPaypro_accepts_the_invoice (txp : Verifier.Proposal)
    (instructions : option (list Verifier.Instruction)) :
  Verifier.checkPaypro txp instructions = Some true ->
  Verifier.p_amount txp = invoiced instructions
  /\ (Verifier.p_coin txp = Some "btc" ->
      exists toAddress i,
        payee txp = Some toAddress
        /\ instructions ≫= (fun l => l !! 0%nat) = Some i
        /\ toAddress = Verifier.i_toAddress i).
Proof.
  unfold Verifier.checkPaypro.
  destruct (if 3 <=? _ then _ else _) as [toAddress|]; [|discriminate].
  cbn [mbind option_bind].
  destruct (Z.eqb_spec (Verifier.p_amount txp) (invoiced instructions)) as [Ea|Ea];
    cbn [negb]; [|discriminate].
  intros H. split; [exact Ea|]. intros Hc. rewrite Hc in H.
  rewrite (bool_decide_eq_true_2 (Some "btc" = Some "btc") eq_refl) in H.
  destruct (instructions ≫= _) as [i|]; [|discriminate].
  cbn [mbind option_bind] in H.
  destruct (decide (toAddress = Verifier.i_toAddress i)) as [E|E].
  - exists toAddress, i. auto.
  - rewrite bool_decide_eq_false_2 in H by exact E. discriminate.
Qed.

(** X27. For a coin other than btc and bch [checkPaypro] compares no address:
    it answers [true] as soon as the proposal has an address to read and
    its amount is the invoiced amount, wherever the proposal pays to. *)
Theorem checkPaypro_compares_no_address_for_other_coins (txp : Verifier.Proposal)
    (instructions : option (list Verifier.Instruction)) :
  Verifier.p_coin txp <> Some "btc" -> Verifier.p_coin txp <> Some "bch" ->
  is_Some (payee txp) ->
  Verifier.checkPaypro txp instructions
  = Some (Verifier.p_amount txp =? invoiced instructions).
Proof.
  intros Hb Hc [toAddress Ht]. unfold Verifier.checkPaypro. rewrite Ht.
  cbn [mbind option_bind].
  destruct (Verifier.p_amount txp =? _); cbn [negb]; [|reflexivity].
  rewrite !bool_decide_eq_false_2 by assumption. reflexivity.
Qed.

Variable getChain : option string -> string.
Variable buildTxHash : Verifier.Proposal -> option string.

(** The chain [checkTxProposalSignature] works with. *)
Local Abbreviation chainOf txp :=
  (if JS.truthy_str (TxProposal.toLowerCase <$> Verifier.p_chain txp)
   then TxProposal.toLowerCase (default "" (Verifier.p_chain txp))
   else getChain (Verifier.p_coin txp)).

Lemma find_ring (P : Utils.RingEntry -> bool) (ring : list Utils.RingEntry) k :
  List.find P ring = Some k -> In k ring /\ P k = true.
Proof. apply find_some. Qed.

(** X28. What a proposal that [checkTxProposalSignature] accepts has been
    checked for.  Its creator is a member of the key ring; the signing key
    is that member's request key, or the key the proposal names, which the
    member's extended key has then signed; the proposal is of version 3 or
    more and builds into a transaction; the signature verifies under the
    signing key, over the transaction or else over the raw transaction the
    proposal carries; and on a UTXO chain the change address (and the escrow
    address, if any) is one the wallet derives. *)
Theorem checkTxProposalSignature_accepts_signed_proposals useRegtest
    (credentials : Verifier.Credentials) (txp : Verifier.Proposal) :
  Verifier.checkTxProposalSignature getChain buildTxHash useRegtest credentials txp
    = Some true ->
  exists creatorKeys signingKey hash,
    In creatorKeys (Verifier.publicKeyRing credentials)
    /\ Some (Utils.xPubToCopayerId (chainOf txp) (Utils.r_xPubKey creatorKeys))
       = Verifier.p_creatorId txp
    /\ (match Verifier.p_proposalSignaturePubKey txp with
        | Some key =>
            if String.eqb key ""
            then signingKey = Utils.r_requestPubKey creatorKeys
            else signingKey = key
                 /\ Utils.verifyRequestPubKey key
                      (Verifier.p_proposalSignaturePubKeySig txp)
                      (Utils.r_xPubKey creatorKeys) = Some true
        | None => signingKey = Utils.r_requestPubKey creatorKeys
        end)
    /\ 3 <= default 0 (Verifier.p_version txp)
    /\ buildTxHash txp = Some hash
    /\ (Utils.verifyMessage hash (Verifier.p_proposalSignature txp) signingKey
          = Some true
        \/ (JS.truthy_str (Verifier.p_prePublishRaw txp) = true
            /\ Utils.verifyMessage (default "" (Verifier.p_prePublishRaw txp))
                 (Verifier.p_proposalSignature txp) signingKey = Some true))
    /\ (existsb (String.eqb (chainOf txp)) UTXO_CHAINS = true ->
        (exists report,
            Verifier.p_changeAddress txp = Some report
            /\ Verifier.checkAddress useRegtest credentials report None = Some true)
        /\ forall escrow,
             Verifier.p_escrowAddress txp = Some escrow ->
             Verifier.checkAddress useRegtest credentials escrow
               (Some (Verifier.p_inputPaths txp)) = Some true).
Proof.
  unfold Verifier.checkTxProposalSignature. cbv zeta.
  destruct (JS.truthy_str (Verifier.p_creatorId txp)); cbn [negb]; [|discriminate].
  destruct (Verifier.isComplete credentials); cbn [negb]; [|discriminate].
  destruct (List.find _ _) as [keys|] eqn:Ef; [|discriminate].
  apply find_ring in Ef. destruct Ef as [Hin Hid].
  apply bool_decide_eq_true in Hid.
  set (signingKey := if JS.truthy_str (Verifier.p_proposalSignaturePubKey txp)
                     then default "" (Verifier.p_proposalSignaturePubKey txp)
                     else Utils.r_requestPubKey keys).
  assert (Hkey : forall d,
             (if JS.truthy_str (Verifier.p_proposalSignaturePubKey txp)
              then Utils.verifyRequestPubKey
                     (default "" (Verifier.p_proposalSignaturePubKey txp))
                     (Verifier.p_proposalSignaturePubKeySig txp)
                     (Utils.r_xPubKey keys)
              else Some true) = Some d -> negb d = false ->
             match Verifier.p_proposalSignaturePubKey txp with
             | Some key =>
                 if String.eqb key ""
                 then signingKey = Utils.r_requestPubKey keys
                 else signingKey = key
                      /\ Utils.verifyRequestPubKey key
                           (Verifier.p_proposalSignaturePubKeySig txp)
                           (Utils.r_xPubKey keys) = Some true
             | None => signingKey = Utils.r_requestPubKey keys
             end).
  { unfold signingKey. intros d Hd Hn. apply negb_false_iff in Hn. subst d.
    destruct (Verifier.p_proposalSignaturePubKey txp) as [key|]; cbn in *;
      [|reflexivity].
    destruct (String.eqb key ""); cbn in *; [reflexivity | auto]. }
  destruct (if JS.truthy_str (Verifier.p_proposalSignaturePubKey txp)
            then Utils.verifyRequestPubKey _ _ _ else Some true)
    as [delegated|] eqn:Ed; [|discriminate].
  cbn [mbind option_bind].
  destruct (negb delegated) eqn:En; [discriminate|].
  specialize (Hkey delegated eq_refl En).
  fold signingKey.
  destruct (String.eqb signingKey ""); [discriminate|].
  destruct (Z.leb_spec 3 (default 0 (Verifier.p_version txp))) as [Hv|Hv];
    cbn [negb]; [|discriminate].
  destruct (buildTxHash txp) as [hash|]; [|discriminate]. cbn [mbind option_bind].
  destruct (Utils.verifyMessage hash _ signingKey) as [verified|] eqn:Ev;
    [|discriminate].
  cbn [mbind option_bind].
  destruct (andb (negb verified) (negb _)) eqn:E1; [discriminate|].
  destruct (if andb (negb verified) _ then _ else _) as [fallback|] eqn:Efb;
    [|discriminate].
  cbn [mbind option_bind].
  destruct (negb fallback) eqn:Enf; [discriminate|].
  apply negb_false_iff in Enf. subst fallback.
  intros H. exists keys, signingKey, hash.
  split; [exact Hin|]. split; [exact Hid|]. split; [exact Hkey|].
  split; [exact Hv|]. split; [reflexivity|]. split.
  - destruct verified; [left; exact Ev|]. right.
    cbn [negb andb] in E1, Efb. apply negb_false_iff in E1.
    rewrite E1 in Efb. auto.
  - intros Hutxo. rewrite Hutxo in H.
    destruct (Verifier.p_changeAddress txp) as [report|]; [|discriminate H].
    cbn [mbind option_bind] in H.
    destruct (Verifier.checkAddress useRegtest credentials report None)
      as [[|]|] eqn:Ec; try discriminate H.
    cbn [mbind option_bind negb] in H.
    split; [exists report; split; [reflexivity | exact Ec]|].
    intros escrow He. rewrite He in H.
    destruct (Verifier.checkAddress useRegtest credentials escrow _) as [[|]|];
      try discriminate H. reflexivity.
Qed.

End PayproChecks.

Lemma checkPaypro_accepts_the_invoice_witness :
  Verifier.p_amount Fixture.clientProposal = 10000.
Proof.
  exact (proj1 (checkPaypro_accepts_the_invoice (C := Fixture.crypto)
                  Fixture.clientProposal (Some Fixture.invoice) eq_refl)).
Defined.

Lemma checkPaypro_compares_no_address_for_other_coins_witness :
  let txp :=
    Verifier.mkProposal (Some 3) (Some "h(xpubA)") (Some "ltc") (Some "ltc")
      [Verifier.mkPOutput (Some "Lsomeone-else") None 10000 None]
      None 10000 None None [] None None None None None None None None in
  Verifier.checkPaypro (C := Fixture.crypto) txp (Some Fixture.invoice) = Some true.
Proof.
  intros txp.
  apply (checkPaypro_compares_no_address_for_other_coins (C := Fixture.crypto) txp
           (Some Fixture.invoice));
    [discriminate | discriminate | eexists; reflexivity].
Defined.

Lemma checkTxProposalSignature_accepts_signed_proposals_witness :
  exists creatorKeys,
    In creatorKeys (Verifier.publicKeyRing Fixture.credentials)
    /\ Some (Utils.xPubToCopayerId (C := Fixture.crypto) "btc"
               (Utils.r_xPubKey creatorKeys))
       = Verifier.p_creatorId Fixture.clientProposal.
Proof.
  destruct (checkTxProposalSignature_accepts_signed_proposals (W := Fixture.core)
              (C := Fixture.crypto) Fixture.coinChain Fixture.txHash false
              Fixture.credentials Fixture.clientProposal eq_refl)
    as (keys & _ & _ & Hin & Hid & _).
  exists keys. split; [exact Hin | exact Hid].
Defined.

Lemma checkProposalCreation_accepts_what_was_asked_witness :
  Verifier.checkProposalCreation (C := Fixture.crypto) Fixture.creationArgs
    Fixture.clientProposal (Some "key") = true
  /\ length (Verifier.p_outputs Fixture.clientProposal)
     = length (Verifier.ca_outputs Fixture.creationArgs).
Proof.
  split; [reflexivity|].
  exact (proj1 (checkProposalCreation_accepts_what_was_asked (C := Fixture.crypto)
                  Fixture.creationArgs Fixture.clientProposal (Some "key") eq_refl)).
Defined.
